(** * Instagram trending-hashtag pipeline: categorizer, discovery collector,
    engagement aggregator, trend-record builder and upsert writer of
    [main.py], embedded as Rocq functions.

    Modelling conventions.
    - Python [str] is [string] (one [ascii] per character). The library
      calls [str.lower], [str.isdigit] and the class [\w] of [re] are given
      on ASCII text, where they agree with Python's; on other text Python
      lowers more letters (and may lengthen a string) and accepts more
      digits and word characters. The properties below that range over
      all strings use of [lower] only that lowering twice is lowering once;
      what is specific to ASCII enters through a hypothesis ([word_string])
      or a worked example.
    - Python [int] is [Z]; a [float] is kept as the exact rational [Q] it
      denotes, without rounding and without an upper bound. Floats that are
      not finite appear only where a caller may hand them in ([number]).
    - A [dict] whose order is observable ([Counter], [HASHTAG_CATEGORIES])
      is an association list in insertion order; a [dict] used only for
      keyed lookup ([post_hashtags_map]) is a [gmap].
    - The browser page, the clock, the random source and the Supabase client
      are collaborators: their answers are parameters of the functions that
      consume them, and a call that may raise yields a [result]. *)

From Stdlib Require Import QArith.
From stdpp Require Import gmap strings list fin_maps sorting.
From Stdlib Require Import Ascii.

Local Open Scope Z_scope.

(* ===================================================================== *)
(** ** Python primitives *)
(* ===================================================================== *)

Module Py.

(** Outcome of a call that either returns or raises [Exception(msg)]. *)
Inductive result (A : Type) : Type :=
| Returned (a : A)
| Raised (msg : string).
Arguments Returned {A} a.
Arguments Raised {A} msg.

(** [c.lower()] on one ASCII character. *)
Definition lower_ascii (c : ascii) : ascii :=
  let n := nat_of_ascii c in
  if (Nat.leb 65 n && Nat.leb n 90)%bool then ascii_of_nat (n + 32) else c.

(** [s.lower()]. *)
Fixpoint lower (s : string) : string :=
  match s with
  | EmptyString => EmptyString
  | String c s' => String (lower_ascii c) (lower s')
  end.

Definition is_digit_ascii (c : ascii) : bool :=
  let n := nat_of_ascii c in (Nat.leb 48 n && Nat.leb n 57)%bool.

Fixpoint all_digits (s : string) : bool :=
  match s with
  | EmptyString => true
  | String c s' => (is_digit_ascii c && all_digits s')%bool
  end.

(** [s.isdigit()]: every character is a digit and there is at least one. *)
Definition isdigit (s : string) : bool :=
  match s with
  | EmptyString => false
  | _ => all_digits s
  end.

(** [len(s)] as a Python int. *)
Definition len_str (s : string) : Z := Z.of_nat (String.length s).

(** [kw in s] on strings: substring containment. *)
Fixpoint contains (kw s : string) : bool :=
  (String.prefix kw s ||
   match s with
   | EmptyString => false
   | String _ s' => contains kw s'
   end)%bool.

(** [l[:n]] for a Python int [n]: a negative bound counts from the end. *)
Definition slice_to {A} (n : Z) (l : list A) : list A :=
  if Z.leb 0 n then take (Z.to_nat n) l
  else take (Z.to_nat (Z.of_nat (length l) + n)) l.

(** [sum(l)] on ints. *)
Definition sum (l : list Z) : Z := foldr Z.add 0 l.

(** [len(l)] as a Python int. *)
Definition len {A} (l : list A) : Z := Z.of_nat (length l).

(** A Python number: the engagement dictionaries mix ints and floats. *)
Inductive num : Type :=
| Int (z : Z)
| Float (q : Q).

(** [a / b] on ints with [b > 0] (true division). *)
Definition truediv (a b : Z) : Q := Qmake a (Z.to_pos b).

(** [int(x)]: identity on ints, truncation toward zero on floats. *)
Definition int (x : num) : Z :=
  match x with
  | Int z => z
  | Float q => Z.quot (Qnum q) (Zpos (Qden q))
  end.

(** [float(x)]. *)
Definition float (x : num) : Q :=
  match x with
  | Int z => inject_Z z
  | Float q => q
  end.

(** The real value of a number, for comparisons. *)
Definition value (x : num) : Q := float x.

(** Sequencing of calls that may raise: the first exception ends the
    computation. *)
#[export] Instance result_bind : MBind result := fun A B f outcome =>
  match outcome with
  | Returned a => f a
  | Raised msg => Raised msg
  end.

(** [d[key]] on a dictionary entry that may be missing; [str] of the
    [KeyError] is the quoted key. *)
Definition item {A} (key : string) (entry : option A) : result A :=
  match entry with
  | Some v => Returned v
  | None => Raised ("'" +:+ key +:+ "'")
  end.

(** A number as a caller may hand it over: an int, a finite float, or one
    of the floats [inf], [-inf] and [nan]. *)
Inductive number : Type :=
| Finite (x : num)
| Infinity (negative : bool)
| NaN.

(** The operand [int(x)] accepts: it raises [OverflowError] on an infinity
    and [ValueError] on [nan]. *)
Definition int_operand (x : number) : result num :=
  match x with
  | Finite x => Returned x
  | Infinity _ => Raised "cannot convert float infinity to integer"
  | NaN => Raised "cannot convert float NaN to integer"
  end.

(** The least positive int that [float(...)] refuses: an int of this
    magnitude or more would round to an infinity. *)
Definition FLOAT_OVERFLOW : Z := 2 ^ 1024 - 2 ^ 970.

(** [float(x)] with its [OverflowError]; the float it returns is kept
    exact. *)
Definition float_of (x : num) : result Q :=
  match x with
  | Int z =>
      if Z.ltb (Z.abs z) FLOAT_OVERFLOW then Returned (inject_Z z)
      else Raised "int too large to convert to float"
  | Float q => Returned q
  end.

End Py.

Import Py.

(* ===================================================================== *)
(** ** Categorizer *)
(* ===================================================================== *)

(** [HASHTAG_CATEGORIES], in declaration order. *)
Definition HASHTAG_CATEGORIES : list (string * list string) :=
  [ ("fashion", ["fashion"; "style"; "ootd"; "outfit"; "fashionista"; "stylish";
                 "beauty"; "makeup"; "clothing"; "dress"; "shoes"; "accessories"]);
    ("fitness", ["fitness"; "gym"; "workout"; "health"; "fit"; "exercise";
                 "training"; "muscle"; "bodybuilding"; "yoga"; "running"; "cycling"]);
    ("food", ["food"; "foodie"; "cooking"; "recipe"; "delicious"; "yummy";
              "instafood"; "foodporn"; "chef"; "restaurant"; "dinner"; "lunch";
              "breakfast"]);
    ("travel", ["travel"; "wanderlust"; "vacation"; "adventure"; "explore"; "trip";
                "tourism"; "beach"; "nature"; "mountains"; "travelgram"]);
    ("technology", ["tech"; "technology"; "gadget"; "innovation"; "digital";
                    "coding"; "programming"; "ai"; "software"; "hardware"; "app"]);
    ("business", ["business"; "entrepreneur"; "startup"; "marketing"; "finance";
                  "investing"; "money"; "success"; "motivation"; "hustle"]);
    ("entertainment", ["entertainment"; "movie"; "music"; "celebrity"; "artist";
                       "actor"; "singer"; "concert"; "film"; "show"; "viral";
                       "trending"; "funny"; "meme"]);
    ("lifestyle", ["lifestyle"; "life"; "happy"; "love"; "instagood";
                   "photooftheday"; "picoftheday"; "instagram"; "insta"; "daily";
                   "inspiration"]);
    ("photography", ["photography"; "photo"; "photographer"; "camera"; "portrait";
                     "landscape"; "art"; "creative"; "photoshoot"]);
    ("sports", ["sports"; "football"; "soccer"; "basketball"; "cricket"; "tennis";
                "athlete"; "game"; "player"; "team"; "championship"]) ].

(** Inner loop of [categorize_hashtag]: does some keyword occur in the
    lowercased tag? *)
Fixpoint any_keyword_in (keywords : list string) (hashtag_lower : string) : bool :=
  match keywords with
  | [] => false
  | keyword :: rest =>
      if contains keyword hashtag_lower then true
      else any_keyword_in rest hashtag_lower
  end.

(** Outer loop: the first category with a hit returns. *)
Fixpoint scan_categories (table : list (string * list string))
    (hashtag_lower : string) : option string :=
  match table with
  | [] => None
  | (category, keywords) :: rest =>
      if any_keyword_in keywords hashtag_lower then Some category
      else scan_categories rest hashtag_lower
  end.

Definition categorize_hashtag (hashtag : string) : string :=
  let hashtag_lower := lower hashtag in
  match scan_categories HASHTAG_CATEGORIES hashtag_lower with
  | Some category => category
  | None => "general"
  end.

(* ===================================================================== *)
(** ** Configuration *)
(* ===================================================================== *)

(** The numeric settings of [Config]; each is [int(os.getenv(...))], so any
    integer can occur. *)
Record Config : Type := {
  SCROLL_COUNT : Z;
  POSTS_TO_SCAN : Z;
  MIN_HASHTAG_FREQUENCY : Z;
  TOP_HASHTAGS_TO_SAVE : Z;
  POSTS_PER_HASHTAG : Z
}.

(** The defaults used when the environment sets nothing. *)
Definition default_config : Config :=
  {| SCROLL_COUNT := 15; POSTS_TO_SCAN := 400; MIN_HASHTAG_FREQUENCY := 1;
     TOP_HASHTAGS_TO_SAVE := 10; POSTS_PER_HASHTAG := 3 |}.

(* ===================================================================== *)
(** ** Discovery collector *)
(* ===================================================================== *)

(** What the page yields for one post link: the [alt] attribute of its
    image (possibly missing) and its [href]. *)
Record PostLink : Type := {
  alt : option string;
  href : string
}.

(** One element of the list returned by [discover_trending_hashtags]. *)
Record HashtagData : Type := {
  hashtag : string;
  frequency : Z;
  posts_count : Z;
  sample_posts : list string;
  category : string
}.

(** [\w] on ASCII: letters, digits and the underscore. *)
Definition is_word_ascii (c : ascii) : bool :=
  let n := nat_of_ascii c in
  ((Nat.leb 48 n && Nat.leb n 57) || (Nat.leb 65 n && Nat.leb n 90) ||
   (Nat.leb 97 n && Nat.leb n 122) || Nat.eqb n 95)%bool.

Definition is_hash (c : ascii) : bool := Nat.eqb (nat_of_ascii c) 35.

(** Close the run collected after a [#]: an empty run is no match. *)
Definition emit_run (cur : option string) : list string :=
  match cur with
  | Some (String c w) => [String c w]
  | _ => []
  end.

(** [re.findall(r'#(\w+)', text)] as a left-to-right scan. [cur] is the run
    of word characters collected since the last [#], if a [#] is pending. *)
Fixpoint scan_hashtags (text : string) (cur : option string) : list string :=
  match text with
  | EmptyString => emit_run cur
  | String c rest =>
      match cur with
      | Some w =>
          if is_word_ascii c then scan_hashtags rest (Some (w +:+ String c EmptyString))
          else emit_run cur ++
               scan_hashtags rest (if is_hash c then Some EmptyString else None)
      | None =>
          scan_hashtags rest (if is_hash c then Some EmptyString else None)
      end
  end.

Definition findall_hashtags (alt_text : string) : list string :=
  scan_hashtags alt_text None.

(** The filter applied to each raw tag before it is tallied:
    [3 <= len(tag) <= 30 and not tag.isdigit()]. *)
Definition tag_accepted (tag : string) : bool :=
  (Z.leb 3 (len_str tag) && Z.leb (len_str tag) 30 && negb (isdigit tag))%bool.

(** [Counter]: keys in first-insertion order. *)
Definition Counter : Type := list (string * Z).

(** [counter[key]]: a missing key counts 0. *)
Fixpoint counter_get (counter : Counter) (key : string) : Z :=
  match counter with
  | [] => 0
  | (k, n) :: rest => if String.eqb k key then n else counter_get rest key
  end.

(** [counter[key] = v]: an existing key keeps its position, a new key goes
    to the end. *)
Fixpoint counter_set (counter : Counter) (key : string) (v : Z) : Counter :=
  match counter with
  | [] => [(key, v)]
  | (k, n) :: rest =>
      if String.eqb k key then (k, v) :: rest
      else (k, n) :: counter_set rest key v
  end.

(** [counter[key] += 1]. *)
Definition counter_incr (counter : Counter) (key : string) : Counter :=
  counter_set counter key (counter_get counter key + 1).

(** State of the tally loop: [hashtag_counter] and [post_hashtags_map]. *)
Definition Tally : Type := Counter * gmap string (list string).

Definition empty_tally : Tally := ([], ∅).

(** Body of [for tag in hashtags]. *)
Definition tally_tag (post_url : string) (st : Tally) (tag : string) : Tally :=
  if tag_accepted tag then
    let normalized_tag := lower tag in
    let hashtag_counter := counter_incr st.1 normalized_tag in
    let posts := default [] (st.2 !! normalized_tag) in
    (hashtag_counter, <[normalized_tag := posts ++ [post_url]]> st.2)
  else st.

Definition tally_tags (post_url : string) (hashtags : list string) (st : Tally) : Tally :=
  foldl (tally_tag post_url) st hashtags.

(** Body of [for idx, post_link in enumerate(post_links, 1)]: a post whose
    attributes cannot be read raises and is skipped. *)
Definition tally_post (st : Tally) (post_link : result PostLink) : Tally :=
  match post_link with
  | Returned pl =>
      let alt_text := default EmptyString (alt pl) in
      tally_tags (href pl) (findall_hashtags alt_text) st
  | Raised _ => st
  end.

Definition tally_posts (post_links : list (result PostLink)) : Tally :=
  foldl tally_post empty_tally post_links.

(** Insert [x] into a list sorted by descending count, before every entry
    whose count is not larger. *)
Fixpoint insert_desc (x : string * Z) (l : list (string * Z)) : list (string * Z) :=
  match l with
  | [] => [x]
  | y :: l' => if Z.ltb x.2 y.2 then y :: insert_desc x l' else x :: y :: l'
  end.

(** [counter.most_common()], that is
    [sorted(counter.items(), key=itemgetter(1), reverse=True)]: a stable sort
    by descending count. A stable sort has one possible result, computed
    here by insertion. *)
Definition most_common (counter : Counter) : list (string * Z) :=
  foldr insert_desc [] counter.

(** [[tag for tag, count in most_common() if count >= MIN][:TOP]]. *)
Definition top_hashtags_of (cfg : Config) (counter : Counter) : list string :=
  slice_to (TOP_HASHTAGS_TO_SAVE cfg)
    (map fst (List.filter (fun tc => Z.leb (MIN_HASHTAG_FREQUENCY cfg) tc.2)
                          (most_common counter))).

(** Body of [for tag in top_hashtags]; [post_hashtags_map[tag]] raises
    [KeyError] on a missing key. *)
Definition build_entry (cfg : Config) (st : Tally) (tag : string) : result HashtagData :=
  let frequency := counter_get st.1 tag in
  match st.2 !! tag with
  | None => Raised "KeyError"
  | Some posts_using =>
      Returned {| hashtag := tag;
                  frequency := frequency;
                  posts_count := len posts_using;
                  sample_posts := slice_to (POSTS_PER_HASHTAG cfg) posts_using;
                  category := categorize_hashtag tag |}
  end.

Fixpoint build_entries (cfg : Config) (st : Tally) (tags : list string)
    : result (list HashtagData) :=
  match tags with
  | [] => Returned []
  | tag :: rest =>
      match build_entry cfg st tag with
      | Raised e => Raised e
      | Returned d =>
          match build_entries cfg st rest with
          | Raised e => Raised e
          | Returned ds => Returned (d :: ds)
          end
      end
  end.

(** [discover_trending_hashtags]. [explore] is what the explore page
    delivers: [Raised] when navigation or the wait for posts fails, else the
    post links found. Any exception ends in [return []]. *)
Definition discover_trending_hashtags (cfg : Config)
    (explore : result (list (result PostLink))) : list HashtagData :=
  match explore with
  | Raised _ => []
  | Returned all_links =>
      let post_links := slice_to (POSTS_TO_SCAN cfg) all_links in
      let st := tally_posts post_links in
      let top_hashtags := top_hashtags_of cfg st.1 in
      match top_hashtags with
      | [] => []
      | _ =>
          match build_entries cfg st top_hashtags with
          | Returned hashtag_data => hashtag_data
          | Raised _ => []
          end
      end
  end.

(* ===================================================================== *)
(** ** Engagement aggregator *)
(* ===================================================================== *)

(** The dictionary returned by [get_post_engagement]. *)
Record PostEngagement : Type := {
  pe_likes : Z;
  pe_comments : Z;
  pe_views : Z;
  pe_total_engagement : Z;
  pe_is_video : bool
}.

(** The dictionary returned by [analyze_hashtag_engagement]. *)
Record EngagementData : Type := {
  avg_likes : num;
  avg_comments : num;
  avg_engagement : num;
  avg_views : num;
  total_engagement : Z;
  total_views : num;
  video_count : Z
}.

(** Instants of [datetime]; [isoformat()] only renders them, so rows keep
    the instant itself. *)
Definition datetime : Type := Z.

(** What [analyze_hashtag_engagement] and the save loop call besides the
    store; each call may change the state [R] of page, random source and
    clock.
    - [get_post_engagement post_url]: the per-post metric extraction. The
      function of that name in [main.py] is [Scraper.get_post_engagement]
      below, which always returns; here any extraction is admitted, also
      one that raises, and the caller's [except] branch is kept.
    - [back_to_explore]: [page.goto(explore)] and the pause after it, between
      two sample posts; an exception of the navigation is swallowed by the
      loop's handler and only the state changes.
    - [random_uniform a b]: [random.uniform(a, b)].
    - [utcnow]: [datetime.utcnow()]. *)
Class Runtime (R : Type) : Type := {
  get_post_engagement : string -> R -> result PostEngagement * R;
  back_to_explore : R -> R;
  random_uniform : Z -> Z -> R -> Q * R;
  utcnow : R -> datetime * R
}.

(** The accumulators of the sampling loop. *)
Record Samples : Type := {
  all_likes : list Z;
  all_comments : list Z;
  all_engagement : list Z;
  all_views : list Z;
  seen_videos : Z
}.

Definition no_samples : Samples :=
  {| all_likes := []; all_comments := []; all_engagement := [];
     all_views := []; seen_videos := 0 |}.

(** The statements of the [try] block once [get_post_engagement] returned. *)
Definition record_sample (acc : Samples) (engagement : PostEngagement) : Samples :=
  {| all_likes := all_likes acc ++ [pe_likes engagement];
     all_comments := all_comments acc ++ [pe_comments engagement];
     all_engagement := all_engagement acc ++ [pe_total_engagement engagement];
     all_views :=
       if pe_is_video engagement then all_views acc ++ [pe_views engagement]
       else all_views acc;
     seen_videos :=
       if pe_is_video engagement then seen_videos acc + 1 else seen_videos acc |}.

(** [if idx < len(sample_posts)]: the page goes back to the explore page
    unless the post was the last one. *)
Definition leave_post `{Runtime R} (rest : list string) (r : R) : R :=
  match rest with
  | [] => r
  | _ :: _ => back_to_explore r
  end.

(** [for idx, post_url in enumerate(sample_posts, 1)]: a fetch that raises
    is reported and the loop continues. *)
Fixpoint sample_loop `{Runtime R} (sample_posts : list string) (acc : Samples) (r : R)
    : Samples * R :=
  match sample_posts with
  | [] => (acc, r)
  | post_url :: rest =>
      let '(outcome, r1) := get_post_engagement post_url r in
      match outcome with
      | Returned engagement =>
          sample_loop rest (record_sample acc engagement) (leave_post rest r1)
      | Raised _ => sample_loop rest acc r1
      end
  end.

(** The dictionary of the branch [if not sample_posts]. *)
Definition estimate_without_posts (hashtag_data : HashtagData)
    (sample_posts : list string) : EngagementData :=
  {| avg_likes := Int (frequency hashtag_data * 1000);
     avg_comments := Int (frequency hashtag_data * 50);
     avg_engagement := Int (frequency hashtag_data * 1050);
     avg_views := Int (frequency hashtag_data * 20000);
     total_engagement :=
       match sample_posts with
       | [] => 0
       | _ => frequency hashtag_data * 1050 * len sample_posts
       end;
     total_views := Int (frequency hashtag_data * 20000);
     video_count := 0 |}.

(** The dictionary of the branch [if not all_engagement]. *)
Definition estimate_without_fetches (hashtag_data : HashtagData) : EngagementData :=
  {| avg_likes := Int (frequency hashtag_data * 1000);
     avg_comments := Int (frequency hashtag_data * 50);
     avg_engagement := Int (frequency hashtag_data * 1050);
     avg_views := Int (frequency hashtag_data * 20000);
     total_engagement := frequency hashtag_data * 1050;
     total_views := Int (frequency hashtag_data * 20000);
     video_count := 0 |}.

(** The tail of [analyze_hashtag_engagement], after the sampling loop found
    at least one engagement. *)
Definition summarize `{Runtime R} (sample_posts : list string) (acc : Samples) (r : R)
    : EngagementData * R :=
  let mean l := truediv (sum l) (len l) in
  let '(views_avg, views_total, r1) :=
    match all_views acc with
    | [] =>
        let avg_engagement := mean (all_engagement acc) in
        let '(factor, r1) := random_uniform 15 25 r in
        let avg_views := Qmult avg_engagement factor in
        (Float avg_views, Float (Qmult avg_views (inject_Z (len sample_posts))), r1)
    | _ => (Float (mean (all_views acc)), Int (sum (all_views acc)), r)
    end in
  ({| avg_likes := Float (mean (all_likes acc));
      avg_comments := Float (mean (all_comments acc));
      avg_engagement := Float (mean (all_engagement acc));
      avg_views := views_avg;
      total_engagement := sum (all_engagement acc);
      total_views := views_total;
      video_count := seen_videos acc |}, r1).

Definition analyze_hashtag_engagement `{Runtime R} (cfg : Config)
    (hashtag_data : HashtagData) (r : R) : EngagementData * R :=
  let sample_posts := slice_to (POSTS_PER_HASHTAG cfg) (sample_posts hashtag_data) in
  match sample_posts with
  | [] => (estimate_without_posts hashtag_data sample_posts, r)
  | _ =>
      let '(acc, r1) := sample_loop sample_posts no_samples r in
      match all_engagement acc with
      | [] => (estimate_without_fetches hashtag_data, r1)
      | _ => summarize sample_posts acc r1
      end
  end.

(* ===================================================================== *)
(** ** Per-post metric extraction *)
(* ===================================================================== *)

Definition INSTAGRAM_EXPLORE_URL : string := "https://www.instagram.com/explore/".
Definition INSTAGRAM_BASE_URL : string := "https://www.instagram.com".
Definition DELAY_POST_LOAD_MIN : Z := 2.
Definition DELAY_POST_LOAD_MAX : Z := 3.

(** The page, the [random] module and the clock as the scraper drives them;
    every call may change their state [R].
    - [goto url]: [page.goto(url, ...)], which may raise.
    - [locator_count selector]: [page.locator(selector).count()], which may
      raise.
    - [shown_views]: what the scan of the view texts (the [try] block after
      [if engagement_data['is_video']]) leaves in [engagement_data['views']].
      The block reads the texts of the matching elements, stores the number
      it parses from them and swallows every exception, so it ends with an
      int, 0 when nothing was found.
    - [shown_likes]: the same for the scan of the like texts and
      [engagement_data['likes']].
    - [uniform a b], [randint a b]: [random.uniform(a, b)],
      [random.randint(a, b)].
    - [read_clock]: [datetime.utcnow()]. *)
Class Browser (R : Type) : Type := {
  goto : string -> R -> result unit * R;
  locator_count : string -> R -> result Z * R;
  shown_views : R -> Z * R;
  shown_likes : R -> Z * R;
  uniform : Z -> Z -> R -> Q * R;
  randint : Z -> Z -> R -> Z * R;
  read_clock : R -> datetime * R
}.

Module Scraper.

(** The dictionary of the outer [except] branch: four draws. *)
Definition random_engagement `{Browser R} (r : R) : PostEngagement * R :=
  let '(likes, r1) := randint 500 8000 r in
  let '(comments, r2) := randint 20 300 r1 in
  let '(views, r3) := randint 10000 100000 r2 in
  let '(total_engagement, r4) := randint 520 8300 r3 in
  ({| pe_likes := likes; pe_comments := comments; pe_views := views;
      pe_total_engagement := total_engagement; pe_is_video := false |}, r4).

(** The first [try] block: a video element or a play button makes the post
    a video; an exception leaves [is_video] at [False]. *)
Definition detect_video `{Browser R} (r : R) : bool * R :=
  let '(video_elements, r1) := locator_count "video" r in
  match video_elements with
  | Raised _ => (false, r1)
  | Returned video_elements =>
      let '(play_button, r2) := locator_count "svg[aria-label='Play']" r1 in
      match play_button with
      | Raised _ => (false, r2)
      | Returned play_button =>
          ((Z.ltb 0 video_elements || Z.ltb 0 play_button)%bool, r2)
      end
  end.

(** The [try] block that counts the visible comments. *)
Definition count_comments `{Browser R} (r : R) : Z * R :=
  let '(comment_elements, r1) := locator_count "ul li[role='menuitem']" r in
  match comment_elements with
  | Raised _ => (0, r1)
  | Returned comment_elements =>
      (if Z.ltb 0 comment_elements then comment_elements else 0, r1)
  end.

(** [get_post_engagement(page, post_url)]. The function never raises: when
    the navigation fails the outer handler answers with random values. *)
Definition get_post_engagement `{Browser R} (post_url : string) (r : R)
    : PostEngagement * R :=
  let full_url :=
    if String.prefix "http" post_url then post_url
    else INSTAGRAM_BASE_URL +:+ post_url in
  let '(loaded, r1) := goto full_url r in
  match loaded with
  | Raised _ => random_engagement r1
  | Returned _ =>
      let '(_, r2) := uniform DELAY_POST_LOAD_MIN DELAY_POST_LOAD_MAX r1 in
      let '(is_video, r3) := detect_video r2 in
      let '(views, r4) := if is_video then shown_views r3 else (0, r3) in
      let '(likes, r5) := shown_likes r4 in
      let '(comments, r6) := count_comments r5 in
      let '(likes, comments, r8) :=
        if Z.eqb likes 0 then
          let '(likes, r7) := randint 500 8000 r6 in
          let '(comments, r8) := randint 20 300 r7 in
          (likes, comments, r8)
        else (likes, comments, r6) in
      let '(views, r9) :=
        if (is_video && Z.eqb views 0)%bool then
          let total_eng := likes + comments in
          let '(factor, r9) := uniform 15 25 r8 in
          (int (Float (Qmult (inject_Z total_eng) factor)), r9)
        else (views, r8) in
      ({| pe_likes := likes; pe_comments := comments; pe_views := views;
          pe_total_engagement := likes + comments; pe_is_video := is_video |}, r9)
  end.

End Scraper.

(** The collaborators of a run that scrapes through a browser: the fetch is
    [Scraper.get_post_engagement]. *)
Definition browser_runtime {R : Type} (browser : Browser R) : Runtime R := {|
  get_post_engagement post_url r :=
    let '(engagement, r1) := @Scraper.get_post_engagement R browser post_url r in
    (Returned engagement, r1);
  back_to_explore r :=
    match @goto R browser INSTAGRAM_EXPLORE_URL r with
    | (Returned _, r1) => (@uniform R browser 1 2 r1).2
    | (Raised _, r1) => r1
    end;
  random_uniform := @uniform R browser;
  utcnow := @read_clock R browser
|}.

(* ===================================================================== *)
(** ** Trend record builder *)
(* ===================================================================== *)

Definition DEFAULT_LANGUAGE : string := "en".
Definition PLATFORM_NAME : string := "Instagram".

(** The [raw_blob] dictionary of a record. *)
Record RawBlob : Type := {
  rb_category : string;
  rb_frequency : Z;
  rb_posts_count : Z;
  rb_sample_posts : list string;
  rb_discovery_method : string;
  rb_avg_likes : num;
  rb_avg_comments : num;
  rb_total_engagement : Z;
  rb_total_views : num;
  rb_video_count : Z;
  rb_posts_analyzed : Z;
  rb_total_posts_scanned : Z;
  rb_scroll_count : Z;
  rb_min_frequency_threshold : Z;
  rb_discovered_at : datetime
}.

Record TrendRecord : Type := {
  platform : string;
  url : string;
  hashtags : list string;
  likes : Z;
  comments : Z;
  views : Z;
  language : string;
  timestamp : datetime;
  engagement_score : Q;
  version : string;
  raw_blob : RawBlob;
  first_seen : option datetime;
  last_seen : option datetime
}.

(** [TrendRecord.from_instagram_data] as the run calls it, on the
    dictionaries of the collector and the aggregator: these carry every key
    and finite numbers, so every lookup and [int(...)] returns; numbers are
    kept exact and unbounded, so [float(...)] returns as well.
    [from_instagram_data_on_dicts] below is the function on arbitrary
    dictionaries, with its exceptions. [now] is the answer of
    [datetime.utcnow()]. *)
Definition from_instagram_data (cfg : Config) (hashtag_data : HashtagData)
    (engagement_data : EngagementData) (version_id : string) (now : datetime)
    : TrendRecord :=
  {| platform := PLATFORM_NAME;
     url := INSTAGRAM_EXPLORE_URL +:+ "tags/" +:+ hashtag hashtag_data +:+ "/";
     hashtags := ["#" +:+ hashtag hashtag_data];
     likes := int (avg_likes engagement_data);
     comments := int (avg_comments engagement_data);
     views := int (avg_views engagement_data);
     language := DEFAULT_LANGUAGE;
     timestamp := now;
     engagement_score := float (avg_engagement engagement_data);
     version := version_id;
     raw_blob :=
       {| rb_category := category hashtag_data;
          rb_frequency := frequency hashtag_data;
          rb_posts_count := posts_count hashtag_data;
          rb_sample_posts := sample_posts hashtag_data;
          rb_discovery_method := "explore_page";
          rb_avg_likes := avg_likes engagement_data;
          rb_avg_comments := avg_comments engagement_data;
          rb_total_engagement := total_engagement engagement_data;
          rb_total_views := total_views engagement_data;
          rb_video_count := video_count engagement_data;
          rb_posts_analyzed := POSTS_PER_HASHTAG cfg;
          rb_total_posts_scanned := POSTS_TO_SCAN cfg;
          rb_scroll_count := SCROLL_COUNT cfg;
          rb_min_frequency_threshold := MIN_HASHTAG_FREQUENCY cfg;
          rb_discovered_at := now |};
     first_seen := Some now;
     last_seen := Some now |}.

(** The two dictionaries as an arbitrary caller may pass them: a key may be
    missing, and the averages that go through [int(...)] may be floats that
    are not finite. Under its key an entry has the type the collector and
    the aggregator give it. *)
Record HashtagDict : Type := {
  hd_hashtag : option string;
  hd_category : option string;
  hd_frequency : option Z;
  hd_posts_count : option Z;
  hd_sample_posts : option (list string)
}.

Record EngagementDict : Type := {
  ed_avg_likes : option number;
  ed_avg_comments : option number;
  ed_avg_views : option number;
  ed_avg_engagement : option num;
  ed_total_engagement : option Z;
  ed_total_views : option num;
  ed_video_count : option Z
}.

(** [TrendRecord.from_instagram_data] on such dictionaries. The keyword
    arguments are evaluated in the order they are written, so the first
    lookup or conversion that raises decides the exception; only
    [video_count] is read with a default. *)
Definition from_instagram_data_on_dicts (cfg : Config) (hashtag_data : HashtagDict)
    (engagement_data : EngagementDict) (version_id : string) (now : datetime)
    : result TrendRecord :=
  hashtag ← item "hashtag" (hd_hashtag hashtag_data);
  avg_likes ← item "avg_likes" (ed_avg_likes engagement_data) ≫= int_operand;
  avg_comments ← item "avg_comments" (ed_avg_comments engagement_data) ≫= int_operand;
  avg_views ← item "avg_views" (ed_avg_views engagement_data) ≫= int_operand;
  engagement_score ←
    item "avg_engagement" (ed_avg_engagement engagement_data) ≫= float_of;
  category ← item "category" (hd_category hashtag_data);
  frequency ← item "frequency" (hd_frequency hashtag_data);
  posts_count ← item "posts_count" (hd_posts_count hashtag_data);
  sample_posts ← item "sample_posts" (hd_sample_posts hashtag_data);
  total_engagement ← item "total_engagement" (ed_total_engagement engagement_data);
  total_views ← item "total_views" (ed_total_views engagement_data);
  Returned
    {| platform := PLATFORM_NAME;
       url := INSTAGRAM_EXPLORE_URL +:+ "tags/" +:+ hashtag +:+ "/";
       hashtags := ["#" +:+ hashtag];
       likes := int avg_likes;
       comments := int avg_comments;
       views := int avg_views;
       language := DEFAULT_LANGUAGE;
       timestamp := now;
       engagement_score := engagement_score;
       version := version_id;
       raw_blob :=
         {| rb_category := category;
            rb_frequency := frequency;
            rb_posts_count := posts_count;
            rb_sample_posts := sample_posts;
            rb_discovery_method := "explore_page";
            rb_avg_likes := avg_likes;
            rb_avg_comments := avg_comments;
            rb_total_engagement := total_engagement;
            rb_total_views := total_views;
            rb_video_count := default 0 (ed_video_count engagement_data);
            rb_posts_analyzed := POSTS_PER_HASHTAG cfg;
            rb_total_posts_scanned := POSTS_TO_SCAN cfg;
            rb_scroll_count := SCROLL_COUNT cfg;
            rb_min_frequency_threshold := MIN_HASHTAG_FREQUENCY cfg;
            rb_discovered_at := now |};
       first_seen := Some now;
       last_seen := Some now |}.

(** The dictionary literal of [discover_trending_hashtags] and the ones of
    [analyze_hashtag_engagement]: every key is set. *)
Definition hashtag_dict (hashtag_data : HashtagData) : HashtagDict :=
  {| hd_hashtag := Some (hashtag hashtag_data);
     hd_category := Some (category hashtag_data);
     hd_frequency := Some (frequency hashtag_data);
     hd_posts_count := Some (posts_count hashtag_data);
     hd_sample_posts := Some (sample_posts hashtag_data) |}.

Definition engagement_dict (engagement_data : EngagementData) : EngagementDict :=
  {| ed_avg_likes := Some (Finite (avg_likes engagement_data));
     ed_avg_comments := Some (Finite (avg_comments engagement_data));
     ed_avg_views := Some (Finite (avg_views engagement_data));
     ed_avg_engagement := Some (avg_engagement engagement_data);
     ed_total_engagement := Some (total_engagement engagement_data);
     ed_total_views := Some (total_views engagement_data);
     ed_video_count := Some (video_count engagement_data) |}.

(* ===================================================================== *)
(** ** Upsert writer *)
(* ===================================================================== *)

(** The [metadata] column as written by [save_to_supabase]. *)
Record Metadata : Type := {
  md_url : string;
  md_hashtags : list string;
  md_likes : Z;
  md_comments : Z;
  md_language : string;
  md_timestamp : datetime;
  md_version : string;
  md_first_seen : option datetime;
  md_last_seen : option datetime;
  md_raw_blob : RawBlob
}.

(** A row of the [instagram] table (the columns the scraper writes). *)
Record Row : Type := {
  row_platform : string;
  topic_hashtag : string;
  row_engagement_score : Q;
  sentiment_polarity : Q;
  sentiment_label : string;
  posts : Z;
  row_views : Z;
  metadata : Metadata;
  scraped_at : datetime;
  version_id : string
}.

(** The dictionary passed to [update(...)]: the six columns it names. *)
Record RowUpdate : Type := {
  upd_engagement_score : Q;
  upd_posts : Z;
  upd_views : Z;
  upd_metadata : Metadata;
  upd_scraped_at : datetime;
  upd_version_id : string
}.

(** The Supabase client, restricted to the three requests the writer sends
    to table [instagram]; each yields the response's [data] or raises.
    - [select_eq key]: [select('*').eq('topic_hashtag', key).execute()]
    - [update_eq u key]: [update(u).eq('topic_hashtag', key).execute()]
    - [insert_row row]: [insert(row).execute()] *)
Class Supabase (S : Type) : Type := {
  select_eq : string -> S -> result (list Row) * S;
  update_eq : RowUpdate -> string -> S -> result (list Row) * S;
  insert_row : Row -> S -> result (list Row) * S
}.

(** The [payload] dictionary built for the record, keyed by [key]. *)
Definition payload_of (trend_record : TrendRecord) (key : string) : Row :=
  {| row_platform := platform trend_record;
     topic_hashtag := key;
     row_engagement_score := engagement_score trend_record;
     sentiment_polarity := 0;
     sentiment_label := "neutral";
     posts := rb_posts_count (raw_blob trend_record);
     row_views := views trend_record;
     metadata :=
       {| md_url := url trend_record;
          md_hashtags := hashtags trend_record;
          md_likes := likes trend_record;
          md_comments := comments trend_record;
          md_language := language trend_record;
          md_timestamp := timestamp trend_record;
          md_version := version trend_record;
          md_first_seen := first_seen trend_record;
          md_last_seen := last_seen trend_record;
          md_raw_blob := raw_blob trend_record |};
     scraped_at := timestamp trend_record;
     version_id := version trend_record |}.

(** The dictionary of the update branch, taken from the payload. *)
Definition update_of (payload : Row) : RowUpdate :=
  {| upd_engagement_score := row_engagement_score payload;
     upd_posts := posts payload;
     upd_views := row_views payload;
     upd_metadata := metadata payload;
     upd_scraped_at := scraped_at payload;
     upd_version_id := version_id payload |}.

(** Truth value of a response's [data]. *)
Definition has_data {A} (data : list A) : bool :=
  match data with [] => false | _ => true end.

(** [save_to_supabase]. With an empty [hashtags] list the first statement
    raises [IndexError] and so does the handler's log line, which leaves the
    function; every other exception is turned into [False]. *)
Definition save_to_supabase {S : Type} `{!Supabase S} (trend_record : TrendRecord) (s : S)
    : result bool * S :=
  match hashtags trend_record with
  | [] => (Raised "list index out of range", s)
  | key :: _ =>
      let '(existing_trend, s1) := select_eq key s in
      match existing_trend with
      | Raised _ => (Returned false, s1)
      | Returned existing =>
          let payload := payload_of trend_record key in
          let '(result, s2) :=
            if has_data existing then update_eq (update_of payload) key s1
            else insert_row payload s1 in
          match result with
          | Raised _ => (Returned false, s2)
          | Returned data => (Returned (has_data data), s2)
          end
      end
  end.

(** *** Reference semantics of the table

    An in-memory table answering the three requests the way the hosted
    table does when it is reachable: a select returns the matching rows, an
    update rewrites the named columns of the matching rows and returns them,
    an insert appends the row and returns it. *)

Definition key_is (key : string) (row : Row) : bool := String.eqb (topic_hashtag row) key.

Definition apply_update (u : RowUpdate) (row : Row) : Row :=
  {| row_platform := row_platform row;
     topic_hashtag := topic_hashtag row;
     row_engagement_score := upd_engagement_score u;
     sentiment_polarity := sentiment_polarity row;
     sentiment_label := sentiment_label row;
     posts := upd_posts u;
     row_views := upd_views u;
     metadata := upd_metadata u;
     scraped_at := upd_scraped_at u;
     version_id := upd_version_id u |}.

Definition table_update (u : RowUpdate) (key : string) (rows : list Row) : list Row :=
  map (fun row => if key_is key row then apply_update u row else row) rows.

#[export] Instance table_store : Supabase (list Row) := {
  select_eq key rows := (Returned (List.filter (key_is key) rows), rows);
  update_eq u key rows :=
    let rows' := table_update u key rows in
    (Returned (List.filter (key_is key) rows'), rows');
  insert_row row rows := (Returned [row], rows ++ [row])
}.

(** A store that is out of reach: every request raises. *)
Definition unreachable_store : Supabase unit := {|
  select_eq _ s := (Raised "connection refused", s);
  update_eq _ _ s := (Raised "connection refused", s);
  insert_row _ s := (Raised "connection refused", s)
|}.

(** A store wrapped so that writes for the keys in [rejected] raise (a
    constraint violation on those rows); everything else is passed on. *)
Definition rejecting {S : Type} (base : Supabase S) (rejected : list string) : Supabase S := {|
  select_eq key s := @select_eq S base key s;
  update_eq u key s :=
    if bool_decide (key ∈ rejected) then (Raised "constraint violation", s)
    else @update_eq S base u key s;
  insert_row row s :=
    if bool_decide (topic_hashtag row ∈ rejected) then (Raised "constraint violation", s)
    else @insert_row S base row s
|}.

(** A store wrapped so that every request is logged before it is passed on. *)
Inductive Request : Type :=
| ReqSelect (key : string)
| ReqUpdate (u : RowUpdate) (key : string)
| ReqInsert (row : Row).

Definition request_key (req : Request) : string :=
  match req with
  | ReqSelect key => key
  | ReqUpdate _ key => key
  | ReqInsert row => topic_hashtag row
  end.

Definition logging {S : Type} (base : Supabase S) : Supabase (list Request * S) := {|
  select_eq key ls :=
    let '(out, s') := @select_eq S base key ls.2 in (out, (ls.1 ++ [ReqSelect key], s'));
  update_eq u key ls :=
    let '(out, s') := @update_eq S base u key ls.2 in (out, (ls.1 ++ [ReqUpdate u key], s'));
  insert_row row ls :=
    let '(out, s') := @insert_row S base row ls.2 in (out, (ls.1 ++ [ReqInsert row], s'))
|}.

(* ===================================================================== *)
(** ** Run orchestrator: the per-hashtag loop *)
(* ===================================================================== *)

(** The counters and lists of [save_trends_to_database]. *)
Record Report : Type := {
  successful : Z;
  failed : Z;
  saved_hashtags : list (HashtagData * EngagementData);
  errors : list (string * string)
}.

Definition empty_report : Report :=
  {| successful := 0; failed := 0; saved_hashtags := []; errors := [] |}.

Definition note_saved (rep : Report) (hd : HashtagData) (ed : EngagementData) : Report :=
  {| successful := successful rep + 1;
     failed := failed rep;
     saved_hashtags := saved_hashtags rep ++ [(hd, ed)];
     errors := errors rep |}.

Definition note_failed (rep : Report) (tag : string) (error_msg : string) : Report :=
  {| successful := successful rep;
     failed := failed rep + 1;
     saved_hashtags := saved_hashtags rep;
     errors := errors rep ++ [(tag, error_msg)] |}.

(** The first half of an iteration: analyse the hashtag and build its
    record. [VERSION_ID] is the run's global. *)
Definition prepare_record `{Runtime R} (cfg : Config) (VERSION_ID : string)
    (hashtag_data : HashtagData) (r : R) : EngagementData * TrendRecord * R :=
  let '(engagement_data, r1) := analyze_hashtag_engagement cfg hashtag_data r in
  let '(now, r2) := utcnow r1 in
  (engagement_data,
   from_instagram_data cfg hashtag_data engagement_data VERSION_ID now, r2).

(** One iteration of [for i, hashtag_data in enumerate(hashtag_data_list, 1)]:
    analyse, build, save, and account for the outcome. An exception leaving
    [save_to_supabase] lands in the [except] branch. The [try] block also
    covers the analysis, the printed summary and the builder; with numbers
    kept exact and unbounded these return on the dictionaries of a run (for
    the builder see [from_instagram_data_of_run]), so no exception of theirs
    is modelled. *)
Definition process_hashtag `{Runtime R} {S : Type} `{!Supabase S} (cfg : Config)
    (VERSION_ID : string) (st : Report * R * S) (hashtag_data : HashtagData)
    : Report * R * S :=
  let '(rep, r, s) := st in
  let '(engagement_data, trend_record, r2) :=
    prepare_record cfg VERSION_ID hashtag_data r in
  let '(success, s1) := save_to_supabase trend_record s in
  match success with
  | Returned true => (note_saved rep hashtag_data engagement_data, r2, s1)
  | Returned false => (note_failed rep (hashtag hashtag_data) "Database save failed", r2, s1)
  | Raised error_msg => (note_failed rep (hashtag hashtag_data) error_msg, r2, s1)
  end.

Definition save_trends_loop `{Runtime R} {S : Type} `{!Supabase S} (cfg : Config) (VERSION_ID : string)
    (hashtag_data_list : list HashtagData) (st : Report * R * S) : Report * R * S :=
  foldl (process_hashtag cfg VERSION_ID) st hashtag_data_list.

(** [save_trends_to_database]: the final report (the function returns its
    [saved_hashtags] and logs the two counters and the error list). *)
Definition save_trends_to_database `{Runtime R} {S : Type} `{!Supabase S} (cfg : Config)
    (VERSION_ID : string) (hashtag_data_list : list HashtagData) (r : R) (s : S)
    : Report * R * S :=
  save_trends_loop cfg VERSION_ID hashtag_data_list (empty_report, r, s).

(** A runtime whose answers are scripted: the page answers each fetch from
    a table of posts, the random source returns a fixed factor, and the
    clock advances by one per reading. *)
Record Script : Type := {
  page_posts : list (string * PostEngagement);
  factor : Q;
  clock : datetime
}.

Fixpoint lookup_post (posts : list (string * PostEngagement)) (post_url : string)
    : result PostEngagement :=
  match posts with
  | [] => Raised "Timeout"
  | (u, e) :: rest => if String.eqb u post_url then Returned e else lookup_post rest post_url
  end.

#[export] Instance scripted_runtime : Runtime Script := {
  get_post_engagement post_url sc := (lookup_post (page_posts sc) post_url, sc);
  back_to_explore sc := sc;
  random_uniform _ _ sc := (factor sc, sc);
  utcnow sc :=
    (clock sc, {| page_posts := page_posts sc; factor := factor sc; clock := clock sc + 1 |})
}.

(* ===================================================================== *)
(** ** Configuration check *)
(* ===================================================================== *)

(** The string settings of [Config] that [validate] reads. *)
Record Credentials : Type := {
  USERNAME : string;
  PASSWORD : string;
  SUPABASE_URL : string;
  SUPABASE_KEY : string
}.

(** Truth value of a string: only the empty one is false. *)
Definition nonblank (s : string) : bool :=
  match s with EmptyString => false | _ => true end.

(** [Config.validate]. *)
Definition validate (creds : Credentials) (cfg : Config) : bool :=
  if (negb (nonblank (USERNAME creds)) || negb (nonblank (PASSWORD creds)))%bool then false
  else if (negb (nonblank (SUPABASE_URL creds)) || negb (nonblank (SUPABASE_KEY creds)))%bool
  then false
  else if (Z.ltb (SCROLL_COUNT cfg) 1 || Z.ltb (POSTS_TO_SCAN cfg) 1)%bool then false
  else true.

(* ===================================================================== *)
(** ** Lifecycle update *)
(* ===================================================================== *)

(** What [update_trend_lifecycle] logs. *)
Inductive LifecycleOutcome : Type :=
| LifecycleUpdated
| LifecycleNotFound
| LifecycleError.

(** The three columns named by the update of [update_trend_lifecycle],
    applied to a row. *)
Definition set_lifecycle (version : string) (now : datetime) (md : Metadata) (row : Row)
    : Row :=
  {| row_platform := row_platform row;
     topic_hashtag := topic_hashtag row;
     row_engagement_score := row_engagement_score row;
     sentiment_polarity := sentiment_polarity row;
     sentiment_label := sentiment_label row;
     posts := posts row;
     row_views := row_views row;
     metadata := md;
     scraped_at := now;
     version_id := version |}.

(** [update_trend_lifecycle] against the in-memory table. The [metadata]
    entry of the update is a conditional expression: a first select decides
    whether the key has rows; if so a second select supplies
    [data[0]['metadata']], else the entry is [{}]. An update carrying [{}]
    is therefore only sent when the key has no row, and then changes
    nothing. [now] is the answer of [datetime.utcnow()]. *)
Definition update_trend_lifecycle (hashtag version : string) (now : datetime)
    (rows : list Row) : LifecycleOutcome * list Row :=
  let key := "#" +:+ hashtag in
  match List.filter (key_is key) rows with
  | [] => (LifecycleNotFound, rows)
  | _ :: _ =>
      match List.filter (key_is key) rows with
      | [] => (LifecycleError, rows)
      | first :: _ =>
          let rows' :=
            map (fun row => if key_is key row
                            then set_lifecycle version now (metadata first) row
                            else row) rows in
          (if has_data (List.filter (key_is key) rows') then LifecycleUpdated
           else LifecycleNotFound, rows')
      end
  end.

(* ===================================================================== *)
(** ** Run orchestrator: one job *)
(* ===================================================================== *)

(** What the surroundings deliver to one job: the fresh [uuid4], whether
    the Supabase client could be created, whether the browser and its page
    could be started, whether [login_instagram] succeeded (it reports every
    failure as [False]), and what the explore page yields. *)
Record Session : Type := {
  uuid4 : string;
  client_created : bool;
  browser_started : bool;
  login_ok : bool;
  explore_page : result (list (result PostLink))
}.

(** [run_scraper_job]: the report of the save loop when the job gets that
    far, [None] when it ends before (by [return], or by the exception of a
    browser that does not start). [VERSION_ID] is set to the session's
    [uuid4] once the configuration is accepted. [r] is the state of page,
    random source and clock as the save loop finds it: the login and the
    discovery, which drive the page and draw random numbers before, enter
    through their outcomes in [session] only, so the [R] component of the
    result tells nothing when the job ends before the loop. Closing the
    browser in the [finally] block comes after everything modelled here. *)
Definition run_scraper_job `{Runtime R} {S : Type} `{!Supabase S} (creds : Credentials)
    (cfg : Config) (session : Session) (r : R) (s : S) : option Report * R * S :=
  if negb (validate creds cfg) then (None, r, s)
  else
    let VERSION_ID := uuid4 session in
    if negb (client_created session) then (None, r, s)
    else if negb (browser_started session) then (None, r, s)
    else if negb (login_ok session) then (None, r, s)
    else
      let hashtag_data := discover_trending_hashtags cfg (explore_page session) in
      match hashtag_data with
      | [] => (None, r, s)
      | _ :: _ =>
          let '(rep, r', s') := save_trends_to_database cfg VERSION_ID hashtag_data r s in
          (Some rep, r', s')
      end.

(** A runtime wrapped so that every fetched post URL is recorded before the
    fetch is passed on. *)
Definition recording {R : Type} (base : Runtime R) : Runtime (list string * R) := {|
  get_post_engagement post_url lr :=
    let '(out, r') := @get_post_engagement R base post_url lr.2 in
    (out, (lr.1 ++ [post_url], r'));
  back_to_explore lr := (lr.1, @back_to_explore R base lr.2);
  random_uniform a b lr :=
    let '(x, r') := @random_uniform R base a b lr.2 in (x, (lr.1, r'));
  utcnow lr :=
    let '(now, r') := @utcnow R base lr.2 in (now, (lr.1, r'))
|}.

(* ===================================================================== *)
(** * Specification vocabulary *)
(* ===================================================================== *)

(** [kw] occurs in [s] as a contiguous block. *)
Definition substring_of (kw s : string) : Prop :=
  exists a b, s = a +:+ kw +:+ b.

(** Some keyword of the table entry occurs in the lowercased tag. *)
Definition entry_matches (hashtag : string) (entry : string * list string) : Prop :=
  exists keyword, keyword ∈ entry.2 /\ substring_of keyword (lower hashtag).


Definition keys (counter : Counter) : list string := map fst counter.

(** Number of occurrences of [tag] in a stream of tags. *)
Definition occurrences (tag : string) (stream : list string) : Z :=
  len (List.filter (String.eqb tag) stream).

(** [t1] is met in the stream at a point where neither it nor [t2] has been
    met before: [t1] is first encountered before [t2]. *)
Definition first_before (stream : list string) (t1 t2 : string) : Prop :=
  exists pre post, stream = pre ++ t1 :: post /\ (t1 ∉ pre) /\ (t2 ∉ pre) /\ t1 <> t2.

(** [x] stands somewhere to the left of [y] in [l]. *)
Definition precedes {A} (l : list A) (x y : A) : Prop :=
  exists l1 l2 l3, l = l1 ++ x :: l2 ++ y :: l3.

(** The counter obtained by tallying a stream of accepted, normalized tags. *)
Definition count_stream (stream : list string) : Counter :=
  foldl counter_incr [] stream.

(** Order of [most_common]: a larger count first; among equal counts the
    entry that stands earlier in the counter first. *)
Definition rank_before (counter : Counter) (x y : string * Z) : Prop :=
  y.2 < x.2 \/ (x.2 = y.2 /\ precedes counter x y).

(** Order of the ranked output: more occurrences first; among tags with
    equally many, the one first encountered earlier first. *)
Definition ranked_above (stream : list string) (t1 t2 : string) : Prop :=
  occurrences t2 stream < occurrences t1 stream \/
  (occurrences t1 stream = occurrences t2 stream /\ first_before stream t1 t2).

(** The tags of one alt text that pass the filter, normalized. *)
Definition accepted_tags (hashtags : list string) : list string :=
  map lower (List.filter tag_accepted hashtags).

(** The observations a post contributes. *)
Definition post_stream (post_link : result PostLink) : list string :=
  match post_link with
  | Returned pl => accepted_tags (findall_hashtags (default EmptyString (alt pl)))
  | Raised _ => []
  end.

(** All observations of the scanned posts, in the order they are met. *)
Definition observed_stream (post_links : list (result PostLink)) : list string :=
  List.flat_map post_stream post_links.

(** The tags of the scanned posts as extracted from the captions, before
    the filter and before normalization, in the order they are met. *)
Definition raw_stream (post_links : list (result PostLink)) : list string :=
  List.flat_map
    (fun post_link =>
       match post_link with
       | Returned pl => findall_hashtags (default EmptyString (alt pl))
       | Raised _ => []
       end) post_links.

(** A list of extracted tags without the ones the filter turns away. *)
Definition within_bounds (hashtags : list string) : list string :=
  List.filter tag_accepted hashtags.

(** Every tallied key has its list of posts. *)
Definition tally_wf (st : Tally) : Prop :=
  forall key, key ∈ keys st.1 -> is_Some (st.2 !! key).

(** The ranking before truncation: the tallied tags that reach the minimum
    frequency, as [most_common] orders them. *)
Definition ranked_tags (cfg : Config) (counter : Counter) : list string :=
  map fst (List.filter (fun tc => Z.leb (MIN_HASHTAG_FREQUENCY cfg) tc.2)
                       (most_common counter)).

(** The samples the loop obtains: the answers of the fetches that returned,
    in order, and the collaborator's state afterwards. *)
Fixpoint fetched_samples `{Runtime R} (sample_posts : list string) (r : R)
    : list PostEngagement * R :=
  match sample_posts with
  | [] => ([], r)
  | post_url :: rest =>
      let '(outcome, r1) := get_post_engagement post_url r in
      match outcome with
      | Returned engagement =>
          let '(samples, r2) := fetched_samples rest (leave_post rest r1) in
          (engagement :: samples, r2)
      | Raised _ => fetched_samples rest r1
      end
  end.

(** The [views] entries of the samples flagged as video. *)
Definition video_views (samples : list PostEngagement) : list Z :=
  map pe_views (List.filter pe_is_video samples).

(** The write for [trend_record] under [key] does not go through: the
    lookup raises, or the chosen update or insert raises or answers with
    no data. *)
Definition store_write_fails {S : Type} `{!Supabase S} (trend_record : TrendRecord)
    (key : string) (s : S) : Prop :=
  match select_eq key s with
  | (Raised _, _) => True
  | (Returned existing, s1) =>
      let payload := payload_of trend_record key in
      match (if has_data existing then update_eq (update_of payload) key s1
             else insert_row payload s1) with
      | (Raised _, _) => True
      | (Returned data, _) => data = []
      end
  end.

(** The counters of a report match its lists and add up to [n]. *)
Definition report_adds_up (rep : Report) (n : Z) : Prop :=
  successful rep + failed rep = n /\
  len (saved_hashtags rep) = successful rep /\
  len (errors rep) = failed rep.

(** A number that is not negative; [nan] compares false with everything. *)
Definition nonneg_number (x : number) : Prop :=
  match x with
  | Finite x => (0 <= value x)%Q
  | Infinity negative => negative = false
  | NaN => False
  end.

(** The field constraints of the data model, on the entries that are
    present: counts and averages are not negative. *)
Definition field_constraints (hashtag_data : HashtagDict)
    (engagement_data : EngagementDict) : Prop :=
  from_option (Z.le 0) True (hd_frequency hashtag_data) /\
  from_option (Z.le 0) True (hd_posts_count hashtag_data) /\
  from_option nonneg_number True (ed_avg_likes engagement_data) /\
  from_option nonneg_number True (ed_avg_comments engagement_data) /\
  from_option nonneg_number True (ed_avg_views engagement_data) /\
  from_option (fun x => (0 <= value x)%Q) True (ed_avg_engagement engagement_data) /\
  from_option (Z.le 0) True (ed_total_engagement engagement_data) /\
  from_option (fun x => (0 <= value x)%Q) True (ed_total_views engagement_data) /\
  from_option (Z.le 0) True (ed_video_count engagement_data).

(** The entry is present and finite. *)
Definition finite_entry (entry : option number) : Prop :=
  exists x, entry = Some (Finite x).

(** The entry is a finite number of at most [bound]. *)
Definition at_most (bound : Z) (entry : option number) : Prop :=
  exists x, entry = Some (Finite x) /\ (value x <= inject_Z bound)%Q.

(** [float(x)] does not overflow. *)
Definition in_float_range (x : num) : Prop :=
  match x with
  | Int z => Z.abs z < FLOAT_OVERFLOW
  | Float _ => True
  end.

(** What the builder needs of its dictionaries: every key it reads without
    a default, finite operands for the three [int(...)], and an engagement
    average that [float(...)] can convert. *)
Definition builder_accepts (hashtag_data : HashtagDict)
    (engagement_data : EngagementDict) : Prop :=
  is_Some (hd_hashtag hashtag_data) /\
  is_Some (hd_category hashtag_data) /\
  is_Some (hd_frequency hashtag_data) /\
  is_Some (hd_posts_count hashtag_data) /\
  is_Some (hd_sample_posts hashtag_data) /\
  finite_entry (ed_avg_likes engagement_data) /\
  finite_entry (ed_avg_comments engagement_data) /\
  finite_entry (ed_avg_views engagement_data) /\
  (exists x, ed_avg_engagement engagement_data = Some x /\ in_float_range x) /\
  is_Some (ed_total_engagement engagement_data) /\
  is_Some (ed_total_views engagement_data).

(** Every character of [s] is a word character. *)
Fixpoint all_word (s : string) : bool :=
  match s with
  | EmptyString => true
  | String c s' => (is_word_ascii c && all_word s')%bool
  end.

(** A non-empty run of word characters: what [\w+] matches. *)
Definition word_string (s : string) : Prop := s <> EmptyString /\ all_word s = true.

(** A caption that lists the given tags, each behind a [#] and followed by
    a blank. *)
Definition hashtag_line (tags : list string) : string :=
  foldr (fun tag rest => "#" +:+ tag +:+ " " +:+ rest) EmptyString tags.

(** The list of posts kept for a key is as long as the key's count. *)
Definition tally_balanced (st : Tally) : Prop :=
  forall key, len (default [] (st.2 !! key)) = counter_get st.1 key.

(** [post_url] is the address of a readable post among [post_links] whose
    caption carries an accepted tag that normalizes to [key]. *)
Definition posted_with (post_links : list (result PostLink)) (key post_url : string)
    : Prop :=
  exists pl, Returned pl ∈ post_links /\ href pl = post_url /\
             key ∈ post_stream (Returned pl).

(** Every post kept under a key was scanned and carries that key. *)
Definition tally_traced (post_links : list (result PostLink)) (st : Tally) : Prop :=
  forall key posts_using, st.2 !! key = Some posts_using ->
    Forall (posted_with post_links key) posts_using.

(** No field of a fetched sample is negative. *)
Definition sample_nonneg (e : PostEngagement) : Prop :=
  0 <= pe_likes e /\ 0 <= pe_comments e /\ 0 <= pe_views e /\ 0 <= pe_total_engagement e.

(** No field of a summary is negative. *)
Definition summary_nonneg (ed : EngagementData) : Prop :=
  (0 <= value (avg_likes ed))%Q /\
  (0 <= value (avg_comments ed))%Q /\
  (0 <= value (avg_engagement ed))%Q /\
  (0 <= value (avg_views ed))%Q /\
  0 <= total_engagement ed /\
  (0 <= value (total_views ed))%Q /\
  0 <= video_count ed.

(** The labels the categorizer can answer with. *)
Definition category_labels : list string :=
  map fst HASHTAG_CATEGORIES ++ ["general"].

(** The store keys of a list of discovered hashtags. *)
Definition run_keys (hashtag_data_list : list HashtagData) : list string :=
  map (fun hd => "#" +:+ hashtag hd) hashtag_data_list.

(** The row's key is none of [keys]. *)
Definition outside (keys : list string) (row : Row) : bool :=
  negb (bool_decide (topic_hashtag row ∈ keys)).

(** The attributes of the post link could be read. *)
Definition is_readable (post_link : result PostLink) : bool :=
  match post_link with Returned _ => true | Raised _ => false end.

(* ===================================================================== *)
(** * Scenarios *)
(* ===================================================================== *)

(** A hashtag observed three times, without sample posts. *)
Definition sunset : HashtagData :=
  {| hashtag := "sunset"; frequency := 3; posts_count := 3;
     sample_posts := []; category := "general" |}.

(** An observation with negative counts. *)
Definition negative_observation : HashtagData :=
  {| hashtag := "sunset"; frequency := -3; posts_count := -1;
     sample_posts := []; category := "general" |}.

(** A page without posts, a fixed random factor, a clock starting at 100. *)
Definition quiet_script : Script :=
  {| page_posts := []; factor := 20; clock := 100 |}.

(** A post link whose attributes can be read. *)
Definition post (alt_text post_url : string) : result PostLink :=
  Returned {| alt := Some alt_text; href := post_url |}.

(** Three observations of [sunset] and one of [sunrise]; minimum frequency
    2, top 5. *)
Definition sunset_page : list (result PostLink) :=
  [ post "Evening light #Sunset #sunrise" "/p/a/";
    post "#sunset over the bay" "/p/b/";
    post "golden hour #SUNSET" "/p/c/" ].

Definition sunset_config : Config :=
  {| SCROLL_COUNT := 15; POSTS_TO_SCAN := 400; MIN_HASHTAG_FREQUENCY := 2;
     TOP_HASHTAGS_TO_SAVE := 5; POSTS_PER_HASHTAG := 3 |}.

(** A year tag on every post, next to two tags met once each. *)
Definition year_page : list (result PostLink) :=
  [ post "#2024 #beach" "/p/a/"; post "#2024 #yoga" "/p/b/"; post "#2024" "/p/c/" ].

(** An observation of frequency 4 without sample posts. *)
Definition four_times : HashtagData :=
  {| hashtag := "sunset"; frequency := 4; posts_count := 4;
     sample_posts := []; category := "general" |}.

(** A page with one photo and two videos. *)
Definition photo : PostEngagement :=
  {| pe_likes := 900; pe_comments := 30; pe_views := 0;
     pe_total_engagement := 930; pe_is_video := false |}.

Definition reel (measured_views : Z) : PostEngagement :=
  {| pe_likes := 1200; pe_comments := 40; pe_views := measured_views;
     pe_total_engagement := 1240; pe_is_video := true |}.

Definition video_script : Script :=
  {| page_posts := [("/p/a/", photo); ("/p/b/", reel 5000); ("/p/c/", reel 7000)];
     factor := 20; clock := 100 |}.

Definition three_posts : HashtagData :=
  {| hashtag := "sunset"; frequency := 4; posts_count := 4;
     sample_posts := ["/p/a/"; "/p/b/"; "/p/c/"]; category := "general" |}.

(** A page showing one photo. *)
Definition photo_script : Script :=
  {| page_posts := [("/p/a/", photo)]; factor := 20; clock := 100 |}.

Definition one_photo : HashtagData :=
  {| hashtag := "sunset"; frequency := 1; posts_count := 1;
     sample_posts := ["/p/a/"]; category := "general" |}.

(** What a post page shows to the scraper: the elements counted by the
    three locators and the numbers read from the view and like texts. *)
Record PostPage : Type := {
  video_elements : Z;
  play_buttons : Z;
  comment_items : Z;
  views_text : Z;
  likes_text : Z
}.

(** A browser whose answers are scripted. [site] lists the addresses that
    load, any other navigation times out; [opened] is the page on display;
    [randint a b] answers [a], [uniform 15 25] answers [multiplier] and any
    other [uniform a b] answers [a]; the clock advances by one per reading. *)
Record Stage : Type := {
  site : list (string * PostPage);
  opened : option PostPage;
  multiplier : Q;
  stage_clock : datetime
}.

Definition show (st : Stage) (page : option PostPage) : Stage :=
  {| site := site st; opened := page; multiplier := multiplier st;
     stage_clock := stage_clock st |}.

Fixpoint find_page (pages : list (string * PostPage)) (address : string)
    : option PostPage :=
  match pages with
  | [] => None
  | (a, page) :: rest => if String.eqb a address then Some page else find_page rest address
  end.

Definition scripted_browser : Browser Stage := {|
  goto address st :=
    match find_page (site st) address with
    | Some page => (Returned (), show st (Some page))
    | None => (Raised "Timeout", show st None)
    end;
  locator_count selector st :=
    match opened st with
    | None => (Raised "no page", st)
    | Some page =>
        (Returned (if String.eqb selector "video" then video_elements page
                   else if String.eqb selector "svg[aria-label='Play']"
                        then play_buttons page
                        else comment_items page), st)
    end;
  shown_views st := (from_option views_text 0 (opened st), st);
  shown_likes st := (from_option likes_text 0 (opened st), st);
  uniform a b st := (if Z.eqb a 15 then multiplier st else inject_Z a, st);
  randint a b st := (a, st);
  read_clock st :=
    (stage_clock st,
     {| site := site st; opened := opened st; multiplier := multiplier st;
        stage_clock := stage_clock st + 1 |})
|}.

(** A reel with 1200 likes and 40 comments whose page shows no view count. *)
Definition silent_reel : PostPage :=
  {| video_elements := 1; play_buttons := 0; comment_items := 40;
     views_text := 0; likes_text := 1200 |}.

(** A site with that reel at [/p/a/], the random factor being [factor]. *)
Definition reel_stage (factor : Q) : Stage :=
  {| site := [("https://www.instagram.com/p/a/", silent_reel)]; opened := None;
     multiplier := factor; stage_clock := 100 |}.

(** A site on which no address loads. *)
Definition offline_stage : Stage :=
  {| site := []; opened := None; multiplier := 20; stage_clock := 100 |}.

(** An observation met once, with one sample post. *)
Definition one_post : HashtagData :=
  {| hashtag := "sunset"; frequency := 1; posts_count := 1;
     sample_posts := ["/p/a/"]; category := "general" |}.

(** A table that turns away every write for [#beach]. *)
Definition no_beach_store : Supabase (list Row) := rejecting table_store ["#beach"].

Definition beach : HashtagData :=
  {| hashtag := "beach"; frequency := 2; posts_count := 2;
     sample_posts := []; category := "travel" |}.

Definition sunrise : HashtagData :=
  {| hashtag := "sunrise"; frequency := 1; posts_count := 1;
     sample_posts := []; category := "general" |}.

(** Credentials with every string set. *)
Definition some_credentials : Credentials :=
  {| USERNAME := "scraper"; PASSWORD := "secret";
     SUPABASE_URL := "https://example.supabase.co"; SUPABASE_KEY := "key" |}.

(** A session in which client and login succeed and the explore page shows
    [year_page]. *)
Definition year_session : Session :=
  {| uuid4 := "run-1"; client_created := true; browser_started := true;
     login_ok := true; explore_page := Returned year_page |}.

(** The default settings with a scan limit of two posts. *)
Definition two_posts_config : Config :=
  {| SCROLL_COUNT := 15; POSTS_TO_SCAN := 2; MIN_HASHTAG_FREQUENCY := 1;
     TOP_HASHTAGS_TO_SAVE := 10; POSTS_PER_HASHTAG := 3 |}.

(* ===================================================================== *)
(** * Properties *)
(* ===================================================================== *)

(** ** Strings *)

Lemma str_app_cons c a b : String c a +:+ b = String c (a +:+ b).
Proof. reflexivity. Qed.

Lemma str_app_nil b : EmptyString +:+ b = b.
Proof. reflexivity. Qed.

Lemma prefix_spec kw s : String.prefix kw s = true <-> exists b, s = kw +:+ b.
Proof.
  revert s. induction kw as [|c kw IH]; intros s.
  - split; [intros _; exists s; reflexivity | intros _; by destruct s].
  - destruct s as [|d s]; [split; [done | intros [b Hb]; discriminate Hb] |].
    change (String.prefix (String c kw) (String d s))
      with (if Ascii.ascii_dec c d then String.prefix kw s else false).
    destruct (Ascii.ascii_dec c d) as [->|Hne].
    + rewrite IH. split; intros [b Hb]; exists b; rewrite str_app_cons in *; congruence.
    + split; [done | intros [b Hb]]. rewrite str_app_cons in Hb. congruence.
Qed.

Lemma contains_cons kw d s :
  contains kw (String d s) = (String.prefix kw (String d s) || contains kw s)%bool.
Proof. reflexivity. Qed.

Lemma contains_spec kw s : contains kw s = true <-> substring_of kw s.
Proof.
  induction s as [|d s IH].
  - change (contains kw EmptyString) with (String.prefix kw EmptyString || false)%bool.
    rewrite orb_false_r, prefix_spec. split.
    + intros [b Hb]. by exists EmptyString, b.
    + intros (a & b & Hab). destruct a; [by exists b | discriminate Hab].
  - rewrite contains_cons, orb_true_iff, prefix_spec, IH. split.
    + intros [[b Hb] | (a & b & Hab)].
      * by exists EmptyString, b.
      * exists (String d a), b. rewrite str_app_cons. by rewrite Hab.
    + intros (a & b & Hab). destruct a as [|e a].
      * left. by exists b.
      * right. exists a, b. rewrite str_app_cons in Hab. congruence.
Qed.

(** ** Categorizer *)

Lemma any_keyword_in_spec keywords s :
  any_keyword_in keywords s = true <->
  exists keyword, keyword ∈ keywords /\ substring_of keyword s.
Proof.
  induction keywords as [|k ks IH]; simpl.
  - split; [done | intros (k & Hk & _); by apply elem_of_nil in Hk].
  - destruct (contains k s) eqn:Hc.
    + split; [intros _ | done]. exists k. split; [left | by apply contains_spec].
    + rewrite IH. split.
      * intros (k' & Hin & Hs). exists k'. split; [by right | done].
      * intros (k' & Hin & Hs). apply elem_of_cons in Hin as [-> | Hin].
        -- apply contains_spec in Hs. congruence.
        -- by exists k'.
Qed.

Lemma scan_categories_spec table s :
  match scan_categories table s with
  | Some c =>
      exists before keywords after,
        table = before ++ (c, keywords) :: after /\
        any_keyword_in keywords s = true /\
        Forall (fun e => any_keyword_in e.2 s = false) before
  | None => Forall (fun e => any_keyword_in e.2 s = false) table
  end.
Proof.
  induction table as [|[c kws] rest IH]; simpl; [done |].
  destruct (any_keyword_in kws s) eqn:Hk.
  - by exists [], kws, rest.
  - destruct (scan_categories rest s) as [c'|].
    + destruct IH as (before & kws' & after & -> & Hhit & Hmiss).
      exists ((c, kws) :: before), kws', after. repeat split; [done |].
      by constructor.
    + by constructor.
Qed.

(** C6: [categorize_hashtag] is a total function that returns the first
    category, in the declaration order of [HASHTAG_CATEGORIES], one of whose
    keywords is a substring of the lowercased tag, and ["general"] when no
    keyword of any category is; [categorize_hashtag "techlife"] is
    ["technology"] although the later category ["lifestyle"] matches too. *)
Theorem categorize_hashtag_first_match :
  (forall hashtag,
     (exists before category keywords after,
        HASHTAG_CATEGORIES = before ++ (category, keywords) :: after /\
        entry_matches hashtag (category, keywords) /\
        Forall (fun e => ~ entry_matches hashtag e) before /\
        categorize_hashtag hashtag = category)
     \/
     (Forall (fun e => ~ entry_matches hashtag e) HASHTAG_CATEGORIES /\
      categorize_hashtag hashtag = "general")) /\
  categorize_hashtag "techlife" = "technology" /\
  (exists keywords,
     ("lifestyle", keywords) ∈ HASHTAG_CATEGORIES /\
     entry_matches "techlife" ("lifestyle", keywords)).
Proof.
  split; [| split].
  - intros hashtag. unfold categorize_hashtag.
    pose proof (scan_categories_spec HASHTAG_CATEGORIES (lower hashtag)) as Hs.
    assert (Hmiss : forall l,
      Forall (fun e : string * list string =>
                any_keyword_in e.2 (lower hashtag) = false) l ->
      Forall (fun e => ~ entry_matches hashtag e) l).
    { intros l Hl. eapply Forall_impl; [exact Hl |]. intros e He Hm.
      apply any_keyword_in_spec in Hm. congruence. }
    destruct (scan_categories HASHTAG_CATEGORIES (lower hashtag)) as [c|].
    + left. destruct Hs as (before & kws & after & Heq & Hhit & Hno).
      exists before, c, kws, after. repeat split; auto.
      by apply any_keyword_in_spec.
    + right. auto.
  - reflexivity.
  - eexists. split.
    + unfold HASHTAG_CATEGORIES. do 7 right. left.
    + exists "life". split; [simpl; set_solver |].
      by exists "tech", EmptyString.
Qed.

(** ** Discovery collector: the filter *)


(** ** Discovery collector: the counter *)

Lemma eqb_string_eq (a b : string) : String.eqb a b = true <-> a = b.
Proof. apply String.eqb_eq. Qed.

Lemma counter_get_absent counter key : key ∉ keys counter -> counter_get counter key = 0.
Proof.
  induction counter as [|[k n] rest IH]; simpl; [done |].
  intros Hnot. apply not_elem_of_cons in Hnot as [Hne Hnot].
  destruct (String.eqb k key) eqn:E; [apply eqb_string_eq in E; congruence | auto].
Qed.

Lemma counter_get_set counter key v key' :
  counter_get (counter_set counter key v) key' =
  if String.eqb key key' then v else counter_get counter key'.
Proof.
  induction counter as [|[k n] rest IH]; simpl.
  - by destruct (String.eqb key key').
  - destruct (String.eqb k key) eqn:E; simpl.
    + apply eqb_string_eq in E as ->. by destruct (String.eqb key key').
    + rewrite IH. destruct (String.eqb k key') eqn:E'; [| done].
      apply eqb_string_eq in E' as ->. by rewrite String.eqb_sym, E.
Qed.

Lemma keys_counter_set counter key v :
  keys (counter_set counter key v) =
  if bool_decide (key ∈ keys counter) then keys counter else keys counter ++ [key].
Proof.
  induction counter as [|[k n] rest IH]; simpl; [done |].
  destruct (String.eqb k key) eqn:E; simpl.
  - apply eqb_string_eq in E as ->. rewrite bool_decide_eq_true_2; [done | left].
  - assert (k <> key) by (intros ->; by rewrite String.eqb_refl in E).
    rewrite IH. case_bool_decide as Hin.
    + rewrite bool_decide_eq_true_2; [done | by right].
    + rewrite bool_decide_eq_false_2; [done |].
      intros Hc. apply elem_of_cons in Hc as [? | ?]; congruence.
Qed.

Lemma counter_get_incr counter key key' :
  counter_get (counter_incr counter key) key' =
  counter_get counter key' + (if String.eqb key key' then 1 else 0).
Proof.
  unfold counter_incr. rewrite counter_get_set.
  destruct (String.eqb key key') eqn:E; [| lia].
  apply eqb_string_eq in E as ->. lia.
Qed.

Lemma occurrences_snoc tag stream t :
  occurrences tag (stream ++ [t]) =
  occurrences tag stream + (if String.eqb t tag then 1 else 0).
Proof.
  unfold occurrences, len. rewrite List.filter_app, length_app. simpl.
  rewrite (String.eqb_sym tag t). destruct (String.eqb t tag); simpl; lia.
Qed.

Lemma occurrences_pos tag stream : tag ∈ stream <-> 0 < occurrences tag stream.
Proof.
  unfold occurrences, len. induction stream as [|t ts IH]; simpl.
  - split; [intros H; by apply elem_of_nil in H | lia].
  - rewrite elem_of_cons. destruct (String.eqb tag t) eqn:E; simpl.
    + apply eqb_string_eq in E. split; [lia | auto].
    + assert (tag <> t) by (intros ->; by rewrite String.eqb_refl in E).
      rewrite <- IH. split; [intros [? | ?]; [congruence | done] | auto].
Qed.

Lemma count_stream_snoc stream t :
  count_stream (stream ++ [t]) = counter_incr (count_stream stream) t.
Proof. unfold count_stream. by rewrite foldl_app. Qed.

Lemma count_stream_get stream tag :
  counter_get (count_stream stream) tag = occurrences tag stream.
Proof.
  induction stream as [|t ts IH] using rev_ind; [done |].
  by rewrite count_stream_snoc, counter_get_incr, occurrences_snoc, IH.
Qed.

Lemma count_stream_keys_snoc stream t :
  keys (count_stream (stream ++ [t])) =
  if bool_decide (t ∈ keys (count_stream stream)) then keys (count_stream stream)
  else keys (count_stream stream) ++ [t].
Proof. rewrite count_stream_snoc. apply keys_counter_set. Qed.

Lemma count_stream_keys_elem stream tag :
  tag ∈ keys (count_stream stream) <-> tag ∈ stream.
Proof.
  induction stream as [|t ts IH] using rev_ind; [done |].
  rewrite count_stream_keys_snoc, elem_of_app, list_elem_of_singleton.
  case_bool_decide as Hin.
  - rewrite IH. split; [auto |]. intros [? | ->]; [done | by apply IH].
  - rewrite elem_of_app, list_elem_of_singleton, IH. done.
Qed.

Lemma count_stream_keys_NoDup stream : NoDup (keys (count_stream stream)).
Proof.
  induction stream as [|t ts IH] using rev_ind; [constructor |].
  rewrite count_stream_keys_snoc. case_bool_decide as Hin; [done |].
  apply NoDup_app. split; [done |]. split; [| apply NoDup_singleton].
  intros x Hx Hx'. apply list_elem_of_singleton in Hx' as ->. done.
Qed.

Lemma precedes_app_l {A} (l l' : list A) x y : precedes l x y -> precedes (l ++ l') x y.
Proof.
  intros (l1 & l2 & l3 & ->). exists l1, l2, (l3 ++ l').
  by rewrite <- !app_assoc, <- !app_comm_cons, <- app_assoc.
Qed.

Lemma precedes_cons {A} (l : list A) z x y : precedes l x y -> precedes (z :: l) x y.
Proof. intros (l1 & l2 & l3 & ->). by exists (z :: l1), l2, l3. Qed.

Lemma precedes_head {A} (l : list A) x y : y ∈ l -> precedes (x :: l) x y.
Proof.
  intros Hy. apply list_elem_of_split in Hy as (l2 & l3 & ->). by exists [], l2, l3.
Qed.

Lemma precedes_snoc_inv {A} (l : list A) z x y :
  precedes (l ++ [z]) x y -> precedes l x y \/ (x ∈ l /\ y = z).
Proof.
  intros (l1 & l2 & l3 & Heq).
  destruct l3 as [|w l3 _] using rev_ind.
  - right. rewrite app_comm_cons, (app_assoc l1) in Heq.
    apply app_inj_tail in Heq as [-> ->]. split; [| done].
    apply elem_of_app. right. left.
  - left. rewrite !app_comm_cons, !app_assoc in Heq.
    apply app_inj_tail in Heq as [-> _]. exists l1, l2, l3.
    by rewrite <- !app_assoc, <- !app_comm_cons.
Qed.

Lemma precedes_fmap {A B} (f : A -> B) (l : list A) x y :
  precedes l x y -> precedes (map f l) (f x) (f y).
Proof.
  intros (l1 & l2 & l3 & ->). exists (map f l1), (map f l2), (map f l3).
  by rewrite !map_app, !map_cons, !map_app.
Qed.

Lemma first_before_snoc stream t t1 t2 :
  first_before stream t1 t2 -> first_before (stream ++ [t]) t1 t2.
Proof.
  intros (pre & post & -> & H1 & H2 & Hne). exists pre, (post ++ [t]).
  by rewrite <- app_assoc.
Qed.

(** The keys of the counter stand in first-encounter order of the stream. *)
Lemma count_stream_keys_order stream t1 t2 :
  precedes (keys (count_stream stream)) t1 t2 -> first_before stream t1 t2.
Proof.
  induction stream as [|t ts IH] using rev_ind.
  - intros (l1 & l2 & l3 & Heq). by destruct l1.
  - rewrite count_stream_keys_snoc. case_bool_decide as Hin.
    + intros Hp. by apply first_before_snoc, IH.
    + intros Hp. apply precedes_snoc_inv in Hp as [Hp | [Hx ->]].
      * by apply first_before_snoc, IH.
      * apply (proj1 (count_stream_keys_elem ts t1)) in Hx.
        assert (Hts : t ∉ ts) by (intros ?; apply Hin; by apply count_stream_keys_elem).
        apply list_elem_of_split_l in Hx as (pre & post & -> & Hpre).
        exists pre, (post ++ [t]). rewrite <- app_assoc. repeat split; [done | |].
        -- intros Ht. apply Hts. apply elem_of_app. by left.
        -- intros ->. apply Hts. apply elem_of_app. right. left.
Qed.

(** ** Discovery collector: ranking *)

Lemma rank_before_ge counter x y : rank_before counter x y -> y.2 <= x.2.
Proof. intros [? | [? _]]; lia. Qed.

Lemma rank_before_cons counter z x y :
  rank_before counter x y -> rank_before (z :: counter) x y.
Proof. intros [? | [? ?]]; [by left | right; split; [done | by apply precedes_cons]]. Qed.

Lemma StronglySorted_weaken {A} (R R' : A -> A -> Prop) l :
  (forall x y, R x y -> R' x y) -> StronglySorted R l -> StronglySorted R' l.
Proof.
  intros HR. induction 1 as [|x l Hs IH Hall]; constructor; [done |].
  eapply Forall_impl; [exact Hall | auto].
Qed.

Lemma insert_desc_perm x l : insert_desc x l ≡ₚ x :: l.
Proof.
  induction l as [|y l IH]; simpl; [done |].
  destruct (x.2 <? y.2); [| done]. rewrite IH. apply Permutation_swap.
Qed.

Lemma most_common_perm counter : most_common counter ≡ₚ counter.
Proof.
  induction counter as [|x c IH]; [done |].
  change (most_common (x :: c)) with (insert_desc x (most_common c)).
  by rewrite insert_desc_perm, IH.
Qed.

Lemma insert_desc_sorted counter x l :
  StronglySorted (rank_before counter) l ->
  (forall y, y ∈ l -> x.2 < y.2 -> rank_before counter y x) ->
  (forall y, y ∈ l -> y.2 <= x.2 -> rank_before counter x y) ->
  StronglySorted (rank_before counter) (insert_desc x l).
Proof.
  intros Hs Hlt Hge. induction Hs as [|y l Hs IH Hall]; simpl.
  - repeat constructor.
  - destruct (x.2 <? y.2) eqn:E.
    + apply Z.ltb_lt in E. constructor.
      * apply IH; intros z Hz; [apply Hlt | apply Hge]; by right.
      * rewrite insert_desc_perm. constructor; [| done].
        apply Hlt; [left | done].
    + apply Z.ltb_ge in E. constructor; [by constructor |].
      apply Forall_forall. intros z Hz. apply Hge; [done |].
      apply elem_of_cons in Hz as [-> | Hz]; [done |].
      rewrite Forall_forall in Hall. apply Hall, rank_before_ge in Hz. lia.
Qed.

Lemma most_common_sorted counter :
  StronglySorted (rank_before counter) (most_common counter).
Proof.
  induction counter as [|x c IH]; [constructor |].
  change (most_common (x :: c)) with (insert_desc x (most_common c)).
  apply insert_desc_sorted.
  - eapply StronglySorted_weaken; [| exact IH]. intros a b. apply rank_before_cons.
  - intros y _ Hlt. by left.
  - intros y Hy Hle. rewrite most_common_perm in Hy.
    destruct (decide (y.2 = x.2)) as [Heq | Hne]; [| left; lia].
    right. split; [done | by apply precedes_head].
Qed.

Lemma StronglySorted_filter_bool {A} (R : A -> A -> Prop) (p : A -> bool) l :
  StronglySorted R l -> StronglySorted R (List.filter p l).
Proof.
  induction 1 as [|x l Hs IH Hall]; simpl; [constructor |].
  destruct (p x); [| done]. constructor; [done |].
  apply Forall_forall. intros y Hy. rewrite Forall_forall in Hall. apply Hall.
  apply list_elem_of_In in Hy. apply List.filter_In in Hy as [Hy _].
  by apply list_elem_of_In.
Qed.

Lemma StronglySorted_map {A B} (R : A -> A -> Prop) (R' : B -> B -> Prop)
    (f : A -> B) l :
  (forall x y, x ∈ l -> y ∈ l -> R x y -> R' (f x) (f y)) ->
  StronglySorted R l -> StronglySorted R' (map f l).
Proof.
  intros Hf Hs. induction Hs as [|x l Hs IH Hall]; simpl; [constructor |].
  constructor.
  - apply IH. intros a b Ha Hb. apply Hf; by right.
  - apply Forall_forall. intros b Hb.
    apply list_elem_of_fmap in Hb as (y & -> & Hy).
    rewrite Forall_forall in Hall. apply Hf; [left | by right | by apply Hall].
Qed.

Lemma counter_get_entry counter k n :
  NoDup (keys counter) -> (k, n) ∈ counter -> counter_get counter k = n.
Proof.
  induction counter as [|[k' n'] rest IH]; simpl.
  - intros _ H. by apply elem_of_nil in H.
  - intros Hnd Hin. apply NoDup_cons in Hnd as [Hk' Hnd].
    apply elem_of_cons in Hin as [Heq | Hin].
    + injection Heq as -> ->. by rewrite String.eqb_refl.
    + destruct (String.eqb k' k) eqn:E; [| auto].
      apply eqb_string_eq in E as ->. exfalso. apply Hk'.
      apply list_elem_of_fmap. by exists (k, n).
Qed.

Lemma rank_before_ranked_above stream x y :
  x ∈ count_stream stream -> y ∈ count_stream stream ->
  rank_before (count_stream stream) x y -> ranked_above stream x.1 y.1.
Proof.
  intros Hx Hy Hr. destruct x as [k n], y as [k' n']. simpl in *.
  pose proof (count_stream_keys_NoDup stream) as Hnd.
  apply (counter_get_entry _ _ _ Hnd) in Hx, Hy.
  rewrite count_stream_get in Hx, Hy. subst n n'.
  destruct Hr as [Hlt | [Heq Hp]]; [by left | right]. split; [done |].
  apply count_stream_keys_order. by apply (precedes_fmap fst) in Hp.
Qed.

(** ** Discovery collector: the tally *)

Lemma tally_tags_counter post_url hashtags st :
  (tally_tags post_url hashtags st).1 = foldl counter_incr st.1 (accepted_tags hashtags).
Proof.
  unfold tally_tags, accepted_tags. revert st.
  induction hashtags as [|tag tags IH]; intros st; simpl; [done |].
  rewrite IH. unfold tally_tag. by destruct (tag_accepted tag).
Qed.

Lemma tally_tags_wf post_url hashtags st :
  tally_wf st -> tally_wf (tally_tags post_url hashtags st).
Proof.
  unfold tally_tags. revert st.
  induction hashtags as [|tag tags IH]; intros st Hwf; simpl; [done |].
  apply IH. unfold tally_tag. destruct (tag_accepted tag); [| done].
  intros key. simpl. unfold counter_incr. rewrite keys_counter_set.
  destruct (decide (key = lower tag)) as [-> | Hne].
  { intros _. rewrite lookup_insert_eq. by eexists. }
  rewrite lookup_insert_ne by done.
  case_bool_decide; [apply Hwf |].
  rewrite elem_of_app, list_elem_of_singleton. intros [? | ?]; [by apply Hwf | done].
Qed.

Lemma tally_post_counter st post_link :
  (tally_post st post_link).1 = foldl counter_incr st.1 (post_stream post_link).
Proof. destruct post_link; simpl; [apply tally_tags_counter | done]. Qed.

Lemma tally_post_wf st post_link : tally_wf st -> tally_wf (tally_post st post_link).
Proof. destruct post_link; simpl; [apply tally_tags_wf | done]. Qed.

Lemma tally_loop_counter post_links st :
  (foldl tally_post st post_links).1 =
  foldl counter_incr st.1 (observed_stream post_links).
Proof.
  revert st. induction post_links as [|p ps IH]; intros st; simpl; [done |].
  by rewrite IH, tally_post_counter, foldl_app.
Qed.

Lemma tally_loop_wf post_links st :
  tally_wf st -> tally_wf (foldl tally_post st post_links).
Proof.
  revert st. induction post_links as [|p ps IH]; intros st Hwf; simpl; [done |].
  by apply IH, tally_post_wf.
Qed.

Lemma tally_posts_counter post_links :
  (tally_posts post_links).1 = count_stream (observed_stream post_links).
Proof. apply tally_loop_counter. Qed.

Lemma tally_posts_wf post_links : tally_wf (tally_posts post_links).
Proof.
  apply tally_loop_wf. intros key Hkey. by apply elem_of_nil in Hkey.
Qed.




(** ** Discovery collector: the returned list *)

Lemma top_hashtags_of_ranked cfg counter :
  top_hashtags_of cfg counter = slice_to (TOP_HASHTAGS_TO_SAVE cfg) (ranked_tags cfg counter).
Proof. reflexivity. Qed.

Lemma ranked_tags_keys cfg counter tag :
  tag ∈ ranked_tags cfg counter -> tag ∈ keys counter.
Proof.
  unfold ranked_tags, keys. rewrite !list_elem_of_fmap.
  intros (x & -> & Hx). exists x. split; [done |].
  apply list_elem_of_In, List.filter_In in Hx as [Hx _].
  apply list_elem_of_In in Hx. by rewrite most_common_perm in Hx.
Qed.

Lemma slice_to_subseteq {A} n (l : list A) x : x ∈ slice_to n l -> x ∈ l.
Proof.
  unfold slice_to. destruct (0 <=? n); intros Hx;
    by eapply subseteq_take.
Qed.

Lemma build_entries_returns cfg st tags :
  (forall tag, tag ∈ tags -> is_Some (st.2 !! tag)) ->
  exists entries,
    build_entries cfg st tags = Returned entries /\
    map hashtag entries = tags /\
    Forall (fun d => frequency d = counter_get st.1 (hashtag d)) entries.
Proof.
  induction tags as [|tag rest IH]; intros Hdom; simpl.
  - by exists [].
  - destruct IH as (entries & -> & Hmap & Hfreq).
    { intros t Ht. apply Hdom. by right. }
    destruct (Hdom tag) as [posts_using Hposts]; [left |].
    unfold build_entry. rewrite Hposts. eexists. split; [done |].
    split; simpl; [by rewrite Hmap | by constructor].
Qed.

(** The list returned for a page that could be read: its tags are the
    truncated ranking and each frequency is the tag's tallied count. *)
Lemma discover_returns cfg all_links :
  let st := tally_posts (slice_to (POSTS_TO_SCAN cfg) all_links) in
  let out := discover_trending_hashtags cfg (Returned all_links) in
  map hashtag out = top_hashtags_of cfg st.1 /\
  Forall (fun d => frequency d = counter_get st.1 (hashtag d)) out.
Proof.
  intros st out. subst out. unfold discover_trending_hashtags. fold st.
  destruct (build_entries_returns cfg st (top_hashtags_of cfg st.1))
    as (entries & Hbuild & Hmap & Hfreq).
  { intros tag Htag. apply tally_posts_wf.
    rewrite top_hashtags_of_ranked in Htag.
    by eapply ranked_tags_keys, slice_to_subseteq. }
  rewrite Hbuild. destruct (top_hashtags_of cfg st.1) eqn:Htop.
  - split; [done | constructor].
  - by split.
Qed.

Lemma NoDup_map_filter {A B} (f : A -> B) (p : A -> bool) l :
  NoDup (map f l) -> NoDup (map f (List.filter p l)).
Proof.
  induction l as [|x l IH]; simpl; [done |].
  intros Hnd. apply NoDup_cons in Hnd as [Hx Hnd].
  destruct (p x); simpl; [| auto]. apply NoDup_cons. split; [| auto].
  intros Hin. apply Hx. apply list_elem_of_fmap in Hin as (y & -> & Hy).
  apply list_elem_of_fmap. exists y. split; [done |].
  apply list_elem_of_In, List.filter_In in Hy as [Hy _]. by apply list_elem_of_In.
Qed.

Lemma ranked_tags_NoDup cfg stream : NoDup (ranked_tags cfg (count_stream stream)).
Proof.
  unfold ranked_tags. apply NoDup_map_filter.
  change (map fst (most_common (count_stream stream)))
    with (fst <$> most_common (count_stream stream)).
  rewrite most_common_perm. apply count_stream_keys_NoDup.
Qed.

Lemma ranked_tags_elem cfg stream tag :
  tag ∈ ranked_tags cfg (count_stream stream) <->
  tag ∈ stream /\ MIN_HASHTAG_FREQUENCY cfg <= occurrences tag stream.
Proof.
  pose proof (count_stream_keys_NoDup stream) as Hnd.
  unfold ranked_tags. rewrite list_elem_of_fmap. split.
  - intros ([k n] & -> & Hx). simpl.
    apply list_elem_of_In, List.filter_In in Hx as [Hx Hmin].
    apply list_elem_of_In in Hx. rewrite most_common_perm in Hx.
    simpl in Hmin. apply Z.leb_le in Hmin.
    rewrite <- (counter_get_entry _ _ _ Hnd Hx), count_stream_get in Hmin.
    split; [| done]. apply count_stream_keys_elem.
    apply list_elem_of_fmap. by exists (k, n).
  - intros [Hin Hmin]. apply count_stream_keys_elem in Hin.
    apply list_elem_of_fmap in Hin as ([k n] & -> & Hx). simpl in *.
    exists (k, n). split; [done |].
    apply list_elem_of_In, List.filter_In. split.
    + apply list_elem_of_In. by rewrite most_common_perm.
    + simpl. apply Z.leb_le.
      by rewrite <- (counter_get_entry _ _ _ Hnd Hx), count_stream_get.
Qed.

Lemma ranked_tags_sorted cfg stream :
  StronglySorted (ranked_above stream) (ranked_tags cfg (count_stream stream)).
Proof.
  unfold ranked_tags.
  eapply StronglySorted_map;
    [| apply StronglySorted_filter_bool, most_common_sorted].
  intros x y Hx Hy. apply rank_before_ranked_above.
  - apply list_elem_of_In, List.filter_In in Hx as [Hx _].
    apply list_elem_of_In in Hx. by rewrite most_common_perm in Hx.
  - apply list_elem_of_In, List.filter_In in Hy as [Hy _].
    apply list_elem_of_In in Hy. by rewrite most_common_perm in Hy.
Qed.


(** C3: the hashtags returned for a scanned page are the first
    [TOP_HASHTAGS_TO_SAVE] entries of a ranking that lists, once each,
    exactly the normalized tags tallied at least [MIN_HASHTAG_FREQUENCY]
    times, ordered by descending frequency and, among equal frequencies, by
    first encounter; each returned frequency is the tag's tally. *)
Theorem discover_ranked_by_frequency (cfg : Config) (all_links : list (result PostLink)) :
  0 <= TOP_HASHTAGS_TO_SAVE cfg ->
  let stream := observed_stream (slice_to (POSTS_TO_SCAN cfg) all_links) in
  let out := discover_trending_hashtags cfg (Returned all_links) in
  exists ranked,
    map hashtag out = take (Z.to_nat (TOP_HASHTAGS_TO_SAVE cfg)) ranked /\
    NoDup ranked /\
    (forall tag, tag ∈ ranked <->
                 tag ∈ stream /\ MIN_HASHTAG_FREQUENCY cfg <= occurrences tag stream) /\
    StronglySorted (ranked_above stream) ranked /\
    Forall (fun d => frequency d = occurrences (hashtag d) stream) out.
Proof.
  intros Htop stream out.
  destruct (discover_returns cfg all_links) as [Hmap Hfreq].
  rewrite tally_posts_counter in Hmap, Hfreq. fold stream in Hmap, Hfreq.
  exists (ranked_tags cfg (count_stream stream)).
  split; [| split; [| split; [| split]]].
  - subst out. rewrite Hmap, top_hashtags_of_ranked. unfold slice_to.
    by rewrite (proj2 (Z.leb_le _ _) Htop).
  - apply ranked_tags_NoDup.
  - intros tag. apply ranked_tags_elem.
  - apply ranked_tags_sorted.
  - eapply Forall_impl; [exact Hfreq |]. intros d Hd. simpl in Hd.
    by rewrite Hd, count_stream_get.
Qed.

(** ** Engagement aggregator *)

Lemma slice_to_nil {A} n : slice_to n (@nil A) = [].
Proof. unfold slice_to. destruct (0 <=? n); apply take_nil. Qed.

Lemma record_samples_fields acc samples :
  let acc' := foldl record_sample acc samples in
  all_likes acc' = all_likes acc ++ map pe_likes samples /\
  all_comments acc' = all_comments acc ++ map pe_comments samples /\
  all_engagement acc' = all_engagement acc ++ map pe_total_engagement samples /\
  all_views acc' = all_views acc ++ video_views samples /\
  seen_videos acc' = seen_videos acc + len (video_views samples).
Proof.
  revert acc. induction samples as [|e es IH]; intros acc; simpl.
  - unfold video_views, len. simpl. rewrite !app_nil_r. repeat split; lia.
  - destruct (IH (record_sample acc e)) as (Hl & Hc & He & Hv & Hn).
    rewrite Hl, Hc, He, Hv, Hn. unfold video_views, len. simpl.
    destruct (pe_is_video e); simpl; rewrite <- ?app_assoc; repeat split; try done.
    all: rewrite ?length_map; lia.
Qed.

Lemma sample_loop_fetched `{Runtime R} sample_posts acc (r : R) :
  sample_loop sample_posts acc r =
  (foldl record_sample acc (fetched_samples sample_posts r).1,
   (fetched_samples sample_posts r).2).
Proof.
  revert acc r. induction sample_posts as [|u us IH]; intros acc r; simpl; [done |].
  destruct (get_post_engagement u r) as [[e | msg] r1]; [| apply IH].
  rewrite IH. by destruct (fetched_samples us (leave_post us r1)).
Qed.

(** C4: for an observation without sample posts the aggregator returns a
    summary at once, without consulting the page or the random source, and
    its averages are the frequency scaled by the fixed factors 1000 (likes),
    50 (comments), 1050 (engagement) and 20000 (views). *)
Theorem analyze_without_sample_posts `{Runtime R} (cfg : Config)
    (hashtag_data : HashtagData) (r : R) :
  sample_posts hashtag_data = [] ->
  let summary := (analyze_hashtag_engagement cfg hashtag_data r).1 in
  avg_likes summary = Int (frequency hashtag_data * 1000) /\
  avg_comments summary = Int (frequency hashtag_data * 50) /\
  avg_engagement summary = Int (frequency hashtag_data * 1050) /\
  avg_views summary = Int (frequency hashtag_data * 20000) /\
  total_views summary = Int (frequency hashtag_data * 20000) /\
  video_count summary = 0 /\
  (analyze_hashtag_engagement cfg hashtag_data r).2 = r.
Proof.
  intros Hempty. unfold analyze_hashtag_engagement.
  rewrite Hempty, slice_to_nil. simpl. repeat split.
Qed.

(** C5: when at least one fetched sample is flagged as video, [avg_views] is
    the mean of the [views] entries of exactly the video-flagged samples, as
    [get_post_engagement] returned them, [total_views] is their sum and
    [video_count] their number; after the fetches the aggregator draws no
    random number of its own, so its state is the one the fetches left. *)
Theorem analyze_averages_video_views `{Runtime R} (cfg : Config)
    (hashtag_data : HashtagData) (r : R) (samples : list PostEngagement) (r' : R) :
  fetched_samples (slice_to (POSTS_PER_HASHTAG cfg) (sample_posts hashtag_data)) r
    = (samples, r') ->
  (exists sample, sample ∈ samples /\ pe_is_video sample = true) ->
  let summary := (analyze_hashtag_engagement cfg hashtag_data r).1 in
  avg_views summary =
    Float (truediv (sum (video_views samples)) (len (video_views samples))) /\
  total_views summary = Int (sum (video_views samples)) /\
  video_count summary = len (video_views samples) /\
  (analyze_hashtag_engagement cfg hashtag_data r).2 = r'.
Proof.
  unfold analyze_hashtag_engagement.
  generalize (slice_to (POSTS_PER_HASHTAG cfg) (sample_posts hashtag_data)).
  intros posts Hfetch (sample & Hin & Hvideo).
  assert (Hviews : video_views samples <> []).
  { unfold video_views. intros Hnil. apply map_eq_nil in Hnil.
    assert (Hs : In sample (List.filter pe_is_video samples)).
    { apply List.filter_In. split; [by apply list_elem_of_In | done]. }
    by rewrite Hnil in Hs. }
  assert (Heng : map pe_total_engagement samples <> []).
  { intros Hnil. apply map_eq_nil in Hnil. rewrite Hnil in Hin.
    by apply elem_of_nil in Hin. }
  destruct posts as [|u us] eqn:Hp.
  { simpl in Hfetch. injection Hfetch as <- _. by apply elem_of_nil in Hin. }
  rewrite <- Hp in *. rewrite sample_loop_fetched, Hfetch. simpl.
  destruct (record_samples_fields no_samples samples) as (Hl & Hc & He & Hv & Hn).
  simpl in Hl, Hc, He, Hv, Hn.
  destruct (all_engagement (foldl record_sample no_samples samples)) eqn:Hall.
  { by rewrite He in Hall. }
  unfold summarize. rewrite Hv, Hn.
  destruct (video_views samples) eqn:Hvv; [done |].
  simpl. by rewrite Z.add_0_l.
Qed.

(** ** Upsert writer *)

Lemma save_to_supabase_fails {S : Type} `{!Supabase S} trend_record key rest (s : S) :
  hashtags trend_record = key :: rest ->
  store_write_fails trend_record key s ->
  (save_to_supabase trend_record s).1 = Returned false.
Proof.
  intros Hkey. unfold store_write_fails, save_to_supabase. rewrite Hkey.
  destruct (select_eq key s) as [[existing | msg] s1]; [| done].
  destruct (if has_data existing then _ else _) as [[data | msg] s2]; [| done].
  by intros ->.
Qed.

(** On the in-memory table a save always succeeds: it rewrites the rows of
    the key when there are some and appends the payload otherwise. *)
Lemma save_to_supabase_table trend_record key rest (rows : list Row) :
  hashtags trend_record = key :: rest ->
  save_to_supabase trend_record rows =
  (Returned true,
   if has_data (List.filter (key_is key) rows)
   then table_update (update_of (payload_of trend_record key)) key rows
   else rows ++ [payload_of trend_record key]).
Proof.
  intros Hkey. unfold save_to_supabase. rewrite Hkey. simpl.
  destruct (List.filter (key_is key) rows) as [|row found] eqn:Hfound; simpl; [done |].
  assert (Hin : In row (List.filter (key_is key) rows)) by (rewrite Hfound; by left).
  apply List.filter_In in Hin as [Hin Hrow].
  destruct (List.filter (key_is key) (table_update _ key rows)) eqn:Hupd; [| done].
  exfalso.
  assert (Hin' : In (apply_update (update_of (payload_of trend_record key)) row)
                    (List.filter (key_is key)
                       (table_update (update_of (payload_of trend_record key)) key rows))).
  { apply List.filter_In. split; [| done].
    unfold table_update. apply List.in_map_iff. exists row. by rewrite Hrow. }
  by rewrite Hupd in Hin'.
Qed.

(** C9: a record made by the builder carries exactly one hashtag, the tag
    with its leading [#]; the writer addresses the store with that string
    and nothing else: its first request is the lookup of that key, every
    request it sends is keyed by it, and a table holding no row of that key
    gets one new row whose [topic_hashtag] is that string. *)
Theorem record_keyed_by_tagged_string {S : Type} (base : Supabase S) (cfg : Config)
    (hashtag_data : HashtagData) (engagement_data : EngagementData)
    (version_id : string) (now : datetime) (s : S) (rows : list Row) :
  let trend_record :=
    from_instagram_data cfg hashtag_data engagement_data version_id now in
  let key := "#" +:+ hashtag hashtag_data in
  hashtags trend_record = [key] /\
  (exists ok log s',
     @save_to_supabase _ (logging base) trend_record ([], s) = (Returned ok, (log, s')) /\
     @save_to_supabase _ base trend_record s = (Returned ok, s') /\
     head log = Some (ReqSelect key) /\
     Forall (fun req => request_key req = key) log) /\
  (let others := List.filter (fun row => negb (key_is key row)) rows in
   exists row,
     save_to_supabase trend_record others = (Returned true, others ++ [row]) /\
     topic_hashtag row = key /\
     List.filter (key_is key) (others ++ [row]) = [row]).
Proof.
  intros trend_record key. split; [done | split].
  - unfold save_to_supabase. simpl. fold key.
    destruct (@select_eq S base key s) as [[existing | msg] s1] eqn:Hsel; simpl.
    + destruct (has_data existing); simpl.
      * destruct (@update_eq S base _ key s1) as [[data | msg] s2]; simpl;
          eexists _, _, _; repeat split; repeat constructor.
      * destruct (@insert_row S base _ s1) as [[data | msg] s2]; simpl;
          eexists _, _, _; repeat split; repeat constructor.
    + eexists _, _, _. repeat split. repeat constructor.
  - intros others.
    assert (Habsent : List.filter (key_is key) others = []).
    { subst others. induction rows as [|row rows IH]; simpl; [done |].
      destruct (key_is key row) eqn:E; simpl; [done | by rewrite E]. }
    exists (payload_of trend_record key).
    rewrite (save_to_supabase_table trend_record key []) by done.
    rewrite Habsent. repeat split.
    rewrite List.filter_app, Habsent. simpl. unfold key_is. simpl.
    by rewrite String.eqb_refl.
Qed.

(** ** Run orchestrator *)

Lemma process_hashtag_adds_up `{Runtime R} {S : Type} `{!Supabase S} cfg ver
    rep (r : R) (s : S) hd n :
  report_adds_up rep n ->
  report_adds_up (process_hashtag cfg ver (rep, r, s) hd).1.1 (n + 1).
Proof.
  intros (Hsum & Hsaved & Herr). unfold process_hashtag.
  destruct (prepare_record cfg ver hd r) as [[ed tr] r2].
  destruct (save_to_supabase tr s) as [[[|] | msg] s1]; simpl;
    unfold report_adds_up, len in *; simpl; rewrite ?length_app; simpl;
    repeat split; lia.
Qed.

Lemma save_trends_loop_adds_up `{Runtime R} {S : Type} `{!Supabase S} cfg ver
    hashtag_data_list rep (r : R) (s : S) n :
  report_adds_up rep n ->
  report_adds_up (save_trends_loop cfg ver hashtag_data_list (rep, r, s)).1.1
                 (n + len hashtag_data_list).
Proof.
  unfold save_trends_loop. revert rep r s n.
  induction hashtag_data_list as [|hd rest IH]; intros rep r s n Hrep; cbn [foldl].
  - unfold len. simpl. by rewrite Z.add_0_r.
  - pose proof (process_hashtag_adds_up cfg ver rep r s hd n Hrep) as Hstep.
    destruct (process_hashtag cfg ver (rep, r, s) hd) as [[rep' r'] s'].
    simpl in Hstep. apply (IH rep' r' s') in Hstep. unfold len in *. simpl length.
    by replace (n + Z.of_nat (Datatypes.S (length rest)))
      with (n + 1 + Z.of_nat (length rest)) by lia.
Qed.

Lemma prepare_record_hashtags `{Runtime R} cfg ver hd (r : R) :
  hashtags (prepare_record cfg ver hd r).1.2 = ["#" +:+ hashtag hd].
Proof.
  unfold prepare_record.
  destruct (analyze_hashtag_engagement cfg hd r) as [ed r1].
  by destruct (utcnow r1) as [now r2].
Qed.

(** C7: when the store write for a hashtag's record fails,
    [save_to_supabase] returns [False]; the iteration then adds one to
    [failed], appends the hashtag with "Database save failed" to the error
    list and hands over to the rest of the list, which is processed from
    that state; and whatever the outcomes, the final counters add up to the
    number of hashtags and match the lists of saved and failed ones. *)
Theorem failed_write_is_recorded_and_run_continues `{Runtime R} {S : Type} `{!Supabase S}
    (cfg : Config) (VERSION_ID : string) (rep : Report) (r : R) (s : S)
    (hashtag_data : HashtagData) (rest : list HashtagData) :
  let trend_record := (prepare_record cfg VERSION_ID hashtag_data r).1.2 in
  let r2 := (prepare_record cfg VERSION_ID hashtag_data r).2 in
  store_write_fails trend_record ("#" +:+ hashtag hashtag_data) s ->
  let s1 := (save_to_supabase trend_record s).2 in
  let rep1 := note_failed rep (hashtag hashtag_data) "Database save failed" in
  (save_to_supabase trend_record s).1 = Returned false /\
  process_hashtag cfg VERSION_ID (rep, r, s) hashtag_data = (rep1, r2, s1) /\
  save_trends_loop cfg VERSION_ID (hashtag_data :: rest) (rep, r, s) =
    save_trends_loop cfg VERSION_ID rest (rep1, r2, s1) /\
  (forall before,
     report_adds_up
       (save_trends_to_database cfg VERSION_ID
          (before ++ hashtag_data :: rest) r s).1.1
       (len (before ++ hashtag_data :: rest))).
Proof.
  intros trend_record r2 Hfails s1 rep1.
  pose proof (prepare_record_hashtags cfg VERSION_ID hashtag_data r) as Hkey.
  fold trend_record in Hkey.
  pose proof (save_to_supabase_fails trend_record _ [] s Hkey Hfails) as Hsave.
  assert (Hstep : process_hashtag cfg VERSION_ID (rep, r, s) hashtag_data = (rep1, r2, s1)).
  { unfold process_hashtag. subst trend_record r2 s1.
    destruct (prepare_record cfg VERSION_ID hashtag_data r) as [[ed tr] r']. simpl in *.
    destruct (save_to_supabase tr s) as [out s']. simpl in *. by subst out. }
  split; [done | split; [done | split]].
  - unfold save_trends_loop. cbn [foldl]. by rewrite Hstep.
  - intros before. unfold save_trends_to_database.
    apply (save_trends_loop_adds_up cfg VERSION_ID _ empty_report r s 0).
    by unfold report_adds_up.
Qed.

(** ** Upsert writer on the table: what an update keeps and what it rewrites *)

Lemma table_update_frame u key rows :
  Forall2 (fun old new =>
             row_platform new = row_platform old /\
             topic_hashtag new = topic_hashtag old /\
             sentiment_polarity new = sentiment_polarity old /\
             sentiment_label new = sentiment_label old /\
             (topic_hashtag old <> key -> new = old) /\
             (topic_hashtag old = key ->
                row_engagement_score new = upd_engagement_score u /\
                posts new = upd_posts u /\
                row_views new = upd_views u /\
                metadata new = upd_metadata u /\
                scraped_at new = upd_scraped_at u /\
                version_id new = upd_version_id u))
          rows (table_update u key rows).
Proof.
  induction rows as [|row rows IH]; simpl; constructor; [| done].
  unfold key_is. destruct (String.eqb (topic_hashtag row) key) eqn:E; simpl.
  - apply eqb_string_eq in E. repeat split; try done.
  - assert (Hne : topic_hashtag row <> key).
    { intros Heq. by rewrite Heq, String.eqb_refl in E. }
    repeat split; done.
Qed.

(** In the update branch the stored [first_seen] of every row of the key
    becomes the record's own. *)
Lemma update_branch_rewrites_first_seen trend_record key rest (rows : list Row) row :
  hashtags trend_record = key :: rest ->
  row ∈ rows -> topic_hashtag row = key ->
  exists rows',
    save_to_supabase trend_record rows = (Returned true, rows') /\
    length rows' = length rows /\
    (forall row', row' ∈ rows' -> topic_hashtag row' = key ->
       md_first_seen (metadata row') = first_seen trend_record).
Proof.
  intros Hkey Hin Hrow. rewrite (save_to_supabase_table _ _ _ _ Hkey).
  assert (Hfound : In row (List.filter (key_is key) rows)).
  { apply List.filter_In. split; [by apply list_elem_of_In |].
    unfold key_is. by rewrite Hrow, String.eqb_refl. }
  destruct (List.filter (key_is key) rows) as [|found others]; [done |]. simpl.
  eexists. split; [done |]. split; [apply length_map |].
  intros row' Hin' Hrow'. unfold table_update in Hin'.
  apply list_elem_of_fmap in Hin' as (old & -> & Hold).
  destruct (key_is key old) eqn:E; [done |].
  unfold key_is in E. by rewrite Hrow', String.eqb_refl in E.
Qed.

(** C1, evaluated on the table: the record of [sunset] is saved at instant
    100 under version "run-1" and again at instant 200 under "run-2". The
    first save inserts one row whose [first_seen] is 100. The second save
    keeps one row, rewrites [scraped_at], [version_id] and [last_seen], and
    also replaces the stored [first_seen] 100 by 200. *)
Theorem second_upsert_overwrites_first_seen :
  let summary := estimate_without_posts sunset [] in
  let first_record := from_instagram_data default_config sunset summary "run-1" 100 in
  let second_record := from_instagram_data default_config sunset summary "run-2" 200 in
  exists row1 row2,
    save_to_supabase first_record [] = (Returned true, [row1]) /\
    md_first_seen (metadata row1) = Some 100 /\
    save_to_supabase second_record [row1] = (Returned true, [row2]) /\
    topic_hashtag row2 = "#sunset" /\
    scraped_at row2 = 200 /\
    version_id row2 = "run-2" /\
    md_last_seen (metadata row2) = Some 200 /\
    md_first_seen (metadata row2) = Some 200 /\
    md_first_seen (metadata row2) <> md_first_seen (metadata row1).
Proof.
  intros summary first_record second_record.
  exists (payload_of first_record "#sunset"), (payload_of second_record "#sunset").
  repeat split; done.
Qed.

(** ** Trend record builder *)

Lemma int_nonneg x : (0 <= value x)%Q -> 0 <= int x.
Proof.
  destruct x as [z | q]; simpl.
  - unfold Qle. simpl. lia.
  - unfold Qle. simpl. intros Hq. apply Z.quot_pos; lia.
Qed.

Lemma int_negative x : (value x <= inject_Z (-1))%Q -> int x <= -1.
Proof.
  destruct x as [z | [n d]]; unfold Qle; simpl.
  - lia.
  - intros Hq.
    assert (Hn : Z.pos d <= - n) by lia.
    rewrite <- (Z.opp_involutive n), Z.quot_opp_l by lia.
    pose proof (Z.quot_le_mono (Z.pos d) (- n) (Z.pos d) ltac:(lia) ltac:(lia)) as Hmono.
    rewrite Z.quot_same in Hmono by lia. lia.
Qed.

Lemma float_of_returns x q :
  float_of x = Returned q <-> in_float_range x /\ q = float x.
Proof.
  destruct x as [z | q0]; simpl.
  - destruct (Z.ltb_spec (Z.abs z) FLOAT_OVERFLOW); split.
    + intros [= <-]. by split.
    + by intros [_ ->].
    + done.
    + intros [? _]. lia.
  - split; [intros [= <-]; by split | by intros [_ ->]].
Qed.

(** What a returned record tells about the dictionaries, and back. *)
Lemma from_instagram_data_on_dicts_returns cfg hashtag_data engagement_data version_id now
    trend_record :
  from_instagram_data_on_dicts cfg hashtag_data engagement_data version_id now
    = Returned trend_record <->
  exists hashtag avg_likes avg_comments avg_views avg_engagement category frequency
         posts_count sample_posts total_engagement total_views,
    hd_hashtag hashtag_data = Some hashtag /\
    ed_avg_likes engagement_data = Some (Finite avg_likes) /\
    ed_avg_comments engagement_data = Some (Finite avg_comments) /\
    ed_avg_views engagement_data = Some (Finite avg_views) /\
    ed_avg_engagement engagement_data = Some avg_engagement /\
    in_float_range avg_engagement /\
    hd_category hashtag_data = Some category /\
    hd_frequency hashtag_data = Some frequency /\
    hd_posts_count hashtag_data = Some posts_count /\
    hd_sample_posts hashtag_data = Some sample_posts /\
    ed_total_engagement engagement_data = Some total_engagement /\
    ed_total_views engagement_data = Some total_views /\
    likes trend_record = int avg_likes /\
    comments trend_record = int avg_comments /\
    views trend_record = int avg_views /\
    engagement_score trend_record = float avg_engagement /\
    raw_blob trend_record =
      {| rb_category := category;
         rb_frequency := frequency;
         rb_posts_count := posts_count;
         rb_sample_posts := sample_posts;
         rb_discovery_method := "explore_page";
         rb_avg_likes := avg_likes;
         rb_avg_comments := avg_comments;
         rb_total_engagement := total_engagement;
         rb_total_views := total_views;
         rb_video_count := default 0 (ed_video_count engagement_data);
         rb_posts_analyzed := POSTS_PER_HASHTAG cfg;
         rb_total_posts_scanned := POSTS_TO_SCAN cfg;
         rb_scroll_count := SCROLL_COUNT cfg;
         rb_min_frequency_threshold := MIN_HASHTAG_FREQUENCY cfg;
         rb_discovered_at := now |} /\
    from_instagram_data_on_dicts cfg hashtag_data engagement_data version_id now
      = Returned trend_record.
Proof.
  split; [| by intros (? & ? & ? & ? & ? & ? & ? & ? & ? & ? & ? & H); apply H].
  intros Hret. pose proof Hret as Hsame. revert Hret.
  unfold from_instagram_data_on_dicts.
  destruct (hd_hashtag hashtag_data) as [hashtag |]; [simpl | done].
  destruct (ed_avg_likes engagement_data) as [[avg_likes | |] |]; [simpl | done..].
  destruct (ed_avg_comments engagement_data) as [[avg_comments | |] |]; [simpl | done..].
  destruct (ed_avg_views engagement_data) as [[avg_views | |] |]; [simpl | done..].
  destruct (ed_avg_engagement engagement_data) as [avg_engagement |]; [simpl | done].
  destruct (float_of avg_engagement) as [score | msg] eqn:Hscore; [simpl | done].
  apply float_of_returns in Hscore as [Hrange ->].
  destruct (hd_category hashtag_data) as [category |]; [simpl | done].
  destruct (hd_frequency hashtag_data) as [frequency |]; [simpl | done].
  destruct (hd_posts_count hashtag_data) as [posts_count |]; [simpl | done].
  destruct (hd_sample_posts hashtag_data) as [sample_posts |]; [simpl | done].
  destruct (ed_total_engagement engagement_data) as [total_engagement |]; [simpl | done].
  destruct (ed_total_views engagement_data) as [total_views |]; [simpl | done].
  intros [= <-]. simpl.
  by exists hashtag, avg_likes, avg_comments, avg_views, avg_engagement, category,
    frequency, posts_count, sample_posts, total_engagement, total_views.
Qed.

(** On the dictionaries of a run, within the range of floats, the builder
    on dictionaries returns the record of [from_instagram_data]. *)
Lemma from_instagram_data_of_run cfg hashtag_data engagement_data version_id now :
  in_float_range (avg_engagement engagement_data) ->
  from_instagram_data_on_dicts cfg (hashtag_dict hashtag_data)
    (engagement_dict engagement_data) version_id now =
  Returned (from_instagram_data cfg hashtag_data engagement_data version_id now).
Proof.
  intros Hrange. unfold from_instagram_data_on_dicts. simpl.
  destruct (float_of (avg_engagement engagement_data)) as [score | msg] eqn:Hscore.
  - by apply float_of_returns in Hscore as [_ ->].
  - destruct (avg_engagement engagement_data) as [z | q]; simpl in *; [| done].
    destruct (Z.ltb_spec (Z.abs z) FLOAT_OVERFLOW); [done | lia].
Qed.

(** C8, refuted as stated: the observation with negative counts violates
    the field constraints, yet the builder returns a record for it, with
    the negative values copied in, and the run saves that record and
    reports one success and no failure. *)
Lemma builder_accepts_negative_counts :
  let summary := (analyze_hashtag_engagement default_config negative_observation
                    quiet_script).1 in
  let outcome :=
    from_instagram_data_on_dicts default_config (hashtag_dict negative_observation)
      (engagement_dict summary) "run-1" 100 in
  (field_constraints (hashtag_dict negative_observation) (engagement_dict summary)
   -> False) /\
  (exists trend_record,
     outcome = Returned trend_record /\
     likes trend_record = -3000 /\
     comments trend_record = -150 /\
     rb_frequency (raw_blob trend_record) = -3 /\
     rb_posts_count (raw_blob trend_record) = -1) /\
  (exists r' rows,
     save_trends_to_database default_config "run-1" [negative_observation]
       quiet_script ([] : list Row)
     = ({| successful := 1; failed := 0;
           saved_hashtags := [(negative_observation, summary)];
           errors := [] |}, r', rows) /\
     map posts rows = [-1]).
Proof.
  intros summary outcome. split; [| split].
  - intros (Hf & _). simpl in Hf. lia.
  - eexists. split; [reflexivity | by repeat split].
  - eexists _, _. split; reflexivity.
Qed.

(** C8, as the code has it: the builder checks no field constraint. It
    returns a record exactly when the dictionaries carry the keys it reads
    (all but [video_count]), the averages of likes, comments and views are
    finite, and the engagement average is within the range of floats;
    whether counts are negative plays no part. In the record it returns the
    counts are the ones of the observation, an average of at most -1 gives a
    negative [likes], [comments] or [views], and when the field constraints
    hold these three and the [engagement_score] are not negative. *)
Theorem from_instagram_data_checks_no_constraint (cfg : Config)
    (hashtag_data : HashtagDict) (engagement_data : EngagementDict)
    (version_id : string) (now : datetime) :
  let outcome :=
    from_instagram_data_on_dicts cfg hashtag_data engagement_data version_id now in
  ((exists trend_record, outcome = Returned trend_record) <->
   builder_accepts hashtag_data engagement_data) /\
  (forall trend_record, outcome = Returned trend_record ->
     hd_frequency hashtag_data = Some (rb_frequency (raw_blob trend_record)) /\
     hd_posts_count hashtag_data = Some (rb_posts_count (raw_blob trend_record)) /\
     (at_most (-1) (ed_avg_likes engagement_data) -> likes trend_record <= -1) /\
     (at_most (-1) (ed_avg_comments engagement_data) -> comments trend_record <= -1) /\
     (at_most (-1) (ed_avg_views engagement_data) -> views trend_record <= -1) /\
     (field_constraints hashtag_data engagement_data ->
      0 <= likes trend_record /\ 0 <= comments trend_record /\
      0 <= views trend_record /\ (0 <= engagement_score trend_record)%Q)).
Proof.
  intros outcome. subst outcome. split; [split |].
  - intros (trend_record & Hret).
    apply from_instagram_data_on_dicts_returns in Hret
      as (h & al & ac & av & ae & c & f & pc & sp & te & tv & Hh & Hal & Hac & Hav & Hae &
          Hrange & Hc & Hf & Hpc & Hsp & Hte & Htv & _).
    unfold builder_accepts, finite_entry.
    rewrite Hh, Hal, Hac, Hav, Hae, Hc, Hf, Hpc, Hsp, Hte, Htv.
    repeat split; by eexists.
  - intros ([h Hh] & [c Hc] & [f Hf] & [pc Hpc] & [sp Hsp] & [al Hal] & [ac Hac] &
            [av Hav] & (ae & Hae & Hrange) & [te Hte] & [tv Htv]).
    unfold from_instagram_data_on_dicts.
    rewrite Hh, Hal, Hac, Hav, Hae, Hc, Hf, Hpc, Hsp, Hte, Htv. simpl.
    destruct (float_of ae) as [score | msg] eqn:Hscore; [by eexists |].
    destruct ae as [z | q]; simpl in *; [| done].
    destruct (Z.ltb_spec (Z.abs z) FLOAT_OVERFLOW); [done | lia].
  - intros trend_record Hret.
    apply from_instagram_data_on_dicts_returns in Hret
      as (h & al & ac & av & ae & c & f & pc & sp & te & tv & Hh & Hal & Hac & Hav & Hae &
          Hrange & Hc & Hf & Hpc & Hsp & Hte & Htv & Hl & Hcm & Hv & Hs & Hblob & _).
    rewrite Hblob, Hl, Hcm, Hv, Hs, Hf, Hpc. simpl.
    split; [done |]. split; [done |].
    split; [| split; [| split]].
    + intros (x & Hx & Hle). rewrite Hal in Hx. injection Hx as <-.
      by apply int_negative.
    + intros (x & Hx & Hle). rewrite Hac in Hx. injection Hx as <-.
      by apply int_negative.
    + intros (x & Hx & Hle). rewrite Hav in Hx. injection Hx as <-.
      by apply int_negative.
    + unfold field_constraints. rewrite Hal, Hac, Hav, Hae. simpl.
      intros (_ & _ & Hnl & Hnc & Hnv & Hne & _).
      repeat split; try by apply int_nonneg. done.
Qed.

(** What makes the builder raise has nothing to do with the sign of a
    count: a missing key, a [nan], an infinity, an int beyond the floats. *)
Example builder_raises_on_conversions :
  let good := engagement_dict (estimate_without_posts sunset []) in
  let build engagement_data :=
    from_instagram_data_on_dicts default_config (hashtag_dict sunset) engagement_data
      "run-1" 100 in
  build {| ed_avg_likes := ed_avg_likes good; ed_avg_comments := None;
           ed_avg_views := ed_avg_views good;
           ed_avg_engagement := ed_avg_engagement good;
           ed_total_engagement := ed_total_engagement good;
           ed_total_views := ed_total_views good;
           ed_video_count := ed_video_count good |}
    = Raised "'avg_comments'" /\
  build {| ed_avg_likes := Some NaN; ed_avg_comments := ed_avg_comments good;
           ed_avg_views := ed_avg_views good;
           ed_avg_engagement := ed_avg_engagement good;
           ed_total_engagement := ed_total_engagement good;
           ed_total_views := ed_total_views good;
           ed_video_count := ed_video_count good |}
    = Raised "cannot convert float NaN to integer" /\
  build {| ed_avg_likes := ed_avg_likes good; ed_avg_comments := ed_avg_comments good;
           ed_avg_views := Some (Infinity false);
           ed_avg_engagement := ed_avg_engagement good;
           ed_total_engagement := ed_total_engagement good;
           ed_total_views := ed_total_views good;
           ed_video_count := ed_video_count good |}
    = Raised "cannot convert float infinity to integer" /\
  build {| ed_avg_likes := ed_avg_likes good; ed_avg_comments := ed_avg_comments good;
           ed_avg_views := ed_avg_views good;
           ed_avg_engagement := Some (Int (2 ^ 1024));
           ed_total_engagement := ed_total_engagement good;
           ed_total_views := ed_total_views good;
           ed_video_count := ed_video_count good |}
    = Raised "int too large to convert to float" /\
  (exists trend_record,
     build {| ed_avg_likes := ed_avg_likes good; ed_avg_comments := ed_avg_comments good;
              ed_avg_views := ed_avg_views good;
              ed_avg_engagement := ed_avg_engagement good;
              ed_total_engagement := ed_total_engagement good;
              ed_total_views := ed_total_views good;
              ed_video_count := None |}
       = Returned trend_record /\
     rb_video_count (raw_blob trend_record) = 0).
Proof.
  repeat split; try by vm_compute.
  eexists. split; [by vm_compute | done].
Qed.

(** ** Worked runs *)

Example discover_sunset :
  discover_trending_hashtags sunset_config (Returned sunset_page) =
  [ {| hashtag := "sunset"; frequency := 3; posts_count := 3;
       sample_posts := ["/p/a/"; "/p/b/"; "/p/c/"]; category := "general" |} ].
Proof. reflexivity. Qed.

Example discover_year_page :
  map hashtag (discover_trending_hashtags default_config (Returned year_page)) =
  ["beach"; "yoga"].
Proof. reflexivity. Qed.

(** The year tag of [year_page], made of digits only, is met three times
    and counted under no key. *)
Example year_tag_is_not_counted :
  raw_stream year_page = ["2024"; "beach"; "2024"; "yoga"; "2024"] /\
  within_bounds (raw_stream year_page) = ["beach"; "yoga"] /\
  (tally_posts year_page).1 = [("beach", 1); ("yoga", 1)].
Proof. repeat split. Qed.

(** The ranking of [year_page] under the default settings. *)
Lemma discover_ranked_by_frequency_witness :
  0 <= TOP_HASHTAGS_TO_SAVE default_config /\
  exists ranked,
    map hashtag (discover_trending_hashtags default_config (Returned year_page)) =
      take (Z.to_nat (TOP_HASHTAGS_TO_SAVE default_config)) ranked /\
    NoDup ranked /\
    (forall tag,
       tag ∈ ranked <->
       tag ∈ observed_stream (slice_to (POSTS_TO_SCAN default_config) year_page) /\
       MIN_HASHTAG_FREQUENCY default_config <=
         occurrences tag
           (observed_stream (slice_to (POSTS_TO_SCAN default_config) year_page))) /\
    StronglySorted
      (ranked_above (observed_stream (slice_to (POSTS_TO_SCAN default_config) year_page)))
      ranked /\
    Forall (fun d => frequency d =
                     occurrences (hashtag d)
                       (observed_stream (slice_to (POSTS_TO_SCAN default_config) year_page)))
           (discover_trending_hashtags default_config (Returned year_page)).
Proof.
  split; [simpl; lia |].
  apply (discover_ranked_by_frequency default_config year_page). simpl. lia.
Defined.

(** Frequency 4 gives 4000 likes and 200 comments. *)
Lemma analyze_without_sample_posts_witness :
  sample_posts four_times = [] /\
  let summary := (analyze_hashtag_engagement default_config four_times quiet_script).1 in
  avg_likes summary = Int 4000 /\
  avg_comments summary = Int 200 /\
  avg_engagement summary = Int 4200 /\
  avg_views summary = Int 80000 /\
  total_views summary = Int 80000 /\
  video_count summary = 0 /\
  (analyze_hashtag_engagement default_config four_times quiet_script).2 = quiet_script.
Proof.
  split; [reflexivity |].
  apply (analyze_without_sample_posts default_config four_times quiet_script).
  reflexivity.
Defined.

(** The two reels are averaged: (5000 + 7000) / 2. *)
Lemma analyze_averages_video_views_witness :
  fetched_samples (slice_to (POSTS_PER_HASHTAG default_config) (sample_posts three_posts))
    video_script = ([photo; reel 5000; reel 7000], video_script) /\
  (exists sample, sample ∈ [photo; reel 5000; reel 7000] /\ pe_is_video sample = true) /\
  let summary := (analyze_hashtag_engagement default_config three_posts video_script).1 in
  avg_views summary = Float (Qmake 12000 2) /\
  total_views summary = Int 12000 /\
  video_count summary = 2 /\
  (analyze_hashtag_engagement default_config three_posts video_script).2 = video_script.
Proof.
  assert (Hvideo : exists sample,
            sample ∈ [photo; reel 5000; reel 7000] /\ pe_is_video sample = true).
  { exists (reel 5000). split; [right; left | reflexivity]. }
  split; [reflexivity | split; [exact Hvideo |]].
  exact (analyze_averages_video_views default_config three_posts video_script
           [photo; reel 5000; reel 7000] video_script eq_refl Hvideo).
Defined.

(** A run over three hashtags of which the second cannot be written: it is
    counted and listed as failed, and the third is still saved. *)
Example run_with_rejected_write :
  let '(rep, _, rows) :=
    @save_trends_to_database Script _ (list Row) no_beach_store default_config "run-1"
      [sunset; beach; sunrise] quiet_script [] in
  successful rep = 2 /\
  failed rep = 1 /\
  errors rep = [("beach", "Database save failed")] /\
  map (fun saved => hashtag saved.1) (saved_hashtags rep) = ["sunset"; "sunrise"] /\
  map topic_hashtag rows = ["#sunset"; "#sunrise"].
Proof. repeat split. Qed.

(** The rejected write of [beach], followed by [sunrise]. *)
Lemma failed_write_is_recorded_and_run_continues_witness :
  let trend_record := (prepare_record default_config "run-1" beach quiet_script).1.2 in
  let r2 := (prepare_record default_config "run-1" beach quiet_script).2 in
  @store_write_fails (list Row) no_beach_store trend_record ("#" +:+ hashtag beach) [] /\
  let s1 := (@save_to_supabase (list Row) no_beach_store trend_record []).2 in
  let rep1 := note_failed empty_report (hashtag beach) "Database save failed" in
  (@save_to_supabase (list Row) no_beach_store trend_record []).1 = Returned false /\
  @process_hashtag Script _ (list Row) no_beach_store default_config "run-1"
    (empty_report, quiet_script, []) beach = (rep1, r2, s1) /\
  @save_trends_loop Script _ (list Row) no_beach_store default_config "run-1"
    (beach :: [sunrise]) (empty_report, quiet_script, []) =
  @save_trends_loop Script _ (list Row) no_beach_store default_config "run-1"
    [sunrise] (rep1, r2, s1) /\
  (forall before,
     report_adds_up
       (@save_trends_to_database Script _ (list Row) no_beach_store default_config "run-1"
          (before ++ beach :: [sunrise]) quiet_script []).1.1
       (len (before ++ beach :: [sunrise]))).
Proof.
  intros trend_record r2.
  assert (Hfails : @store_write_fails (list Row) no_beach_store trend_record
                     ("#" +:+ hashtag beach) []) by exact I.
  split; [exact Hfails |].
  exact (@failed_write_is_recorded_and_run_continues Script _ (list Row) no_beach_store
           default_config "run-1" empty_report quiet_script [] beach [sunrise] Hfails).
Defined.

(** With photos only, [avg_views] is the mean engagement times the factor
    drawn from the random source. *)
Example analyze_photo_only :
  avg_views (analyze_hashtag_engagement default_config one_photo photo_script).1 =
  Float (Qmult (Qmake 930 1) 20).
Proof. reflexivity. Qed.

(** A run against a store that cannot be reached: every hashtag is counted
    as failed, none stops the loop. *)
Example run_with_unreachable_store :
  let '(rep, _, _) :=
    @save_trends_to_database Script _ unit unreachable_store default_config "run-1"
      [sunset; beach; sunrise] quiet_script () in
  successful rep = 0 /\
  failed rep = 3 /\
  errors rep = [("sunset", "Database save failed"); ("beach", "Database save failed");
                ("sunrise", "Database save failed")].
Proof. repeat split. Qed.

(* ===================================================================== *)
(** * Further properties *)
(* ===================================================================== *)

(** ** Hashtag extraction *)

Lemma str_app_assoc (a b c : string) : (a +:+ b) +:+ c = a +:+ (b +:+ c).
Proof. induction a as [|x a IH]; [done |]. by rewrite !str_app_cons, IH. Qed.

Lemma str_app_empty_r (a : string) : a +:+ EmptyString = a.
Proof. induction a as [|x a IH]; [done |]. by rewrite str_app_cons, IH. Qed.

Lemma is_hash_spec c : is_hash c = true -> c = "#"%char.
Proof.
  unfold is_hash. intros Hc. apply Nat.eqb_eq in Hc.
  rewrite <- (ascii_nat_embedding c), Hc. reflexivity.
Qed.

Lemma str_app_snoc (a : string) c (b : string) :
  a +:+ String c b = (a +:+ String c EmptyString) +:+ b.
Proof. by rewrite str_app_assoc, str_app_cons, str_app_nil. Qed.

(** The scan keeps, behind the text consumed so far, the [#] and the run it
    is collecting; what it emits stands in the text behind a [#]. *)
Lemma scan_hashtags_follow_hash text cur consumed tag :
  (forall w, cur = Some w -> exists before, consumed = before +:+ "#" +:+ w) ->
  tag ∈ scan_hashtags text cur ->
  tag <> EmptyString /\ substring_of ("#" +:+ tag) (consumed +:+ text).
Proof.
  assert (Hemit : forall cur consumed text,
            (forall w, cur = Some w -> exists before, consumed = before +:+ "#" +:+ w) ->
            tag ∈ emit_run cur ->
            tag <> EmptyString /\ substring_of ("#" +:+ tag) (consumed +:+ text)).
  { intros [[|c w] |] consumed0 text0 Hcur Hin; simpl in Hin;
      try by apply elem_of_nil in Hin.
    apply list_elem_of_singleton in Hin as ->. split; [done |].
    destruct (Hcur _ eq_refl) as [before ->].
    exists before, text0. by rewrite !str_app_assoc. }
  revert cur consumed. induction text as [|c rest IH]; intros cur consumed Hcur; simpl.
  { by apply Hemit. }
  assert (Hnext : forall w, (if is_hash c then Some EmptyString else None) = Some w ->
            exists before, consumed +:+ String c EmptyString = before +:+ "#" +:+ w).
  { intros w. destruct (is_hash c) eqn:Hc; [| done]. intros [= <-].
    apply is_hash_spec in Hc as ->. by exists consumed. }
  rewrite (str_app_snoc consumed c rest).
  destruct cur as [w |]; [| by apply IH].
  destruct (is_word_ascii c) eqn:Hc.
  - apply IH. intros w' [= <-]. destruct (Hcur w eq_refl) as [before ->].
    exists before. by rewrite !str_app_assoc.
  - rewrite elem_of_app. intros [Hin | Hin]; [| by eapply IH].
    rewrite <- (str_app_snoc consumed c rest). by apply (Hemit (Some w)).
Qed.

(** X1: every tag [findall_hashtags] extracts from a caption is non-empty
    and stands in the caption directly behind a [#]. *)
Theorem findall_hashtags_follow_hash (alt_text : string) :
  Forall (fun tag => tag <> EmptyString /\ substring_of ("#" +:+ tag) alt_text)
         (findall_hashtags alt_text).
Proof.
  apply Forall_forall. intros tag Htag.
  rewrite <- (str_app_nil alt_text).
  by apply (scan_hashtags_follow_hash alt_text None EmptyString).
Qed.

Lemma scan_hashtags_run w rest acc :
  all_word w = true ->
  scan_hashtags (w +:+ rest) (Some acc) = scan_hashtags rest (Some (acc +:+ w)).
Proof.
  revert acc. induction w as [|c w IH]; intros acc Hw.
  - by rewrite str_app_nil, str_app_empty_r.
  - simpl in Hw. apply andb_true_iff in Hw as [Hc Hw].
    rewrite str_app_cons. simpl. rewrite Hc, (IH _ Hw), str_app_assoc.
    by rewrite str_app_cons, str_app_nil.
Qed.

(** X2: a caption that lists tags, each a non-empty run of word characters
    behind a [#] and followed by a blank, is read back as exactly those
    tags, in order and with repetitions. *)
Theorem findall_hashtags_reads_back (tags : list string) :
  Forall word_string tags ->
  findall_hashtags (hashtag_line tags) = tags.
Proof.
  unfold findall_hashtags. induction 1 as [|tag tags [Hne Hword] _ IH]; [done |].
  change (hashtag_line (tag :: tags))
    with (String "#" (tag +:+ String " " (hashtag_line tags))).
  change (scan_hashtags (String "#" (tag +:+ String " " (hashtag_line tags))) None)
    with (scan_hashtags (tag +:+ String " " (hashtag_line tags)) (Some EmptyString)).
  rewrite (scan_hashtags_run _ _ _ Hword), str_app_nil.
  change (scan_hashtags (String " " (hashtag_line tags)) (Some tag))
    with (emit_run (Some tag) ++ scan_hashtags (hashtag_line tags) None).
  rewrite IH. by destruct tag.
Qed.

(** The caption of three tags, one of them twice. *)
Lemma findall_hashtags_reads_back_witness :
  Forall word_string ["Sunset"; "beach_2024"; "Sunset"] /\
  findall_hashtags (hashtag_line ["Sunset"; "beach_2024"; "Sunset"]) =
  ["Sunset"; "beach_2024"; "Sunset"].
Proof.
  assert (Hwords : Forall word_string ["Sunset"; "beach_2024"; "Sunset"]).
  { repeat constructor; discriminate. }
  split; [exact Hwords |].
  exact (findall_hashtags_reads_back ["Sunset"; "beach_2024"; "Sunset"] Hwords).
Defined.

(** ** Discovery collector: the returned entries *)

Lemma lower_ascii_idem c : lower_ascii (lower_ascii c) = lower_ascii c.
Proof. by destruct c as [[] [] [] [] [] [] [] []]. Qed.

Lemma lower_idem s : lower (lower s) = lower s.
Proof. induction s as [|c s IH]; simpl; [done |]. by rewrite lower_ascii_idem, IH. Qed.


Lemma tally_tag_balanced post_url st tag :
  tally_balanced st -> tally_balanced (tally_tag post_url st tag).
Proof.
  intros Hbal. unfold tally_tag. destruct (tag_accepted tag); [| done].
  intros key. simpl. rewrite counter_get_incr.
  destruct (decide (lower tag = key)) as [<- | Hne].
  - rewrite lookup_insert_eq, String.eqb_refl. simpl.
    specialize (Hbal (lower tag)). unfold len in *. rewrite length_app. simpl. lia.
  - rewrite lookup_insert_ne by done.
    destruct (String.eqb (lower tag) key) eqn:E.
    + apply eqb_string_eq in E. done.
    + rewrite Z.add_0_r. apply Hbal.
Qed.

Lemma tally_posts_balanced post_links : tally_balanced (tally_posts post_links).
Proof.
  unfold tally_posts.
  assert (Hloop : forall st, tally_balanced st ->
                    tally_balanced (foldl tally_post st post_links)).
  { induction post_links as [|p ps IH]; intros st Hst; simpl; [done |].
    apply IH. destruct p as [pl | msg]; simpl; [| done].
    unfold tally_tags. generalize (findall_hashtags (default EmptyString (alt pl))).
    intros tags. revert st Hst.
    induction tags as [|t ts IHt]; intros st Hst; simpl; [done |].
    by apply IHt, tally_tag_balanced. }
  apply Hloop. intros key. unfold empty_tally. simpl. by rewrite lookup_empty.
Qed.

Lemma tally_traced_mono post_links more st :
  tally_traced post_links st -> tally_traced (post_links ++ more) st.
Proof.
  intros Htr key posts_using Hkey. eapply Forall_impl; [by apply Htr |].
  intros url (pl & Hin & Hhref & Htag). exists pl. split; [| done].
  apply elem_of_app. by left.
Qed.

Lemma tally_tags_traced post_links pl tags st :
  Returned pl ∈ post_links ->
  (forall t, t ∈ tags -> t ∈ findall_hashtags (default EmptyString (alt pl))) ->
  tally_traced post_links st ->
  tally_traced post_links (tally_tags (href pl) tags st).
Proof.
  intros Hpl. unfold tally_tags. revert st.
  induction tags as [|t ts IH]; intros st Hsub Htr; simpl; [done |].
  apply IH; [intros t' Ht'; apply Hsub; by right |].
  unfold tally_tag. destruct (tag_accepted t) eqn:Hacc; [| done].
  intros key posts_using. simpl.
  destruct (decide (lower t = key)) as [<- | Hne].
  - rewrite lookup_insert_eq. intros [= <-]. apply Forall_app. split.
    + destruct (st.2 !! lower t) as [l |] eqn:Hl; simpl; [by eapply Htr | constructor].
    + constructor; [| constructor]. exists pl. split; [done | split; [done |]].
      simpl. unfold accepted_tags. apply list_elem_of_In, List.in_map.
      apply List.filter_In. split; [| done]. apply list_elem_of_In, Hsub. left.
  - rewrite lookup_insert_ne by done. apply Htr.
Qed.

Lemma tally_posts_traced post_links : tally_traced post_links (tally_posts post_links).
Proof.
  unfold tally_posts.
  assert (Hloop : forall seen rest st,
            tally_traced seen st -> tally_traced (seen ++ rest) (foldl tally_post st rest)).
  { intros seen rest. revert seen.
    induction rest as [|p ps IH]; intros seen st Hst; simpl.
    - by rewrite app_nil_r.
    - rewrite (cons_middle p seen ps), app_assoc. apply IH.
      destruct p as [pl | msg]; simpl.
      + apply tally_tags_traced.
        * apply elem_of_app. right. left.
        * done.
        * by apply tally_traced_mono.
      + by apply tally_traced_mono. }
  apply (Hloop [] post_links). intros key posts_using. unfold empty_tally. simpl.
  by rewrite lookup_empty.
Qed.

Lemma build_entries_fields cfg st tags entries :
  build_entries cfg st tags = Returned entries ->
  Forall (fun d =>
            hashtag d ∈ tags /\
            frequency d = counter_get st.1 (hashtag d) /\
            category d = categorize_hashtag (hashtag d) /\
            exists posts_using,
              st.2 !! hashtag d = Some posts_using /\
              posts_count d = len posts_using /\
              sample_posts d = slice_to (POSTS_PER_HASHTAG cfg) posts_using)
         entries.
Proof.
  revert entries. induction tags as [|tag rest IH]; intros entries; simpl.
  - intros [= <-]. constructor.
  - unfold build_entry. destruct (st.2 !! tag) as [posts_using |] eqn:Hposts; [| done].
    destruct (build_entries cfg st rest) as [ds | msg]; [| done].
    intros [= <-]. constructor.
    + simpl. split; [left | split; [done | split; [done |]]]. by exists posts_using.
    + eapply Forall_impl; [by apply IH |]. intros d (Hin & Hrest). split; [by right | done].
Qed.

(** What every entry returned for a readable page satisfies, in terms of
    the tally of the scanned posts. *)
Lemma discover_entries cfg all_links :
  let st := tally_posts (slice_to (POSTS_TO_SCAN cfg) all_links) in
  Forall (fun d =>
            hashtag d ∈ top_hashtags_of cfg st.1 /\
            frequency d = counter_get st.1 (hashtag d) /\
            category d = categorize_hashtag (hashtag d) /\
            exists posts_using,
              st.2 !! hashtag d = Some posts_using /\
              posts_count d = len posts_using /\
              sample_posts d = slice_to (POSTS_PER_HASHTAG cfg) posts_using)
         (discover_trending_hashtags cfg (Returned all_links)).
Proof.
  intros st. unfold discover_trending_hashtags. fold st.
  destruct (top_hashtags_of cfg st.1) as [|t ts] eqn:Htop; [constructor |].
  destruct (build_entries cfg st (t :: ts)) as [entries | msg] eqn:Hbuild; [| constructor].
  by apply build_entries_fields.
Qed.





Lemma len_slice_to {A} n (l : list A) : 0 <= n -> len (slice_to n l) = Z.min n (len l).
Proof.
  intros Hn. unfold slice_to, len. rewrite (proj2 (Z.leb_le _ _) Hn), length_take. lia.
Qed.

(** X4: with a non-negative [POSTS_PER_HASHTAG], every returned entry keeps
    exactly min([POSTS_PER_HASHTAG], frequency) sample posts. *)
Theorem discover_sample_count (cfg : Config) (explore : result (list (result PostLink))) :
  0 <= POSTS_PER_HASHTAG cfg ->
  Forall (fun d => len (sample_posts d) = Z.min (POSTS_PER_HASHTAG cfg) (frequency d))
         (discover_trending_hashtags cfg explore).
Proof.
  intros Hn. destruct explore as [all_links | msg]; [| constructor].
  eapply Forall_impl; [apply discover_entries |].
  intros d (_ & Hfreq & _ & posts_using & Hposts & _ & Hsample). simpl in *.
  pose proof (tally_posts_balanced (slice_to (POSTS_TO_SCAN cfg) all_links) (hashtag d))
    as Hbal.
  rewrite Hposts in Hbal. simpl in Hbal.
  by rewrite Hsample, len_slice_to, Hbal, Hfreq.
Qed.

(** The entries of [year_page] under the default settings. *)
Lemma discover_sample_count_witness :
  0 <= POSTS_PER_HASHTAG default_config /\
  Forall (fun d => len (sample_posts d) =
                   Z.min (POSTS_PER_HASHTAG default_config) (frequency d))
         (discover_trending_hashtags default_config (Returned year_page)).
Proof.
  split; [simpl; lia |].
  apply (discover_sample_count default_config (Returned year_page)). simpl. lia.
Defined.

(** X5: every sample post of a returned entry is the address of a readable
    post among those scanned whose caption carries an accepted tag that
    normalizes to the entry's hashtag. *)
Theorem discover_sample_posts_traced (cfg : Config) (all_links : list (result PostLink)) :
  Forall (fun d =>
            Forall (posted_with (slice_to (POSTS_TO_SCAN cfg) all_links) (hashtag d))
                   (sample_posts d))
         (discover_trending_hashtags cfg (Returned all_links)).
Proof.
  eapply Forall_impl; [apply discover_entries |].
  intros d (_ & _ & _ & posts_using & Hposts & _ & Hsample). simpl in *.
  apply (tally_posts_traced (slice_to (POSTS_TO_SCAN cfg) all_links)) in Hposts.
  rewrite Hsample. apply Forall_forall. intros url Hurl.
  apply slice_to_subseteq in Hurl. rewrite Forall_forall in Hposts. by apply Hposts.
Qed.

(** X6: a page that cannot be read yields the empty list; and when
    [MIN_HASHTAG_FREQUENCY] is at most 1 and [TOP_HASHTAGS_TO_SAVE] at
    least 1, a readable page yields the empty list exactly when none of
    the scanned posts carries an accepted tag. *)
Theorem discover_empty_iff_nothing_observed (cfg : Config)
    (all_links : list (result PostLink)) :
  MIN_HASHTAG_FREQUENCY cfg <= 1 ->
  1 <= TOP_HASHTAGS_TO_SAVE cfg ->
  (forall msg, discover_trending_hashtags cfg (Raised msg) = []) /\
  (discover_trending_hashtags cfg (Returned all_links) = [] <->
   observed_stream (slice_to (POSTS_TO_SCAN cfg) all_links) = []).
Proof.
  intros Hmin Htop. split; [done |].
  destruct (discover_returns cfg all_links) as [Hmap _].
  rewrite tally_posts_counter, top_hashtags_of_ranked in Hmap.
  set (stream := observed_stream (slice_to (POSTS_TO_SCAN cfg) all_links)) in *.
  split.
  - intros Hnil. rewrite Hnil in Hmap.
    change (map hashtag []) with (@nil string) in Hmap.
    destruct stream as [|t ts] eqn:Hs; [done | exfalso].
    assert (Hin : t ∈ ranked_tags cfg (count_stream (t :: ts))).
    { apply ranked_tags_elem. split; [left |].
      assert (0 < occurrences t (t :: ts)) by (apply occurrences_pos; left). lia. }
    unfold slice_to in Hmap. rewrite (proj2 (Z.leb_le 0 _)) in Hmap by lia.
    destruct (ranked_tags cfg (count_stream (t :: ts))) as [|x xs];
      [by apply elem_of_nil in Hin |].
    destruct (Z.to_nat (TOP_HASHTAGS_TO_SAVE cfg)) eqn:Hn; [lia | done].
  - intros Hnil. rewrite Hnil in Hmap.
    change (ranked_tags cfg (count_stream [])) with (@nil string) in Hmap.
    rewrite slice_to_nil in Hmap. by apply map_eq_nil in Hmap.
Qed.

(** A page whose captions carry no tag, under the default settings. *)
Lemma discover_empty_iff_nothing_observed_witness :
  MIN_HASHTAG_FREQUENCY default_config <= 1 /\
  1 <= TOP_HASHTAGS_TO_SAVE default_config /\
  (forall msg, discover_trending_hashtags default_config (Raised msg) = []) /\
  (discover_trending_hashtags default_config
     (Returned [post "no tags here" "/p/a/"; Raised "detached"]) = [] <->
   observed_stream (slice_to (POSTS_TO_SCAN default_config)
                      [post "no tags here" "/p/a/"; Raised "detached"]) = []).
Proof.
  split; [simpl; lia | split; [simpl; lia |]].
  apply (discover_empty_iff_nothing_observed default_config
           [post "no tags here" "/p/a/"; Raised "detached"]); simpl; lia.
Defined.

(** ** Categorizer: case and labels *)

Lemma scan_categories_label table s c :
  scan_categories table s = Some c -> c ∈ map fst table.
Proof.
  induction table as [|[c' kws] rest IH]; simpl; [done |].
  destruct (any_keyword_in kws s).
  - intros [= ->]. left.
  - intros Hc. right. by apply IH.
Qed.

(** X7: the categorizer ignores letter case (two spellings with the same
    lowercase form, and a tag and its lowercase form, get the same
    category) and always answers with one of the ten table labels or
    "general". *)
Theorem categorize_hashtag_case_and_labels (hashtag : string) :
  categorize_hashtag (lower hashtag) = categorize_hashtag hashtag /\
  (forall other, lower other = lower hashtag ->
                 categorize_hashtag other = categorize_hashtag hashtag) /\
  categorize_hashtag hashtag ∈ category_labels.
Proof.
  split; [| split].
  - unfold categorize_hashtag. by rewrite lower_idem.
  - intros other Heq. unfold categorize_hashtag. by rewrite Heq.
  - unfold categorize_hashtag, category_labels.
    destruct (scan_categories HASHTAG_CATEGORIES (lower hashtag)) as [c |] eqn:Hscan.
    + apply elem_of_app. left. by eapply scan_categories_label.
    + apply elem_of_app. right. left.
Qed.

(** ** Engagement aggregator: all branches *)

Lemma record_samples_engagement_nil samples :
  all_engagement (foldl record_sample no_samples samples) = [] <-> samples = [].
Proof.
  destruct (record_samples_fields no_samples samples) as (_ & _ & He & _).
  rewrite He. simpl. split; [apply map_eq_nil | by intros ->].
Qed.

(** The aggregator in terms of the samples it obtains. *)
Lemma analyze_by_samples `{Runtime R} cfg hashtag_data (r : R) :
  let posts := slice_to (POSTS_PER_HASHTAG cfg) (sample_posts hashtag_data) in
  analyze_hashtag_engagement cfg hashtag_data r =
  match posts with
  | [] => (estimate_without_posts hashtag_data [], r)
  | _ :: _ =>
      match (fetched_samples posts r).1 with
      | [] => (estimate_without_fetches hashtag_data, (fetched_samples posts r).2)
      | _ :: _ =>
          summarize posts (foldl record_sample no_samples (fetched_samples posts r).1)
                    (fetched_samples posts r).2
      end
  end.
Proof.
  intros posts. unfold analyze_hashtag_engagement. fold posts.
  destruct posts as [|u us]; [done |].
  rewrite sample_loop_fetched.
  destruct (fetched_samples (u :: us) r) as [samples r1]. simpl fst. simpl snd.
  pose proof (record_samples_engagement_nil samples) as Hnil.
  destruct samples as [|e es].
  - done.
  - destruct (all_engagement (foldl record_sample no_samples (e :: es))) eqn:E; [| done].
    discriminate (proj1 Hnil eq_refl).
Qed.

Lemma summarize_fields `{Runtime R} posts samples (r : R) :
  summarize posts (foldl record_sample no_samples samples) r =
  let mean l := truediv (sum l) (len l) in
  let '(views_avg, views_total, r1) :=
    match video_views samples with
    | [] =>
        let '(factor, r1) := random_uniform 15 25 r in
        let avg := Qmult (mean (map pe_total_engagement samples)) factor in
        (Float avg, Float (Qmult avg (inject_Z (len posts))), r1)
    | _ :: _ => (Float (mean (video_views samples)), Int (sum (video_views samples)), r)
    end in
  ({| avg_likes := Float (mean (map pe_likes samples));
      avg_comments := Float (mean (map pe_comments samples));
      avg_engagement := Float (mean (map pe_total_engagement samples));
      avg_views := views_avg;
      total_engagement := sum (map pe_total_engagement samples);
      total_views := views_total;
      video_count := len (video_views samples) |}, r1).
Proof.
  destruct (record_samples_fields no_samples samples) as (Hl & Hc & He & Hv & Hn).
  simpl in Hl, Hc, He, Hv, Hn. unfold summarize.
  by rewrite Hl, Hc, He, Hv, Hn, Z.add_0_l.
Qed.

Lemma len_map {A B} (f : A -> B) l : len (map f l) = len l.
Proof. unfold len. by rewrite length_map. Qed.

Lemma fetched_samples_length `{Runtime R} posts (r : R) :
  len (fetched_samples posts r).1 <= len posts.
Proof.
  unfold len. revert r. induction posts as [|u us IH]; intros r; simpl; [done |].
  destruct (get_post_engagement u r) as [[e | msg] r1].
  - specialize (IH (leave_post us r1)).
    destruct (fetched_samples us (leave_post us r1)) as [samples r2]. simpl in *. lia.
  - specialize (IH r1). lia.
Qed.

Lemma len_video_views samples : 0 <= len (video_views samples) <= len samples.
Proof.
  unfold video_views, len. rewrite length_map.
  pose proof (List.filter_length_le pe_is_video samples). lia.
Qed.

(** ** Engagement aggregator over the browser *)

Lemma browser_fetches_return {R : Type} (browser : Browser R) posts (r : R) :
  len (@fetched_samples R (browser_runtime browser) posts r).1 = len posts.
Proof.
  unfold len. revert r. induction posts as [|u us IH]; intros r; [done |].
  cbn [fetched_samples]. unfold get_post_engagement at 1. cbn [browser_runtime].
  destruct (Scraper.get_post_engagement u r) as [e r1].
  specialize (IH (@leave_post R (browser_runtime browser) us r1)).
  destruct (@fetched_samples R (browser_runtime browser) us
              (@leave_post R (browser_runtime browser) us r1)) as [samples r2].
  simpl in *. lia.
Qed.

(** C5, refuted as stated: a reel whose page shows no view count is fetched
    as a video sample, and the [avg_views] the aggregator returns for it is
    its engagement, 1240, times the factor drawn by [random.uniform(15, 25)]
    inside [get_post_engagement]: 18600 for the factor 15, 24800 for 20. *)
Lemma video_views_follow_the_random_factor :
  let fetched factor :=
    (@fetched_samples Stage (browser_runtime scripted_browser) ["/p/a/"]
       (reel_stage factor)).1 in
  let summary factor :=
    (@analyze_hashtag_engagement Stage (browser_runtime scripted_browser)
       default_config one_post (reel_stage factor)).1 in
  map pe_is_video (fetched 15%Q) = [true] /\
  map pe_is_video (fetched 20%Q) = [true] /\
  video_count (summary 15%Q) = 1 /\
  video_count (summary 20%Q) = 1 /\
  avg_views (summary 15%Q) = Float (Qmake 18600 1) /\
  avg_views (summary 20%Q) = Float (Qmake 24800 1) /\
  avg_views (summary 15%Q) <> avg_views (summary 20%Q).
Proof. repeat split. discriminate. Qed.

(** C10, refuted as stated: on a site where no post loads every fetch
    fails, yet the summary of an observation of frequency 4 is not the
    frequency-scaled one: [get_post_engagement] answers each failed fetch
    with random values (here the low ends 500, 20 and 520), and the
    aggregator averages those. *)
Lemma failed_fetches_yield_random_samples :
  let posts := slice_to (POSTS_PER_HASHTAG default_config) (sample_posts three_posts) in
  let summary :=
    (@analyze_hashtag_engagement Stage (browser_runtime scripted_browser)
       default_config three_posts offline_stage).1 in
  map (fun post_url =>
         (@goto Stage scripted_browser (INSTAGRAM_BASE_URL +:+ post_url) offline_stage).1)
      posts = [Raised "Timeout"; Raised "Timeout"; Raised "Timeout"] /\
  frequency three_posts * 1050 = 4200 /\
  total_engagement summary = 1560 /\
  avg_likes summary = Float (Qmake 1500 3) /\
  avg_comments summary = Float (Qmake 60 3) /\
  avg_engagement summary = Float (Qmake 1560 3) /\
  summary <> estimate_without_fetches three_posts.
Proof. repeat split. discriminate. Qed.

(** C10: over the browser the aggregator has one fallback that is taken,
    the one for an empty sample list, with [total_engagement] 0. With sample
    posts every fetch yields a sample (a fetch whose navigation fails yields
    the random one), so the list of engagements is as long as the list of
    posts, the second fallback is not taken, and the summary is computed
    from the samples. The dictionary of that second fallback differs from
    the first one's in [total_engagement] only, which it sets to the
    frequency times 1050. *)
Theorem second_fallback_is_never_taken {R : Type} (browser : Browser R) (cfg : Config)
    (hashtag_data : HashtagData) (r : R) :
  let rt := browser_runtime browser in
  let posts := slice_to (POSTS_PER_HASHTAG cfg) (sample_posts hashtag_data) in
  let samples := (@fetched_samples R rt posts r).1 in
  let summary := (@analyze_hashtag_engagement R rt cfg hashtag_data r).1 in
  len samples = len posts /\
  len (all_engagement (@sample_loop R rt posts no_samples r).1) = len posts /\
  (posts = [] ->
   summary = estimate_without_posts hashtag_data [] /\ total_engagement summary = 0) /\
  (posts <> [] ->
   total_engagement summary = sum (map pe_total_engagement samples) /\
   avg_likes summary = Float (truediv (sum (map pe_likes samples)) (len posts)) /\
   avg_comments summary = Float (truediv (sum (map pe_comments samples)) (len posts)) /\
   avg_engagement summary =
     Float (truediv (sum (map pe_total_engagement samples)) (len posts))) /\
  (forall post_url msg r0 r1,
     goto (if String.prefix "http" post_url then post_url
           else INSTAGRAM_BASE_URL +:+ post_url) r0 = (Raised msg, r1) ->
     Scraper.get_post_engagement post_url r0 = Scraper.random_engagement r1) /\
  (let a := estimate_without_posts hashtag_data [] in
   let b := estimate_without_fetches hashtag_data in
   total_engagement b = frequency hashtag_data * 1050 /\
   avg_likes a = avg_likes b /\ avg_comments a = avg_comments b /\
   avg_engagement a = avg_engagement b /\ avg_views a = avg_views b /\
   total_views a = total_views b /\ video_count a = video_count b).
Proof.
  intros rt posts samples summary.
  pose proof (browser_fetches_return browser posts r) as Hlen.
  fold rt in Hlen. fold samples in Hlen.
  assert (Heng : all_engagement (@sample_loop R rt posts no_samples r).1 =
                 map pe_total_engagement samples).
  { rewrite (@sample_loop_fetched R rt). simpl fst. fold samples.
    by destruct (record_samples_fields no_samples samples) as (_ & _ & -> & _). }
  split; [exact Hlen |]. split; [by rewrite Heng, len_map |].
  split; [| split; [| split; [| by repeat split]]].
  - intros Hnil. subst summary. rewrite (@analyze_by_samples R rt).
    fold posts. by rewrite Hnil.
  - intros Hne. subst summary. rewrite (@analyze_by_samples R rt). fold posts.
    subst samples. clear Heng.
    destruct (@fetched_samples R rt posts r) as [samples r1]. simpl fst in *. simpl snd.
    destruct posts as [|u us] eqn:Hposts; [done |]. rewrite <- Hposts in *.
    destruct samples as [|e es] eqn:Hs.
    { rewrite Hposts in Hlen. unfold len in Hlen. simpl in Hlen. lia. }
    rewrite <- Hs in *. rewrite (@summarize_fields R rt). cbv zeta beta.
    rewrite !len_map, Hlen.
    destruct (video_views samples); [| done].
    by destruct (@random_uniform R rt 15 25 r1).
  - intros post_url msg r0 r1 Hgoto. unfold Scraper.get_post_engagement.
    by rewrite Hgoto.
Qed.

(** X8: when at least one fetch returns, the averages are taken over the
    fetched samples only (a failed fetch is neither counted nor averaged
    in): [avg_likes], [avg_comments] and [avg_engagement] are the sums
    divided by the number of fetched samples, [total_engagement] is the sum
    of their engagements, and [video_count] is the number of video samples,
    which is at most the number of fetched samples, itself at most the
    number of sample posts. *)
Theorem analyze_averages_fetched_samples `{Runtime R} (cfg : Config)
    (hashtag_data : HashtagData) (r : R) (samples : list PostEngagement) (r' : R) :
  let posts := slice_to (POSTS_PER_HASHTAG cfg) (sample_posts hashtag_data) in
  fetched_samples posts r = (samples, r') ->
  samples <> [] ->
  let summary := (analyze_hashtag_engagement cfg hashtag_data r).1 in
  avg_likes summary = Float (truediv (sum (map pe_likes samples)) (len samples)) /\
  avg_comments summary = Float (truediv (sum (map pe_comments samples)) (len samples)) /\
  avg_engagement summary =
    Float (truediv (sum (map pe_total_engagement samples)) (len samples)) /\
  total_engagement summary = sum (map pe_total_engagement samples) /\
  video_count summary = len (List.filter pe_is_video samples) /\
  0 <= video_count summary <= len samples /\
  len samples <= len posts.
Proof.
  intros posts Hfetch Hne summary. subst summary.
  pose proof (fetched_samples_length posts r) as Hlen.
  rewrite analyze_by_samples. fold posts. rewrite Hfetch in *. simpl fst in *. simpl snd.
  destruct posts as [|u us] eqn:Hposts.
  { simpl in Hfetch. by injection Hfetch as <- _. }
  destruct samples as [|e es] eqn:Hs; [done |]. rewrite <- Hs in *.
  rewrite summarize_fields. cbv zeta.
  pose proof (len_video_views samples) as Hvideo.
  assert (Hvv : len (video_views samples) = len (List.filter pe_is_video samples)).
  { unfold video_views. apply len_map. }
  destruct (video_views samples) as [|v vs] eqn:Hviews.
  - destruct (random_uniform 15 25 r') as [factor r1]. simpl.
    rewrite !len_map. repeat split; try done; lia.
  - simpl. rewrite !len_map. repeat split; try done; lia.
Qed.

(** One photo and two reels, all three fetched. *)
Lemma analyze_averages_fetched_samples_witness :
  fetched_samples (slice_to (POSTS_PER_HASHTAG default_config) (sample_posts three_posts))
    video_script = ([photo; reel 5000; reel 7000], video_script) /\
  [photo; reel 5000; reel 7000] <> [] /\
  let summary := (analyze_hashtag_engagement default_config three_posts video_script).1 in
  avg_likes summary = Float (Qmake 3300 3) /\
  avg_comments summary = Float (Qmake 110 3) /\
  avg_engagement summary = Float (Qmake 3410 3) /\
  total_engagement summary = 3410 /\
  video_count summary = 2 /\
  0 <= video_count summary <= 3 /\
  3 <= 3.
Proof.
  assert (Hne : [photo; reel 5000; reel 7000] <> []) by discriminate.
  split; [reflexivity | split; [exact Hne |]].
  exact (analyze_averages_fetched_samples default_config three_posts video_script
           [photo; reel 5000; reel 7000] video_script eq_refl Hne).
Defined.

(** X9: when samples were fetched and none is flagged as video, the random
    source is asked once for a factor between 15 and 25; [avg_views] is the
    mean engagement of the fetched samples times that factor, and
    [total_views] is [avg_views] times the number of sample posts asked
    for, including those whose fetch failed; [video_count] is 0. *)
Theorem analyze_estimates_views_without_video `{Runtime R} (cfg : Config)
    (hashtag_data : HashtagData) (r : R) (samples : list PostEngagement) (r' : R) :
  let posts := slice_to (POSTS_PER_HASHTAG cfg) (sample_posts hashtag_data) in
  fetched_samples posts r = (samples, r') ->
  samples <> [] ->
  Forall (fun e => pe_is_video e = false) samples ->
  let summary := (analyze_hashtag_engagement cfg hashtag_data r).1 in
  let factor := (random_uniform 15 25 r').1 in
  let estimate :=
    Qmult (truediv (sum (map pe_total_engagement samples)) (len samples)) factor in
  avg_views summary = Float estimate /\
  total_views summary = Float (Qmult estimate (inject_Z (len posts))) /\
  video_count summary = 0 /\
  (analyze_hashtag_engagement cfg hashtag_data r).2 = (random_uniform 15 25 r').2.
Proof.
  intros posts Hfetch Hne Hphotos summary factor estimate.
  subst summary estimate factor.
  rewrite analyze_by_samples. fold posts. rewrite Hfetch. simpl fst. simpl snd.
  destruct posts as [|u us] eqn:Hposts.
  { simpl in Hfetch. by injection Hfetch as <- _. }
  destruct samples as [|e es] eqn:Hs; [done |]. rewrite <- Hs in *.
  rewrite summarize_fields. cbv zeta.
  assert (Hviews : video_views samples = []).
  { unfold video_views. clear -Hphotos.
    induction Hphotos as [|x l Hx _ IH]; [done |]. simpl. by rewrite Hx. }
  rewrite Hviews. destruct (random_uniform 15 25 r') as [factor r1]. simpl.
  by rewrite len_map.
Qed.

(** One photo, fetched; the scripted factor is 20. *)
Lemma analyze_estimates_views_without_video_witness :
  fetched_samples (slice_to (POSTS_PER_HASHTAG default_config) (sample_posts one_photo))
    photo_script = ([photo], photo_script) /\
  [photo] <> [] /\
  Forall (fun e => pe_is_video e = false) [photo] /\
  let summary := (analyze_hashtag_engagement default_config one_photo photo_script).1 in
  avg_views summary = Float (Qmult (Qmake 930 1) 20) /\
  total_views summary = Float (Qmult (Qmult (Qmake 930 1) 20) (inject_Z 1)) /\
  video_count summary = 0 /\
  (analyze_hashtag_engagement default_config one_photo photo_script).2 = photo_script.
Proof.
  assert (Hne : [photo] <> []) by discriminate.
  assert (Hphotos : Forall (fun e => pe_is_video e = false) [photo]).
  { repeat constructor. }
  split; [reflexivity | split; [exact Hne | split; [exact Hphotos |]]].
  exact (analyze_estimates_views_without_video default_config one_photo photo_script
           [photo] photo_script eq_refl Hne Hphotos).
Defined.

Lemma sum_nonneg l : Forall (fun z => 0 <= z) l -> 0 <= sum l.
Proof. induction 1 as [|z l Hz _ IH]; simpl; [done | lia]. Qed.

Lemma truediv_nonneg a b : 0 <= a -> (0 <= truediv a b)%Q.
Proof. intros Ha. unfold truediv, Qle. simpl. lia. Qed.

Lemma inject_Z_nonneg z : 0 <= z -> (0 <= inject_Z z)%Q.
Proof. intros Hz. unfold Qle. simpl. lia. Qed.

Lemma Forall_map_nonneg {A} (f : A -> Z) (P : A -> Prop) l :
  (forall x, P x -> 0 <= f x) -> Forall P l -> Forall (fun z => 0 <= z) (map f l).
Proof. intros Hf. induction 1; simpl; constructor; auto. Qed.

(** X10: the aggregator keeps values non-negative: if the frequency is not
    negative, no fetched sample has a negative field, and the random factor
    is not negative, then no field of the summary is negative, whichever
    branch produces it. *)
Theorem analyze_keeps_nonnegative `{Runtime R} (cfg : Config)
    (hashtag_data : HashtagData) (r : R) :
  let posts := slice_to (POSTS_PER_HASHTAG cfg) (sample_posts hashtag_data) in
  0 <= frequency hashtag_data ->
  Forall sample_nonneg (fetched_samples posts r).1 ->
  (0 <= (random_uniform 15 25 (fetched_samples posts r).2).1)%Q ->
  summary_nonneg (analyze_hashtag_engagement cfg hashtag_data r).1.
Proof.
  intros posts Hfreq Hsamples Hfactor. rewrite analyze_by_samples. fold posts.
  destruct posts as [|u us] eqn:Hposts.
  { unfold summary_nonneg, Qle. simpl. lia. }
  rewrite <- Hposts in *.
  destruct (fetched_samples posts r) as [samples r1]. simpl fst in *. simpl snd in *.
  destruct samples as [|e es] eqn:Hs.
  { unfold summary_nonneg, Qle. simpl. lia. }
  rewrite <- Hs in *. rewrite summarize_fields. cbv zeta.
  assert (Hlikes : 0 <= sum (map pe_likes samples)).
  { apply sum_nonneg, (Forall_map_nonneg _ sample_nonneg); [| done]. by intros x (? & _). }
  assert (Hcomments : 0 <= sum (map pe_comments samples)).
  { apply sum_nonneg, (Forall_map_nonneg _ sample_nonneg); [| done].
    by intros x (_ & ? & _). }
  assert (Heng : 0 <= sum (map pe_total_engagement samples)).
  { apply sum_nonneg, (Forall_map_nonneg _ sample_nonneg); [| done].
    by intros x (_ & _ & _ & ?). }
  assert (Hviews : 0 <= sum (video_views samples)).
  { apply sum_nonneg. unfold video_views.
    apply (Forall_map_nonneg _ sample_nonneg); [by intros x (_ & _ & ? & _) |].
    apply Forall_forall. intros x Hx. rewrite Forall_forall in Hsamples.
    apply Hsamples. apply list_elem_of_In, List.filter_In in Hx as [Hx _].
    by apply list_elem_of_In. }
  pose proof (len_video_views samples) as [Hcount _].
  destruct (video_views samples) as [|v vs] eqn:Hvv.
  - destruct (random_uniform 15 25 r1) as [factor r2]. simpl in Hfactor.
    unfold summary_nonneg. simpl.
    assert (Havg : (0 <= truediv (sum (map pe_total_engagement samples))
                                 (len (map pe_total_engagement samples)) * factor)%Q).
    { apply Qmult_le_0_compat; [by apply truediv_nonneg | done]. }
    repeat split; try (by apply truediv_nonneg); try done.
    apply Qmult_le_0_compat; [done |]. apply inject_Z_nonneg. unfold len. lia.
  - unfold summary_nonneg. simpl.
    repeat split; try (by apply truediv_nonneg); try done.
    by apply inject_Z_nonneg.
Qed.

(** One photo and two reels. *)
Lemma analyze_keeps_nonnegative_witness :
  0 <= frequency three_posts /\
  Forall sample_nonneg
    (fetched_samples
       (slice_to (POSTS_PER_HASHTAG default_config) (sample_posts three_posts))
       video_script).1 /\
  (0 <= (random_uniform 15 25
           (fetched_samples
              (slice_to (POSTS_PER_HASHTAG default_config) (sample_posts three_posts))
              video_script).2).1)%Q /\
  summary_nonneg (analyze_hashtag_engagement default_config three_posts video_script).1.
Proof.
  assert (Hfreq : 0 <= frequency three_posts) by (simpl; lia).
  assert (Hsamples : Forall sample_nonneg
            (fetched_samples
               (slice_to (POSTS_PER_HASHTAG default_config) (sample_posts three_posts))
               video_script).1).
  { simpl. repeat constructor; simpl; lia. }
  assert (Hfactor : (0 <= (random_uniform 15 25
            (fetched_samples
               (slice_to (POSTS_PER_HASHTAG default_config) (sample_posts three_posts))
               video_script).2).1)%Q).
  { simpl. unfold Qle. simpl. lia. }
  split; [exact Hfreq | split; [exact Hsamples | split; [exact Hfactor |]]].
  exact (analyze_keeps_nonnegative default_config three_posts video_script
           Hfreq Hsamples Hfactor).
Defined.

Lemma fetched_samples_recording {R : Type} (base : Runtime R) posts log (r : R) :
  @fetched_samples _ (recording base) posts (log, r) =
  ((@fetched_samples _ base posts r).1, (log ++ posts, (@fetched_samples _ base posts r).2)).
Proof.
  revert log r. induction posts as [|u us IH]; intros log r; simpl.
  - by rewrite app_nil_r.
  - destruct (@get_post_engagement R base u r) as [[e | msg] r1].
    + assert (Hleave : @leave_post _ (recording base) us (log ++ [u], r1) =
                       (log ++ [u], @leave_post _ base us r1)) by (by destruct us).
      rewrite Hleave, IH.
      destruct (@fetched_samples R base us (@leave_post _ base us r1)) as [samples r2].
      simpl. by rewrite <- app_assoc.
    + rewrite IH. by rewrite <- app_assoc.
Qed.

(** X11: the aggregator asks the page for exactly the first
    [POSTS_PER_HASHTAG] sample posts of the entry, each once and in order,
    whether the fetches succeed or fail; recording the fetches changes
    neither the summary nor the collaborators' state. *)
Theorem analyze_fetches_each_sample_once {R : Type} (base : Runtime R) (cfg : Config)
    (hashtag_data : HashtagData) (log : list string) (r : R) :
  @analyze_hashtag_engagement _ (recording base) cfg hashtag_data (log, r) =
  ((@analyze_hashtag_engagement _ base cfg hashtag_data r).1,
   (log ++ slice_to (POSTS_PER_HASHTAG cfg) (sample_posts hashtag_data),
    (@analyze_hashtag_engagement _ base cfg hashtag_data r).2)).
Proof.
  rewrite (@analyze_by_samples _ (recording base)), (@analyze_by_samples _ base).
  cbv zeta.
  destruct (slice_to (POSTS_PER_HASHTAG cfg) (sample_posts hashtag_data)) as [|u us] eqn:Hp.
  { by rewrite app_nil_r. }
  rewrite <- Hp. rewrite fetched_samples_recording.
  destruct (@fetched_samples R base
              (slice_to (POSTS_PER_HASHTAG cfg) (sample_posts hashtag_data)) r)
    as [samples r1]. simpl fst. simpl snd.
  rewrite Hp. destruct samples as [|e es] eqn:Hs; [done |]. rewrite <- Hs, <- Hp.
  rewrite (@summarize_fields _ (recording base)), (@summarize_fields _ base). cbv zeta.
  destruct (video_views samples) as [|v vs]; [| done].
  simpl. by destruct (@random_uniform R base 15 25 r1) as [factor r2].
Qed.

(** ** Upsert writer: requests and table contents *)

(** X12: what [save_to_supabase] sends to the store. Without a hashtag it
    raises before any request. Otherwise it first looks the key up; if the
    lookup raises nothing else is sent and the result is [False]; if the
    lookup finds no row exactly one insert of the full payload follows; if
    it finds rows exactly one update of the six columns follows. In no case
    are there more than two requests, and the function does not raise. *)
Theorem save_to_supabase_requests {S : Type} (base : Supabase S)
    (trend_record : TrendRecord) (s : S) :
  let out := (@save_to_supabase _ (logging base) trend_record ([], s)).1 in
  let log := (@save_to_supabase _ (logging base) trend_record ([], s)).2.1 in
  match hashtags trend_record with
  | [] => log = [] /\ out = Raised "list index out of range"
  | key :: _ =>
      match (@select_eq S base key s).1 with
      | Raised _ => log = [ReqSelect key] /\ out = Returned false
      | Returned [] =>
          log = [ReqSelect key; ReqInsert (payload_of trend_record key)] /\
          exists saved, out = Returned saved
      | Returned (_ :: _) =>
          log = [ReqSelect key;
                 ReqUpdate (update_of (payload_of trend_record key)) key] /\
          exists saved, out = Returned saved
      end
  end.
Proof.
  unfold save_to_supabase. destruct (hashtags trend_record) as [|key rest]; [done |].
  simpl. destruct (@select_eq S base key s) as [[existing | msg] s1]; simpl; [| done].
  destruct existing as [|row found]; simpl.
  - destruct (@insert_row S base _ s1) as [[data | msg] s2]; simpl; eauto.
  - destruct (@update_eq S base _ key s1) as [[data | msg] s2]; simpl; eauto.
Qed.

Lemma table_update_keys u key rows :
  map topic_hashtag (table_update u key rows) = map topic_hashtag rows.
Proof.
  unfold table_update. induction rows as [|row rows IH]; simpl; [done |].
  rewrite IH. by destruct (key_is key row).
Qed.

Lemma table_update_found u key rows :
  List.filter (key_is key) (table_update u key rows) =
  map (apply_update u) (List.filter (key_is key) rows).
Proof.
  unfold table_update. induction rows as [|row rows IH]; simpl; [done |].
  destruct (key_is key row) eqn:E; simpl.
  - unfold key_is in *. simpl. rewrite E. simpl. by rewrite IH.
  - by rewrite E.
Qed.

Lemma table_update_others u key rows :
  List.filter (fun row => negb (key_is key row)) (table_update u key rows) =
  List.filter (fun row => negb (key_is key row)) rows.
Proof.
  unfold table_update. induction rows as [|row rows IH]; simpl; [done |].
  destruct (key_is key row) eqn:E; simpl.
  - unfold key_is in *. simpl. rewrite E. simpl. apply IH.
  - rewrite E. simpl. by rewrite IH.
Qed.

Lemma table_update_idem u key rows :
  table_update u key (table_update u key rows) = table_update u key rows.
Proof.
  unfold table_update. induction rows as [|row rows IH]; simpl; [done |].
  rewrite IH. destruct (key_is key row) eqn:E.
  - unfold key_is in *. simpl. by rewrite E.
  - by rewrite E.
Qed.

Lemma filter_key_absent key rows :
  List.filter (key_is key) rows = [] <-> key ∉ map topic_hashtag rows.
Proof.
  induction rows as [|row rows IH]; simpl.
  - split; [intros _ Hin; by apply elem_of_nil in Hin | done].
  - unfold key_is at 1. destruct (String.eqb (topic_hashtag row) key) eqn:E.
    + apply eqb_string_eq in E. split; [done |]. intros Hnot. exfalso. apply Hnot.
      rewrite E. left.
    + rewrite IH. rewrite not_elem_of_cons. split; [| by intros [_ ?]].
      intros Hnot. split; [| done]. intros ->. by rewrite String.eqb_refl in E.
Qed.

Lemma filter_key_unique key rows :
  NoDup (map topic_hashtag rows) -> (length (List.filter (key_is key) rows) <= 1)%nat.
Proof.
  induction rows as [|row rows IH]; simpl; [lia |].
  intros Hnd. apply NoDup_cons in Hnd as [Hrow Hnd].
  unfold key_is at 1. destruct (String.eqb (topic_hashtag row) key) eqn:E; [| auto].
  apply eqb_string_eq in E. rewrite E in Hrow. apply filter_key_absent in Hrow.
  rewrite Hrow. simpl. lia.
Qed.

(** X13: on a table with at most one row per key, a save keeps it that way
    and leaves exactly one row for the record's key: the row count grows by
    one when the key was absent and stays the same when it was present. *)
Theorem save_keeps_one_row_per_key (trend_record : TrendRecord) (key : string)
    (rest : list string) (rows : list Row) :
  hashtags trend_record = key :: rest ->
  NoDup (map topic_hashtag rows) ->
  let rows' := (save_to_supabase trend_record rows).2 in
  NoDup (map topic_hashtag rows') /\
  len (List.filter (key_is key) rows') = 1 /\
  len rows' = len rows + (if bool_decide (key ∈ map topic_hashtag rows) then 0 else 1).
Proof.
  intros Hkey Hnd rows'. subst rows'.
  rewrite (save_to_supabase_table _ _ _ _ Hkey). simpl snd.
  pose proof (filter_key_unique key rows Hnd) as Huniq.
  pose proof (filter_key_absent key rows) as Habs.
  destruct (List.filter (key_is key) rows) as [|row found] eqn:Hfound; simpl.
  - pose proof (proj1 Habs eq_refl) as Hnot.
    rewrite bool_decide_eq_false_2 by done. split; [| split].
    + rewrite map_app. simpl. apply NoDup_app. split; [done |].
      split; [| apply NoDup_singleton].
      intros x Hx Hx'. apply list_elem_of_singleton in Hx' as ->. done.
    + rewrite List.filter_app, Hfound. simpl. unfold key_is. simpl.
      by rewrite String.eqb_refl.
    + unfold len. rewrite length_app. simpl. lia.
  - assert (Hin : key ∈ map topic_hashtag rows).
    { destruct (decide (key ∈ map topic_hashtag rows)) as [? | Hnot]; [done |].
      by apply Habs in Hnot. }
    rewrite bool_decide_eq_true_2 by done. split; [| split].
    + by rewrite table_update_keys.
    + rewrite table_update_found, Hfound. unfold len. rewrite length_map.
      simpl in *. lia.
    + unfold len, table_update. rewrite length_map. lia.
Qed.

(** The record of [sunset] saved into a table that holds [#beach] only. *)
Lemma save_keeps_one_row_per_key_witness :
  let trend_record :=
    from_instagram_data default_config sunset (estimate_without_posts sunset []) "run-1" 100 in
  let other :=
    payload_of (from_instagram_data default_config beach (estimate_without_posts beach [])
                  "run-0" 50) "#beach" in
  hashtags trend_record = "#sunset" :: [] /\
  NoDup (map topic_hashtag [other]) /\
  let rows' := (save_to_supabase trend_record [other]).2 in
  NoDup (map topic_hashtag rows') /\
  len (List.filter (key_is "#sunset") rows') = 1 /\
  len rows' = 1 + 1.
Proof.
  intros trend_record other.
  assert (Hnd : NoDup (map topic_hashtag [other])) by apply NoDup_singleton.
  split; [reflexivity | split; [exact Hnd |]].
  exact (save_keeps_one_row_per_key trend_record "#sunset" [] [other] eq_refl Hnd).
Defined.

(** X14: looking a key up after a save returns at least one row, and every
    row returned carries the record's values in the six written columns:
    engagement score, posts, views, metadata, scrape time and version. *)
Theorem select_after_save (trend_record : TrendRecord) (key : string)
    (rest : list string) (rows : list Row) :
  hashtags trend_record = key :: rest ->
  exists found,
    (select_eq key (save_to_supabase trend_record rows).2).1 = Returned found /\
    found <> [] /\
    Forall (fun row =>
              topic_hashtag row = key /\
              row_engagement_score row = engagement_score trend_record /\
              posts row = rb_posts_count (raw_blob trend_record) /\
              row_views row = views trend_record /\
              metadata row = metadata (payload_of trend_record key) /\
              scraped_at row = timestamp trend_record /\
              version_id row = version trend_record)
           found.
Proof.
  intros Hkey. rewrite (save_to_supabase_table _ _ _ _ Hkey). simpl.
  eexists. split; [done |].
  destruct (List.filter (key_is key) rows) as [|row found] eqn:Hfound; simpl.
  - rewrite List.filter_app, Hfound. simpl. unfold key_is. simpl.
    rewrite String.eqb_refl. split; [done |]. by repeat constructor.
  - rewrite table_update_found, Hfound. simpl. split; [done |].
    assert (Hkeys : Forall (fun row => topic_hashtag row = key) (row :: found)).
    { rewrite <- Hfound. apply Forall_forall. intros x Hx.
      apply list_elem_of_In, List.filter_In in Hx as [_ Hx]. by apply eqb_string_eq. }
    apply Forall_cons in Hkeys as [Hrow Hkeys]. constructor; [done |].
    apply Forall_fmap. eapply Forall_impl; [exact Hkeys |]. by intros x Hx.
Qed.

(** The record of [sunset] looked up after its first save. *)
Lemma select_after_save_witness :
  let trend_record :=
    from_instagram_data default_config sunset (estimate_without_posts sunset []) "run-1" 100 in
  hashtags trend_record = "#sunset" :: [] /\
  exists found,
    (select_eq "#sunset" (save_to_supabase trend_record ([] : list Row)).2).1
      = Returned found /\
    found <> [] /\
    Forall (fun row =>
              topic_hashtag row = "#sunset" /\
              row_engagement_score row = engagement_score trend_record /\
              posts row = rb_posts_count (raw_blob trend_record) /\
              row_views row = views trend_record /\
              metadata row = metadata (payload_of trend_record "#sunset") /\
              scraped_at row = timestamp trend_record /\
              version_id row = version trend_record)
           found.
Proof.
  intros trend_record. split; [reflexivity |].
  exact (select_after_save trend_record "#sunset" [] [] eq_refl).
Defined.

Lemma save_leaves_other_keys_table trend_record key rest (rows : list Row) :
  hashtags trend_record = key :: rest ->
  List.filter (fun row => negb (key_is key row)) (save_to_supabase trend_record rows).2 =
  List.filter (fun row => negb (key_is key row)) rows.
Proof.
  intros Hkey. rewrite (save_to_supabase_table _ _ _ _ Hkey). simpl.
  destruct (has_data (List.filter (key_is key) rows)).
  - apply table_update_others.
  - rewrite List.filter_app. simpl. unfold key_is at 2. simpl.
    rewrite String.eqb_refl. simpl. apply app_nil_r.
Qed.

(** X15: a save touches only the rows of the record's key: the rows of all
    other keys are the same rows, in the same order, before and after. *)
Theorem save_leaves_other_keys (trend_record : TrendRecord) (key : string)
    (rest : list string) (rows : list Row) :
  hashtags trend_record = key :: rest ->
  List.filter (fun row => negb (key_is key row)) (save_to_supabase trend_record rows).2 =
  List.filter (fun row => negb (key_is key row)) rows.
Proof.
  apply save_leaves_other_keys_table.
Qed.

(** The row of [#beach] while [sunset] is saved. *)
Lemma save_leaves_other_keys_witness :
  let trend_record :=
    from_instagram_data default_config sunset (estimate_without_posts sunset []) "run-1" 100 in
  let other :=
    payload_of (from_instagram_data default_config beach (estimate_without_posts beach [])
                  "run-0" 50) "#beach" in
  hashtags trend_record = "#sunset" :: [] /\
  List.filter (fun row => negb (key_is "#sunset" row))
    (save_to_supabase trend_record [other]).2 =
  List.filter (fun row => negb (key_is "#sunset" row)) [other].
Proof.
  intros trend_record other. split; [reflexivity |].
  exact (save_leaves_other_keys trend_record "#sunset" [] [other] eq_refl).
Defined.

Lemma apply_update_payload payload : apply_update (update_of payload) payload = payload.
Proof. by destruct payload. Qed.

(** X16: saving the same record a second time changes nothing: the table
    after two saves equals the table after one, and both saves report
    success. *)
Theorem save_twice_same_table (trend_record : TrendRecord) (key : string)
    (rest : list string) (rows : list Row) :
  hashtags trend_record = key :: rest ->
  save_to_supabase trend_record (save_to_supabase trend_record rows).2 =
  (Returned true, (save_to_supabase trend_record rows).2) /\
  (save_to_supabase trend_record rows).1 = Returned true.
Proof.
  intros Hkey. rewrite !(save_to_supabase_table _ _ _ _ Hkey). simpl. split; [| done].
  f_equal. set (u := update_of (payload_of trend_record key)).
  destruct (List.filter (key_is key) rows) as [|row found] eqn:Hfound; simpl.
  - rewrite List.filter_app, Hfound. simpl. unfold key_is at 1. simpl.
    rewrite String.eqb_refl. simpl.
    unfold table_update. rewrite map_app. simpl. unfold key_is at 2. simpl.
    rewrite String.eqb_refl. subst u. rewrite apply_update_payload. f_equal.
    apply filter_key_absent in Hfound. clear -Hfound.
    induction rows as [|r rows IH]; simpl; [done |].
    simpl in Hfound. apply not_elem_of_cons in Hfound as [Hne Hfound].
    rewrite IH by done. unfold key_is.
    destruct (String.eqb (topic_hashtag r) key) eqn:E; [| done].
    apply eqb_string_eq in E. congruence.
  - rewrite table_update_found, Hfound. simpl. apply table_update_idem.
Qed.

(** The record of [sunset] saved twice into an empty table. *)
Lemma save_twice_same_table_witness :
  let trend_record :=
    from_instagram_data default_config sunset (estimate_without_posts sunset []) "run-1" 100 in
  hashtags trend_record = "#sunset" :: [] /\
  save_to_supabase trend_record (save_to_supabase trend_record ([] : list Row)).2 =
  (Returned true, (save_to_supabase trend_record ([] : list Row)).2) /\
  (save_to_supabase trend_record ([] : list Row)).1 = Returned true.
Proof.
  intros trend_record. split; [reflexivity |].
  exact (save_twice_same_table trend_record "#sunset" [] [] eq_refl).
Defined.

(** ** Run orchestrator: the whole loop *)

Lemma save_trends_loop_snoc `{Runtime R} {S : Type} `{!Supabase S} cfg ver seen hd
    (st : Report * R * S) :
  save_trends_loop cfg ver (seen ++ [hd]) st =
  process_hashtag cfg ver (save_trends_loop cfg ver seen st) hd.
Proof. unfold save_trends_loop. by rewrite foldl_app. Qed.

(** The report after one iteration: the hashtag is either appended to the
    saved ones or listed with an error message. *)
Lemma process_hashtag_report `{Runtime R} {S : Type} `{!Supabase S} cfg ver rep
    (r : R) (s : S) hd :
  let rep' := (process_hashtag cfg ver (rep, r, s) hd).1.1 in
  (saved_hashtags rep' = saved_hashtags rep ++ [(hd, (prepare_record cfg ver hd r).1.1)] /\
   errors rep' = errors rep) \/
  (saved_hashtags rep' = saved_hashtags rep /\
   exists error_msg, errors rep' = errors rep ++ [(hashtag hd, error_msg)]).
Proof.
  unfold process_hashtag.
  destruct (prepare_record cfg ver hd r) as [[ed tr] r2].
  destruct (save_to_supabase tr s) as [[[|] | error_msg] s1]; simpl; eauto.
Qed.

(** X17: in the report of [save_trends_to_database], for any page and any
    store, every hashtag of the list is accounted for exactly once: the
    hashtags of the saved entries together with those of the error entries
    are the hashtags of the list, and within each of the two lists they
    stand in the order of the list. *)
Theorem run_reports_each_hashtag_once `{Runtime R} {S : Type} `{!Supabase S}
    (cfg : Config) (VERSION_ID : string) (hashtag_data_list : list HashtagData)
    (r : R) (s : S) :
  let rep := (save_trends_to_database cfg VERSION_ID hashtag_data_list r s).1.1 in
  map (fun saved => hashtag saved.1) (saved_hashtags rep) ++ map fst (errors rep)
    ≡ₚ map hashtag hashtag_data_list /\
  sublist (map fst (errors rep)) (map hashtag hashtag_data_list) /\
  sublist (map fst (saved_hashtags rep)) hashtag_data_list.
Proof.
  unfold save_trends_to_database.
  induction hashtag_data_list as [|hd seen IH] using rev_ind.
  - simpl. repeat split; constructor.
  - rewrite save_trends_loop_snoc.
    destruct (save_trends_loop cfg VERSION_ID seen (empty_report, r, s))
      as [[rep r1] s1]. simpl in IH. destruct IH as (Hall & Herr & Hsaved).
    destruct (process_hashtag_report cfg VERSION_ID rep r1 s1 hd)
      as [[Hs He] | [Hs [error_msg He]]]; cbv zeta in Hs, He; rewrite Hs, He.
    + rewrite !map_app. simpl. split; [| split].
      * rewrite <- Hall, <- !app_assoc. f_equiv. apply Permutation_app_comm.
      * by apply sublist_inserts_r.
      * by apply sublist_app.
    + rewrite !map_app. simpl. split; [| split].
      * by rewrite <- Hall, app_assoc.
      * by apply sublist_app.
      * by apply sublist_inserts_r.
Qed.


Lemma process_hashtag_table `{Runtime R} cfg ver rep (r : R) (rows : list Row) hd :
  process_hashtag cfg ver (rep, r, rows) hd =
  (note_saved rep hd (prepare_record cfg ver hd r).1.1,
   (prepare_record cfg ver hd r).2,
   (save_to_supabase (prepare_record cfg ver hd r).1.2 rows).2).
Proof.
  unfold process_hashtag.
  pose proof (prepare_record_hashtags cfg ver hd r) as Hkey.
  destruct (prepare_record cfg ver hd r) as [[ed tr] r2]. simpl in *.
  by rewrite (save_to_supabase_table _ _ _ _ Hkey).
Qed.

Lemma save_table_keys trend_record key rest (rows : list Row) :
  hashtags trend_record = key :: rest ->
  key ∈ map topic_hashtag (save_to_supabase trend_record rows).2 /\
  (forall k, k ∈ map topic_hashtag rows ->
             k ∈ map topic_hashtag (save_to_supabase trend_record rows).2).
Proof.
  intros Hkey. rewrite (save_to_supabase_table _ _ _ _ Hkey). simpl.
  destruct (List.filter (key_is key) rows) as [|row found] eqn:Hfound; simpl.
  - rewrite map_app. simpl. split; [apply elem_of_app; right; left |].
    intros k Hk. apply elem_of_app. by left.
  - rewrite table_update_keys. split; [| done].
    destruct (decide (key ∈ map topic_hashtag rows)) as [? | Hnot]; [done |].
    apply filter_key_absent in Hnot. congruence.
Qed.




Lemma filter_filter_comm {A} (p q : A -> bool) l :
  List.filter p (List.filter q l) = List.filter q (List.filter p l).
Proof.
  induction l as [|x l IH]; simpl; [done |].
  destruct (p x) eqn:Hp, (q x) eqn:Hq; simpl; rewrite ?Hp, ?Hq, ?IH; done.
Qed.

Lemma filter_outside_snoc keys k rows :
  List.filter (outside (keys ++ [k])) rows =
  List.filter (fun row => negb (key_is k row)) (List.filter (outside keys) rows).
Proof.
  induction rows as [|row rows IH]; simpl; [done |].
  assert (Hsplit : outside (keys ++ [k]) row =
                   (outside keys row && negb (key_is k row))%bool).
  { unfold outside, key_is.
    destruct (String.eqb (topic_hashtag row) k) eqn:E.
    - apply eqb_string_eq in E. rewrite andb_false_r.
      rewrite bool_decide_eq_true_2; [done |]. apply elem_of_app. right. rewrite E. left.
    - rewrite andb_true_r. f_equal. apply bool_decide_ext.
      rewrite elem_of_app, list_elem_of_singleton. split; [| by left].
      intros [? | Heq]; [done |]. by rewrite Heq, String.eqb_refl in E. }
  rewrite Hsplit. destruct (outside keys row); simpl; [| done].
  destruct (negb (key_is k row)); by rewrite IH.
Qed.

(** X19: run against the in-memory table, the loop leaves every row whose
    key belongs to none of the listed hashtags exactly as it was, in the
    same order. *)
Theorem run_on_table_leaves_other_rows `{Runtime R} (cfg : Config)
    (VERSION_ID : string) (hashtag_data_list : list HashtagData) (r : R)
    (rows : list Row) :
  List.filter (outside (run_keys hashtag_data_list))
    (save_trends_to_database cfg VERSION_ID hashtag_data_list r rows).2 =
  List.filter (outside (run_keys hashtag_data_list)) rows.
Proof.
  unfold save_trends_to_database.
  induction hashtag_data_list as [|hd seen IH] using rev_ind; [done |].
  rewrite save_trends_loop_snoc.
  destruct (save_trends_loop cfg VERSION_ID seen (empty_report, r, rows))
    as [[rep r1] rows1]. simpl in IH.
  rewrite process_hashtag_table. simpl.
  pose proof (prepare_record_hashtags cfg VERSION_ID hd r1) as Hkey.
  unfold run_keys. rewrite map_app. simpl. fold (run_keys seen).
  rewrite !filter_outside_snoc, filter_filter_comm.
  rewrite (save_leaves_other_keys_table _ _ _ _ Hkey), filter_filter_comm.
  by rewrite IH.
Qed.





(** ** Lifecycle update *)

Lemma unique_key_row (rows : list Row) a b :
  NoDup (map topic_hashtag rows) -> a ∈ rows -> b ∈ rows ->
  topic_hashtag a = topic_hashtag b -> a = b.
Proof.
  induction rows as [|row rows IH]; simpl; intros Hnd Ha Hb Heq.
  - by apply elem_of_nil in Ha.
  - apply NoDup_cons in Hnd as [Hrow Hnd].
    apply elem_of_cons in Ha as [-> | Ha], Hb as [-> | Hb]; [done | | | by apply IH].
    + exfalso. apply Hrow. rewrite Heq. apply list_elem_of_fmap. by exists b.
    + exfalso. apply Hrow. rewrite <- Heq. apply list_elem_of_fmap. by exists a.
Qed.

Lemma filter_key_elem key (rows : list Row) row :
  row ∈ List.filter (key_is key) rows <-> row ∈ rows /\ topic_hashtag row = key.
Proof.
  rewrite list_elem_of_In, List.filter_In, <- list_elem_of_In.
  unfold key_is. by rewrite eqb_string_eq.
Qed.

Lemma lifecycle_update_rows (hashtag version : string) (now : datetime)
    (rows : list Row) :
  NoDup (map topic_hashtag rows) ->
  let key := "#" +:+ hashtag in
  Forall2 (fun old new =>
             metadata new = metadata old /\
             topic_hashtag new = topic_hashtag old /\
             row_platform new = row_platform old /\
             row_engagement_score new = row_engagement_score old /\
             sentiment_polarity new = sentiment_polarity old /\
             sentiment_label new = sentiment_label old /\
             posts new = posts old /\
             row_views new = row_views old /\
             (if key_is key old
              then scraped_at new = now /\ version_id new = version
              else new = old))
          rows (update_trend_lifecycle hashtag version now rows).2.
Proof.
  intros Hnd key. unfold update_trend_lifecycle. fold key.
  destruct (List.filter (key_is key) rows) as [|first found] eqn:Hfound.
  - simpl. apply Forall2_same_length_lookup_2; [done |]. intros i old new Hold Hnew.
    assert (new = old) as -> by congruence. repeat split.
    destruct (key_is key old) eqn:E; [| done]. exfalso.
    assert (Hin : old ∈ List.filter (key_is key) rows).
    { apply filter_key_elem. split; [by eapply list_elem_of_lookup_2 |].
      by apply eqb_string_eq. }
    rewrite Hfound in Hin. by apply elem_of_nil in Hin.
  - assert (Hfirst : first ∈ rows /\ topic_hashtag first = key).
    { apply filter_key_elem. rewrite Hfound. left. }
    destruct Hfirst as [Hfirst Hkey]. simpl snd.
    apply Forall2_fmap_r, Forall_Forall2_diag, Forall_forall. intros old Hold.
    unfold compose. cbv beta. destruct (key_is key old) eqn:E; [| done]. simpl.
    assert (old = first) as ->.
    { apply (unique_key_row rows); [done | done | done |].
      apply eqb_string_eq in E. congruence. }
    done.
Qed.

(** X21: on a table with at most one row per key, [update_trend_lifecycle]
    rewrites nothing but [scraped_at] and [version_id] of the hashtag's
    row: that row keeps its metadata (so the [first_seen], [last_seen] and
    [version] stored inside it stay as they were) and all other columns,
    rows of other keys are untouched, and no row is added or removed. The
    outcome is "updated" exactly when the key has a row. *)
Theorem lifecycle_update_keeps_metadata (hashtag version : string) (now : datetime)
    (rows : list Row) :
  NoDup (map topic_hashtag rows) ->
  let key := "#" +:+ hashtag in
  let outcome := (update_trend_lifecycle hashtag version now rows).1 in
  let rows' := (update_trend_lifecycle hashtag version now rows).2 in
  (outcome = if bool_decide (key ∈ map topic_hashtag rows)
             then LifecycleUpdated else LifecycleNotFound) /\
  Forall2 (fun old new =>
             metadata new = metadata old /\
             topic_hashtag new = topic_hashtag old /\
             row_platform new = row_platform old /\
             row_engagement_score new = row_engagement_score old /\
             sentiment_polarity new = sentiment_polarity old /\
             sentiment_label new = sentiment_label old /\
             posts new = posts old /\
             row_views new = row_views old /\
             (if key_is key old
              then scraped_at new = now /\ version_id new = version
              else new = old))
          rows rows'.
Proof.
  intros Hnd key outcome rows'. subst outcome rows'.
  split; [| by apply lifecycle_update_rows].
  unfold update_trend_lifecycle. fold key.
  pose proof (filter_key_absent key rows) as Habs.
  destruct (List.filter (key_is key) rows) as [|first found] eqn:Hfound.
  - by rewrite bool_decide_eq_false_2 by by apply Habs.
  - assert (Hfirst : first ∈ rows /\ topic_hashtag first = key).
    { apply filter_key_elem. rewrite Hfound. left. }
    destruct Hfirst as [Hfirst Hkey].
    rewrite bool_decide_eq_true_2.
    2:{ apply list_elem_of_fmap. by exists first. }
    simpl fst.
    destruct (List.filter (key_is key) (map _ rows)) eqn:Hupd; [| done]. exfalso.
    assert (Hin : In (set_lifecycle version now (metadata first) first)
              (List.filter (key_is key)
                 (map (fun row => if key_is key row
                                  then set_lifecycle version now (metadata first) row
                                  else row) rows))).
    { apply List.filter_In. split.
      - apply List.in_map_iff. exists first. split; [| by apply list_elem_of_In].
        unfold key_is. by rewrite Hkey, String.eqb_refl.
      - unfold key_is. simpl. by rewrite Hkey, String.eqb_refl. }
    by rewrite Hupd in Hin.
Qed.

(** A table with the rows of [#sunset] and [#beach]. *)
Lemma lifecycle_update_keeps_metadata_witness :
  let sunset_row :=
    payload_of (from_instagram_data default_config sunset (estimate_without_posts sunset [])
                  "run-1" 100) "#sunset" in
  let beach_row :=
    payload_of (from_instagram_data default_config beach (estimate_without_posts beach [])
                  "run-1" 101) "#beach" in
  NoDup (map topic_hashtag [sunset_row; beach_row]) /\
  (update_trend_lifecycle "sunset" "run-2" 200 [sunset_row; beach_row]).1
    = LifecycleUpdated /\
  Forall2 (fun old new =>
             metadata new = metadata old /\
             topic_hashtag new = topic_hashtag old /\
             row_platform new = row_platform old /\
             row_engagement_score new = row_engagement_score old /\
             sentiment_polarity new = sentiment_polarity old /\
             sentiment_label new = sentiment_label old /\
             posts new = posts old /\
             row_views new = row_views old /\
             (if key_is "#sunset" old
              then scraped_at new = 200 /\ version_id new = "run-2"
              else new = old))
          [sunset_row; beach_row]
          (update_trend_lifecycle "sunset" "run-2" 200 [sunset_row; beach_row]).2.
Proof.
  intros sunset_row beach_row.
  assert (Hnd : NoDup (map topic_hashtag [sunset_row; beach_row])).
  { simpl. apply NoDup_cons. split; [| apply NoDup_singleton].
    intros Hin. apply list_elem_of_singleton in Hin. discriminate. }
  split; [exact Hnd |].
  exact (lifecycle_update_keeps_metadata "sunset" "run-2" 200 [sunset_row; beach_row] Hnd).
Defined.

Lemma save_table_NoDup trend_record key rest (rows : list Row) :
  hashtags trend_record = key :: rest ->
  NoDup (map topic_hashtag rows) ->
  NoDup (map topic_hashtag (save_to_supabase trend_record rows).2).
Proof.
  intros Hkey Hnd. rewrite (save_to_supabase_table _ _ _ _ Hkey). simpl.
  destruct (List.filter (key_is key) rows) as [|row found] eqn:Hfound; simpl.
  - apply filter_key_absent in Hfound. rewrite map_app. simpl.
    apply NoDup_app. split; [done |]. split; [| apply NoDup_singleton].
    intros x Hx Hx'. apply list_elem_of_singleton in Hx' as ->. done.
  - by rewrite table_update_keys.
Qed.

Lemma save_table_found trend_record key rest (rows : list Row) row :
  hashtags trend_record = key :: rest ->
  row ∈ (save_to_supabase trend_record rows).2 ->
  topic_hashtag row = key ->
  metadata row = metadata (payload_of trend_record key).
Proof.
  intros Hkey. rewrite (save_to_supabase_table _ _ _ _ Hkey). simpl.
  destruct (List.filter (key_is key) rows) as [|x xs] eqn:Hfound; simpl.
  - rewrite elem_of_app, list_elem_of_singleton. intros [Hrow | ->] Htopic; [| done].
    exfalso. assert (Hin : row ∈ List.filter (key_is key) rows) by by apply filter_key_elem.
    rewrite Hfound in Hin. by apply elem_of_nil in Hin.
  - unfold table_update. intros Hrow Htopic.
    apply list_elem_of_fmap in Hrow as (old & -> & Hold).
    unfold key_is in *. destruct (String.eqb (topic_hashtag old) key) eqn:E; [done |].
    by rewrite Htopic, String.eqb_refl in E.
Qed.

(** X22: the writer followed by the lifecycle update, on a table with at
    most one row per key: the hashtag then has exactly one row; its
    [scraped_at] and [version_id] are those of the lifecycle update, while
    its metadata is still the one the writer stored, so the [first_seen],
    [last_seen] and [version] inside the metadata are those of the saved
    record and not of the lifecycle update. *)
Theorem lifecycle_after_save (trend_record : TrendRecord) (hashtag : string)
    (rest : list string) (new_version : string) (now : datetime) (rows : list Row) :
  hashtags trend_record = ("#" +:+ hashtag) :: rest ->
  NoDup (map topic_hashtag rows) ->
  let rows1 := (save_to_supabase trend_record rows).2 in
  let rows2 := (update_trend_lifecycle hashtag new_version now rows1).2 in
  exists row,
    List.filter (key_is ("#" +:+ hashtag)) rows2 = [row] /\
    scraped_at row = now /\
    version_id row = new_version /\
    md_first_seen (metadata row) = first_seen trend_record /\
    md_last_seen (metadata row) = last_seen trend_record /\
    md_version (metadata row) = version trend_record.
Proof.
  intros Hkey Hnd rows1 rows2. set (key := "#" +:+ hashtag) in *.
  pose proof (save_table_NoDup _ _ _ rows Hkey Hnd) as Hnd1. fold rows1 in Hnd1.
  pose proof (lifecycle_update_rows hashtag new_version now rows1 Hnd1) as Hrows.
  cbv zeta in Hrows. fold rows2 key in Hrows.
  assert (Hkeys : map topic_hashtag rows2 = map topic_hashtag rows1).
  { clear -Hrows. induction Hrows as [|old new l k (_ & Ht & _) _ IH]; simpl; [done |].
    by rewrite Ht, IH. }
  assert (Hin : key ∈ map topic_hashtag rows2).
  { rewrite Hkeys. apply (proj1 (save_table_keys _ _ _ rows Hkey)). }
  assert (Hnd2 : NoDup (map topic_hashtag rows2)) by by rewrite Hkeys.
  pose proof (filter_key_unique key rows2 Hnd2) as Huniq.
  destruct (List.filter (key_is key) rows2) as [|row found] eqn:Hfound.
  { apply filter_key_absent in Hfound. done. }
  destruct found as [|? ?]; [| simpl in Huniq; lia].
  exists row. split; [done |].
  assert (Hrow : row ∈ rows2 /\ topic_hashtag row = key).
  { apply filter_key_elem. rewrite Hfound. left. }
  destruct Hrow as [Hrow Htopic].
  apply list_elem_of_lookup in Hrow as [i Hi].
  destruct (Forall2_lookup_r _ _ _ _ _ Hrows Hi) as (old & Hold & Hmd & Ht & _ & _ & _ & _ & _ & _ & Hcase).
  assert (Hmeta : metadata old = metadata (payload_of trend_record key)).
  { apply (save_table_found trend_record key rest rows); [done | | congruence].
    by eapply list_elem_of_lookup_2. }
  unfold key_is in Hcase. rewrite <- Ht, Htopic, String.eqb_refl in Hcase.
  destruct Hcase as [Hat Hver]. rewrite Hmd, Hmeta. by repeat split.
Qed.

(** The record of [sunset] saved at 100 under "run-1", then the lifecycle
    update at 200 under "run-2". *)
Lemma lifecycle_after_save_witness :
  let trend_record :=
    from_instagram_data default_config sunset (estimate_without_posts sunset []) "run-1" 100 in
  hashtags trend_record = ("#" +:+ "sunset") :: [] /\
  NoDup (map topic_hashtag ([] : list Row)) /\
  exists row,
    List.filter (key_is ("#" +:+ "sunset"))
      (update_trend_lifecycle "sunset" "run-2" 200
         (save_to_supabase trend_record ([] : list Row)).2).2 = [row] /\
    scraped_at row = 200 /\
    version_id row = "run-2" /\
    md_first_seen (metadata row) = Some 100 /\
    md_last_seen (metadata row) = Some 100 /\
    md_version (metadata row) = "run-1".
Proof.
  intros trend_record.
  assert (Hnd : NoDup (map topic_hashtag ([] : list Row))) by constructor.
  split; [reflexivity | split; [exact Hnd |]].
  exact (lifecycle_after_save trend_record "sunset" [] "run-2" 200 [] eq_refl Hnd).
Defined.

(** ** One job *)

Lemma nonblank_spec s : nonblank s = true <-> s <> EmptyString.
Proof. by destruct s. Qed.

Lemma validate_spec creds cfg :
  validate creds cfg = true <->
  USERNAME creds <> EmptyString /\ PASSWORD creds <> EmptyString /\
  SUPABASE_URL creds <> EmptyString /\ SUPABASE_KEY creds <> EmptyString /\
  1 <= SCROLL_COUNT cfg /\ 1 <= POSTS_TO_SCAN cfg.
Proof.
  unfold validate. rewrite <- !nonblank_spec.
  destruct (nonblank (USERNAME creds)), (nonblank (PASSWORD creds)),
    (nonblank (SUPABASE_URL creds)), (nonblank (SUPABASE_KEY creds)); simpl;
    try (split; [done | by intros (? & ? & ? & ? & _)]).
  destruct (Z.ltb_spec (SCROLL_COUNT cfg) 1), (Z.ltb_spec (POSTS_TO_SCAN cfg) 1); simpl;
    split; try done; try (intros (_ & _ & _ & _ & ? & ?); lia).
Qed.


(** X23: a job ends without a report exactly when a credential is blank,
    [SCROLL_COUNT] or [POSTS_TO_SCAN] is below 1, the client cannot be
    created, the browser does not start, the login fails, or discovery
    returns nothing; the store is then left as it was. *)
Theorem run_scraper_job_stops_without_writing `{Runtime R} {S : Type} `{!Supabase S}
    (creds : Credentials) (cfg : Config) (session : Session) (r : R) (s : S) :
  let stops :=
    USERNAME creds = EmptyString \/ PASSWORD creds = EmptyString \/
    SUPABASE_URL creds = EmptyString \/ SUPABASE_KEY creds = EmptyString \/
    SCROLL_COUNT cfg < 1 \/ POSTS_TO_SCAN cfg < 1 \/
    client_created session = false \/ browser_started session = false \/
    login_ok session = false \/
    discover_trending_hashtags cfg (explore_page session) = [] in
  ((run_scraper_job creds cfg session r s).1.1 = None <-> stops) /\
  (stops -> (run_scraper_job creds cfg session r s).2 = s).
Proof.
  intros stops. subst stops. unfold run_scraper_job.
  pose proof (validate_spec creds cfg) as Hval.
  destruct (validate creds cfg); simpl.
  - destruct (proj1 Hval eq_refl) as (Hu & Hp & Hurl & Hk & Hs & Hn).
    destruct (client_created session); simpl;
      [| split; [split; [intros _; do 6 right; by left | done] | done]].
    destruct (browser_started session); simpl;
      [| split; [split; [intros _; do 7 right; by left | done] | done]].
    destruct (login_ok session); simpl;
      [| split; [split; [intros _; do 8 right; by left | done] | done]].
    destruct (discover_trending_hashtags cfg (explore_page session)) as [|d ds].
    { split; [split; [intros _; by repeat right | done] | done]. }
    destruct (save_trends_to_database cfg (uuid4 session) (d :: ds) r s)
      as [[rep r1] s1]. simpl.
    assert (Hno : ~ (USERNAME creds = EmptyString \/ PASSWORD creds = EmptyString \/
                     SUPABASE_URL creds = EmptyString \/
                     SUPABASE_KEY creds = EmptyString \/
                     SCROLL_COUNT cfg < 1 \/ POSTS_TO_SCAN cfg < 1 \/
                     true = false \/ true = false \/ true = false \/ d :: ds = [])).
    { intros [? | [? | [? | [? | [? | [? | [? | [? | [? | ?]]]]]]]]];
        try done; lia. }
    split; [split; [done | intros Hstop; by destruct Hno] |].
    intros Hstop. by destruct Hno.
  - split; [| done]. split; [| done]. intros _.
    destruct (decide (USERNAME creds = EmptyString)) as [? | Hu]; [by left |].
    destruct (decide (PASSWORD creds = EmptyString)) as [? | Hp]; [right; by left |].
    destruct (decide (SUPABASE_URL creds = EmptyString)) as [? | Hurl];
      [do 2 right; by left |].
    destruct (decide (SUPABASE_KEY creds = EmptyString)) as [? | Hk];
      [do 3 right; by left |].
    destruct (decide (SCROLL_COUNT cfg < 1)) as [? | Hs]; [do 4 right; by left |].
    destruct (decide (POSTS_TO_SCAN cfg < 1)) as [? | Hn]; [do 5 right; by left |].
    exfalso. assert (false = true); [| done]. apply Hval. repeat split; try done; lia.
Qed.



(** The job over [year_page]: both tags are saved with four requests. *)
Example run_scraper_job_year_page :
  let '(report, _, (log, rows)) :=
    @run_scraper_job Script _ _ (logging table_store) some_credentials default_config
      year_session quiet_script ([], []) in
  option_map successful report = Some 2 /\
  map request_key log = ["#beach"; "#beach"; "#yoga"; "#yoga"] /\
  map topic_hashtag rows = ["#beach"; "#yoga"] /\
  map version_id rows = ["run-1"; "run-1"].
Proof. repeat split. Qed.

(** ** Discovery collector: which posts count *)

Lemma slice_to_all {A} n (l : list A) : len l <= n -> slice_to n l = l.
Proof.
  unfold slice_to, len. intros Hn. rewrite (proj2 (Z.leb_le 0 n)) by lia.
  apply take_ge. lia.
Qed.

Lemma slice_to_app_exact {A} n (l extra : list A) : len l = n -> slice_to n (l ++ extra) = l.
Proof.
  unfold slice_to, len. intros <-. rewrite (proj2 (Z.leb_le 0 _)) by lia.
  rewrite Nat2Z.id. apply take_app_length.
Qed.

(** X25: only the first [POSTS_TO_SCAN] post links are looked at: whatever
    follows them on the page has no influence on the result. *)
Theorem discover_ignores_posts_beyond_limit (cfg : Config)
    (scanned extra : list (result PostLink)) :
  len scanned = POSTS_TO_SCAN cfg ->
  discover_trending_hashtags cfg (Returned (scanned ++ extra)) =
  discover_trending_hashtags cfg (Returned scanned).
Proof.
  intros Hlen. unfold discover_trending_hashtags.
  rewrite (slice_to_app_exact _ _ _ Hlen), slice_to_all by lia. done.
Qed.

(** With a limit of two posts the third post of [year_page] is not seen. *)
Lemma discover_ignores_posts_beyond_limit_witness :
  len [post "#2024 #beach" "/p/a/"; post "#2024 #yoga" "/p/b/"]
    = POSTS_TO_SCAN two_posts_config /\
  discover_trending_hashtags two_posts_config
    (Returned ([post "#2024 #beach" "/p/a/"; post "#2024 #yoga" "/p/b/"]
               ++ [post "#yoga #yoga" "/p/c/"])) =
  discover_trending_hashtags two_posts_config
    (Returned [post "#2024 #beach" "/p/a/"; post "#2024 #yoga" "/p/b/"]).
Proof.
  split; [reflexivity |].
  exact (discover_ignores_posts_beyond_limit two_posts_config
           [post "#2024 #beach" "/p/a/"; post "#2024 #yoga" "/p/b/"]
           [post "#yoga #yoga" "/p/c/"] eq_refl).
Defined.

Lemma tally_loop_readable post_links st :
  foldl tally_post st (List.filter is_readable post_links) = foldl tally_post st post_links.
Proof.
  revert st. induction post_links as [|p ps IH]; intros st; simpl; [done |].
  destruct p as [pl | msg]; simpl; apply IH.
Qed.

(** X26: a post whose attributes cannot be read is skipped without ending
    the scan: when all post links fit in the scan limit, the result is the
    same as for the page with the unreadable links removed. *)
Theorem discover_skips_unreadable_posts (cfg : Config)
    (all_links : list (result PostLink)) :
  len all_links <= POSTS_TO_SCAN cfg ->
  discover_trending_hashtags cfg (Returned all_links) =
  discover_trending_hashtags cfg (Returned (List.filter is_readable all_links)).
Proof.
  intros Hlen. unfold discover_trending_hashtags.
  assert (Hshort : len (List.filter is_readable all_links) <= POSTS_TO_SCAN cfg).
  { pose proof (List.filter_length_le is_readable all_links). unfold len in *. lia. }
  rewrite !slice_to_all by done. unfold tally_posts. by rewrite tally_loop_readable.
Qed.

(** A page of three links of which the second cannot be read. *)
Lemma discover_skips_unreadable_posts_witness :
  len [post "#sunset" "/p/a/"; Raised "detached"; post "#sunset #beach" "/p/c/"]
    <= POSTS_TO_SCAN default_config /\
  discover_trending_hashtags default_config
    (Returned [post "#sunset" "/p/a/"; Raised "detached"; post "#sunset #beach" "/p/c/"]) =
  discover_trending_hashtags default_config
    (Returned (List.filter is_readable
       [post "#sunset" "/p/a/"; Raised "detached"; post "#sunset #beach" "/p/c/"])).
Proof.
  assert (Hlen : len [post "#sunset" "/p/a/"; Raised "detached";
                      post "#sunset #beach" "/p/c/"] <= POSTS_TO_SCAN default_config).
  { unfold len. simpl. lia. }
  split; [exact Hlen |].
  exact (discover_skips_unreadable_posts default_config
           [post "#sunset" "/p/a/"; Raised "detached"; post "#sunset #beach" "/p/c/"] Hlen).
Defined.

(** ** From discovery to the table *)





